(** * hud_camera: the OLED camera driver and the push-button helpers

    A shallow embedding of [Camera/cam_driver.c], of the pipe set-up,
    the file names and the callers of the driver in
    [Camera/capture.c] and of the
    button, text and picture routines of [OLED_1in5_rgb_test.c],
    followed by the properties of the design document that were checked
    against them and by further properties of the code.

    C [int] values are [Z]; conversions to [uint8_t] and [UWORD] write
    their wrap-around out.  Pointers are natural numbers, [0] being
    [NULL]; the C heap is a finite map from pointers to blocks of cells
    that remember whether they were ever written. *)

From Stdlib Require Import ZArith Lia List Bool.
From Stdlib Require String.
From stdpp Require Import base option list gmap.

Local Open Scope Z_scope.

(** ** Machine integers *)

Definition to_uint8 (x : Z) : Z := x mod 256.
Definition to_uint16 (x : Z) : Z := x mod 65536.
Definition INT_MIN : Z := - 2 ^ 31.
Definition INT_MAX : Z := 2 ^ 31 - 1.
Definition in_int (x : Z) : Prop := INT_MIN <= x <= INT_MAX.
Definition is_byte (x : Z) : Prop := 0 <= x <= 255.

(** ** cam_driver.h *)

Definition FPS : Z := 12.
Definition DISPLAY_WIDTH : Z := 128.
Definition DISPLAY_HEIGHT : Z := 128.
Definition OLED_WIDTH : Z := DISPLAY_WIDTH.
Definition OLED_HEIGHT : Z := DISPLAY_HEIGHT.

(** ** Counted loops

    [for (int i = lo; i < hi; i++) body] with a body that neither
    breaks nor touches [i]. *)

Fixpoint for_up {T : Type} (n : nat) (i : Z) (body : Z -> T -> T) (s : T) : T :=
  match n with
  | O => s
  | S n' => for_up n' (i + 1) body (body i s)
  end.

Definition for_range {T : Type} (lo hi : Z) (body : Z -> T -> T) (s : T) : T :=
  for_up (Z.to_nat (hi - lo)) lo body s.

(** ** Colour conversion *)

Module Color.

(** The conditional expression [(t < 0) ? 0 : ((t > 255) ? 255 : t)]. *)
Definition clamp_cond (t : Z) : Z :=
  if t <? 0 then 0 else if t >? 255 then 255 else t.

(** [yuv420_to_rgb]: the three results are what the function stores
    through [r], [g] and [b]. *)
Definition yuv420_to_rgb (y u v : Z) : Z * Z * Z :=
  let c := y - 16 in
  let d := u - 128 in
  let e := v - 128 in
  let r_temp := Z.shiftr (298 * c + 409 * e + 128) 8 in
  let g_temp := Z.shiftr (298 * c - 100 * d - 208 * e + 128) 8 in
  let b_temp := Z.shiftr (298 * c + 516 * d + 128) 8 in
  (to_uint8 (clamp_cond r_temp),
   to_uint8 (clamp_cond g_temp),
   to_uint8 (clamp_cond b_temp)).

(** Every [int] the function computes on the way. *)
Definition yuv_intermediates (y u v : Z) : list Z :=
  let c := y - 16 in
  let d := u - 128 in
  let e := v - 128 in
  [c; d; e;
   298 * c; 409 * e; 298 * c + 409 * e; 298 * c + 409 * e + 128;
   100 * d; 208 * e; 298 * c - 100 * d; 298 * c - 100 * d - 208 * e;
   298 * c - 100 * d - 208 * e + 128;
   516 * d; 298 * c + 516 * d; 298 * c + 516 * d + 128].

(** The transform as the design document words it: saturation to
    [0,255] of the shifted fixed-point sums. *)
Definition clamp8 (x : Z) : Z := Z.max 0 (Z.min 255 x).

Definition convert_spec (y u v : Z) : Z * Z * Z :=
  let c := y - 16 in
  let d := u - 128 in
  let e := v - 128 in
  (clamp8 (Z.shiftr (298 * c + 409 * e + 128) 8),
   clamp8 (Z.shiftr (298 * c - 100 * d - 208 * e + 128) 8),
   clamp8 (Z.shiftr (298 * c + 516 * d + 128) 8)).

(** The packing expression of [display_camera_frame], assigned to a
    [UWORD]. *)
Definition pack565 (r g b : Z) : Z :=
  to_uint16
    (Z.lor (Z.lor (Z.shiftl (Z.land r 248) 8) (Z.shiftl (Z.land g 252) 3))
           (Z.shiftr b 3)).

(** The packing formula of the design document, with no truncation. *)
Definition rgb565 (r g b : Z) : Z :=
  Z.lor (Z.lor (Z.shiftl (Z.land r 248) 8) (Z.shiftl (Z.land g 252) 3))
        (Z.shiftr b 3).

End Color.

(** ** The driver state *)

Module Driver.
Import Color.

(** A byte of a [malloc]ed block: [None] until it is first written. *)
Abbreviation cell := (option Z).
Abbreviation block := (list (option Z)).
Definition NULL : nat := 0%nat.

(** The two thread entry points of the driver. *)
Inductive worker : Type :=
  | FileWorker
  | PipeWorker.

(** What the file system holds at a path. *)
Inductive file_kind : Type :=
  | Fifo
  | Regular
  | Directory.

Record node : Type := Node { node_kind : file_kind; node_mode : Z }.

(** The globals of [cam_driver.c], the heap, the node at [PIPE_PATH],
    and what the surroundings decide or observe:
    - [malloc_plan]: the outcome of the coming [malloc] calls ([false]
      is a failed allocation; an exhausted plan allocates);
    - [stop_after]: a concurrent [stop_display] clears the flag after
      that many further reads of it by the worker ([None]: no stop is
      under way);
    - [presented]: the buffers handed to [OLED_1in5_rgb_Display], latest
      first;
    - [requests]: the frame contents and size of every
      [display_camera_frame] call, latest first;
    - [fault]: a read or write outside a live, initialised block took
      place;
    - [umask]: the file mode creation mask of the process. *)
Record driver : Type := Driver {
  display_active : bool;
  pipe_created : bool;
  display_thread : option worker;
  joined : nat;
  oled_buffers : nat * nat;
  current_buffer : Z;
  buffer_size : Z;
  heap : gmap nat block;
  brk : nat;
  pipe_path : option node;
  malloc_plan : list bool;
  stop_after : option nat;
  presented : list block;
  requests : list (option block * Z);
  fault : bool;
  umask : Z
}.

Definition set_active (a : bool) (st : driver) : driver :=
  Driver a (pipe_created st) (display_thread st) (joined st) (oled_buffers st)
    (current_buffer st) (buffer_size st) (heap st) (brk st) (pipe_path st)
    (malloc_plan st) (stop_after st) (presented st) (requests st) (fault st) (umask st).

Definition set_pipe_created (c : bool) (st : driver) : driver :=
  Driver (display_active st) c (display_thread st) (joined st) (oled_buffers st)
    (current_buffer st) (buffer_size st) (heap st) (brk st) (pipe_path st)
    (malloc_plan st) (stop_after st) (presented st) (requests st) (fault st) (umask st).

Definition set_thread (t : option worker) (j : nat) (st : driver) : driver :=
  Driver (display_active st) (pipe_created st) t j (oled_buffers st)
    (current_buffer st) (buffer_size st) (heap st) (brk st) (pipe_path st)
    (malloc_plan st) (stop_after st) (presented st) (requests st) (fault st) (umask st).

Definition set_buffers (b : nat * nat) (st : driver) : driver :=
  Driver (display_active st) (pipe_created st) (display_thread st) (joined st) b
    (current_buffer st) (buffer_size st) (heap st) (brk st) (pipe_path st)
    (malloc_plan st) (stop_after st) (presented st) (requests st) (fault st) (umask st).

Definition set_current (c : Z) (st : driver) : driver :=
  Driver (display_active st) (pipe_created st) (display_thread st) (joined st)
    (oled_buffers st) c (buffer_size st) (heap st) (brk st) (pipe_path st)
    (malloc_plan st) (stop_after st) (presented st) (requests st) (fault st) (umask st).

Definition set_buffer_size (n : Z) (st : driver) : driver :=
  Driver (display_active st) (pipe_created st) (display_thread st) (joined st)
    (oled_buffers st) (current_buffer st) n (heap st) (brk st) (pipe_path st)
    (malloc_plan st) (stop_after st) (presented st) (requests st) (fault st) (umask st).

Definition set_heap (h : gmap nat block) (st : driver) : driver :=
  Driver (display_active st) (pipe_created st) (display_thread st) (joined st)
    (oled_buffers st) (current_buffer st) (buffer_size st) h (brk st) (pipe_path st)
    (malloc_plan st) (stop_after st) (presented st) (requests st) (fault st) (umask st).

Definition set_brk (n : nat) (st : driver) : driver :=
  Driver (display_active st) (pipe_created st) (display_thread st) (joined st)
    (oled_buffers st) (current_buffer st) (buffer_size st) (heap st) n (pipe_path st)
    (malloc_plan st) (stop_after st) (presented st) (requests st) (fault st) (umask st).

Definition set_pipe_path (n : option node) (st : driver) : driver :=
  Driver (display_active st) (pipe_created st) (display_thread st) (joined st)
    (oled_buffers st) (current_buffer st) (buffer_size st) (heap st) (brk st) n
    (malloc_plan st) (stop_after st) (presented st) (requests st) (fault st) (umask st).

Definition set_plan (p : list bool) (st : driver) : driver :=
  Driver (display_active st) (pipe_created st) (display_thread st) (joined st)
    (oled_buffers st) (current_buffer st) (buffer_size st) (heap st) (brk st)
    (pipe_path st) p (stop_after st) (presented st) (requests st) (fault st) (umask st).

Definition set_stop (s : option nat) (st : driver) : driver :=
  Driver (display_active st) (pipe_created st) (display_thread st) (joined st)
    (oled_buffers st) (current_buffer st) (buffer_size st) (heap st) (brk st)
    (pipe_path st) (malloc_plan st) s (presented st) (requests st) (fault st)
    (umask st).

Definition push_presented (b : block) (st : driver) : driver :=
  Driver (display_active st) (pipe_created st) (display_thread st) (joined st)
    (oled_buffers st) (current_buffer st) (buffer_size st) (heap st) (brk st)
    (pipe_path st) (malloc_plan st) (stop_after st) (b :: presented st)
    (requests st) (fault st) (umask st).

Definition push_request (r : option block * Z) (st : driver) : driver :=
  Driver (display_active st) (pipe_created st) (display_thread st) (joined st)
    (oled_buffers st) (current_buffer st) (buffer_size st) (heap st) (brk st)
    (pipe_path st) (malloc_plan st) (stop_after st) (presented st)
    (r :: requests st) (fault st) (umask st).

Definition set_fault (st : driver) : driver :=
  Driver (display_active st) (pipe_created st) (display_thread st) (joined st)
    (oled_buffers st) (current_buffer st) (buffer_size st) (heap st) (brk st)
    (pipe_path st) (malloc_plan st) (stop_after st) (presented st)
    (requests st) true (umask st).

Definition set_umask (m : Z) (st : driver) : driver :=
  Driver (display_active st) (pipe_created st) (display_thread st) (joined st)
    (oled_buffers st) (current_buffer st) (buffer_size st) (heap st) (brk st)
    (pipe_path st) (malloc_plan st) (stop_after st) (presented st)
    (requests st) (fault st) m.

(** The static initialisers of the file, with nothing at the pipe
    path, a willing allocator and the usual mask [022]. *)
Definition boot : driver :=
  Driver false false None 0%nat (NULL, NULL) 0
    (to_uint16 ((OLED_WIDTH * 2) * OLED_HEIGHT)) ∅ 1%nat None [] None [] [] false 18.

(** *** The heap *)

(** [malloc]: a fresh pointer to [size] unwritten cells, or [NULL]. *)
Definition malloc (size : Z) (st : driver) : nat * driver :=
  let grant (s : driver) :=
    (brk s,
     set_brk (S (brk s))
       (set_heap (<[brk s := replicate (Z.to_nat size) None]> (heap s)) s)) in
  match malloc_plan st with
  | [] => grant st
  | true :: plan => grant (set_plan plan st)
  | false :: plan => (NULL, set_plan plan st)
  end.

(** [free]: nothing on [NULL]; releasing what is not live is a fault. *)
Definition free (p : nat) (st : driver) : driver :=
  if decide (p = NULL) then st
  else match heap st !! p with
       | Some _ => set_heap (delete p (heap st)) st
       | None => set_fault st
       end.

(** [memset (p, c, n)] on a live block of at least [n] cells. *)
Definition memset (p : nat) (c : Z) (n : Z) (st : driver) : driver :=
  match heap st !! p with
  | Some b =>
      if Z.to_nat n <=? length b
      then set_heap (<[p := replicate (Z.to_nat n) (Some (to_uint8 c))
                            ++ drop (Z.to_nat n) b]> (heap st)) st
      else set_fault st
  | None => set_fault st
  end%nat.

(** *** Reading and writing one block *)

Definition load (b : block) (i : Z) : option Z :=
  if i <? 0 then None else mjoin (b !! Z.to_nat i).

Definition store (b : block) (i : Z) (v : Z) : option block :=
  if (0 <=? i) && (i <? Z.of_nat (length b))
  then Some (<[Z.to_nat i := Some v]> b)
  else None.

(** A read that is out of range or of an unwritten cell yields [0]
    and clears the flag that travels with the output buffer; a write
    out of range leaves the buffer and clears the flag.  The flag being
    still set at the end says that neither happened. *)
Definition fetch (b : block) (i : Z) (ok : bool) : Z * bool :=
  match load b i with
  | Some v => (v, ok)
  | None => (0, false)
  end.

Definition put (i : Z) (v : Z) (acc : block * bool) : block * bool :=
  match store (fst acc) i v with
  | Some b' => (b', snd acc)
  | None => (fst acc, false)
  end.

(** *** The conversion pass of [display_camera_frame]

    The body of the two nested loops, for a display of [W] by [H]
    pixels; [frame] is the block behind [frame_buffer], the
    accumulator the block behind [current_buffer1].  [÷] is the
    truncating division of C. *)
Definition paint_pixel (W H : Z) (frame : block) (row col : Z)
    (acc : block * bool) : block * bool :=
  let y_plane := 0 in
  let u_plane := y_plane + W * H in
  let v_plane := u_plane + (W * H ÷ 4) in
  let y_index := row * W + col in
  let uv_row := row ÷ 2 in
  let uv_col := col ÷ 2 in
  let uv_index := uv_row * (W ÷ 2) + uv_col in
  let '(y_val, ok1) := fetch frame (y_plane + y_index) (snd acc) in
  let '(u_val, ok2) := fetch frame (u_plane + uv_index) ok1 in
  let '(v_val, ok3) := fetch frame (v_plane + uv_index) ok2 in
  let '(r, g, b) := yuv420_to_rgb y_val u_val v_val in
  let color := pack565 r g b in
  let pos := to_uint16 ((row * W + col) * 2) in
  put (pos + 1) (to_uint8 (Z.land color 255))
    (put pos (to_uint8 (Z.land (Z.shiftr color 8) 255)) (fst acc, ok3)).

Definition convert_frame (W H : Z) (frame : block) (out : block) : block * bool :=
  for_range 0 H (fun row => for_range 0 W (fun col => paint_pixel W H frame row col))
    (out, true).

(** *** The display buffers *)

Definition init_display_buffers (st : driver) : Z * driver :=
  let st := set_buffer_size (to_uint16 ((OLED_WIDTH * 2) * OLED_HEIGHT)) st in
  let first : Z * driver :=
    if decide (fst (oled_buffers st) = NULL) then
      let '(p, st1) := malloc (buffer_size st) st in
      let st1 := set_buffers (p, snd (oled_buffers st1)) st1 in
      if decide (p = NULL) then (-1, st1)
      else (0, memset p 0 (buffer_size st1) st1)
    else (0, st) in
  if fst first =? -1 then first else
  let st := snd first in
  if decide (snd (oled_buffers st) = NULL) then
    let '(q, st2) := malloc (buffer_size st) st in
    let st2 := set_buffers (fst (oled_buffers st2), q) st2 in
    if decide (q = NULL) then
      (-1, set_buffers (NULL, snd (oled_buffers st2))
             (free (fst (oled_buffers st2)) st2))
    else (0, memset q 0 (buffer_size st2) st2)
  else (0, st).

Definition sel {A : Type} (pr : A * A) (i : Z) : A :=
  if i =? 0 then fst pr else snd pr.

(** [display_camera_frame (frame_buffer, frame_size)]. *)
Definition display_camera_frame (frame_buffer : nat) (frame_size : Z)
    (st : driver) : driver :=
  let st := push_request (heap st !! frame_buffer, frame_size) st in
  let '(p0, st) := malloc (buffer_size st) st in
  let st := set_buffers (p0, snd (oled_buffers st)) st in
  if decide (p0 = NULL) then st else
  let '(p1, st) := malloc (buffer_size st) st in
  let st := set_buffers (fst (oled_buffers st), p1) st in
  if decide (p1 = NULL) then st else
  if bool_decide (fst (oled_buffers st) = NULL)
     || bool_decide (snd (oled_buffers st) = NULL)
  then st else
  let current_buffer1 := sel (oled_buffers st) (current_buffer st) in
  if bool_decide (frame_buffer = NULL)
     || (frame_size <? OLED_WIDTH * OLED_HEIGHT * 3 ÷ 2)
  then st else
  match heap st !! frame_buffer, heap st !! current_buffer1 with
  | Some frame, Some out =>
      let '(out', ok) := convert_frame OLED_WIDTH OLED_HEIGHT frame out in
      let st := set_heap (<[current_buffer1 := out']> (heap st)) st in
      let st := if ok then st else set_fault st in
      let st := push_presented out' st in
      set_current (1 - current_buffer st) st
  | _, _ => set_fault st
  end.

Definition free_display_buffers (st : driver) : driver :=
  let st :=
    if decide (fst (oled_buffers st) = NULL) then st
    else set_buffers (NULL, snd (oled_buffers st)) (free (fst (oled_buffers st)) st) in
  if decide (snd (oled_buffers st) = NULL) then st
  else set_buffers (fst (oled_buffers st), NULL) (free (snd (oled_buffers st)) st).

(** A frame buffer as a worker holds it after a full read: a block of
    its own, every byte written. *)
Definition hold_frame (bytes : list Z) (st : driver) : nat * driver :=
  let '(p, st1) := malloc (Z.of_nat (length bytes)) st in
  (p, if decide (p = NULL) then st1
      else set_heap (<[p := Some <$> bytes]> (heap st1)) st1).

(** One frame of mid grey. *)
Definition grey_frame : list Z := replicate (Z.to_nat 24576) 128.

(** Pointers from [brk] on were never handed out. *)
Definition wf (st : driver) : Prop :=
  (0 < brk st)%nat /\ forall p, (brk st <= p)%nat -> heap st !! p = None.

Definition is_display_active (st : driver) : Z :=
  if display_active st then 1 else 0.

End Driver.

(** ** Sessions and worker threads *)

Module Session.
Import Driver.

(** [size_t frame_size = OLED_WIDTH * OLED_HEIGHT * 3 / 2]. *)
Definition frame_size : Z := OLED_WIDTH * OLED_HEIGHT * 3 ÷ 2.

(** Mode [0666]. *)
Definition mode_rw_all : Z := 438.

(** The permission bits of a node that [mkfifo (.., mode)] creates:
    those of [mode] that the mask of the process leaves. *)
Definition created_mode (mode : Z) (st : driver) : Z :=
  Z.land mode (Z.lnot (umask st)).

(** One read of the volatile [display_active] by a worker, with the
    concurrent [stop_display] taken into account. *)
Definition observe_active (st : driver) : bool * driver :=
  match stop_after st with
  | Some O => (false, set_stop None (set_active false st))
  | Some (S k) => (display_active st, set_stop (Some k) st)
  | None => (display_active st, st)
  end.

(** [start_video_display]: [file_exists] says whether the test
    [fopen] succeeds, [spawn_ok] whether [pthread_create] does. *)
Definition start_video_display (file_exists spawn_ok : bool) (st : driver)
    : Z * driver :=
  if display_active st then (-1, st)
  else if negb file_exists then (-1, st)
  else
    let st := set_active true st in
    if spawn_ok then (0, set_thread (Some FileWorker) (joined st) st)
    else (-1, set_active false st).

(** [start_realtime_display]: [stat] fails exactly when nothing is at
    [PIPE_PATH]; [mkfifo_ok] says whether [mkfifo] then succeeds. *)
Definition start_realtime_display (mkfifo_ok spawn_ok : bool) (st : driver)
    : Z * driver :=
  if display_active st then (-1, st)
  else
    let made : option driver :=
      match pipe_path st with
      | None =>
          if mkfifo_ok
          then Some (set_pipe_created true
                       (set_pipe_path
                          (Some (Node Fifo (created_mode mode_rw_all st))) st))
          else None
      | Some _ => Some st
      end in
    match made with
    | None => (-1, st)
    | Some st =>
        let st := set_active true st in
        if spawn_ok then (0, set_thread (Some PipeWorker) (joined st) st)
        else (-1, set_active false st)
    end.

(** [stop_display]: [pthread_join] returns once the worker is over;
    the thread slot is then empty and the join is counted. *)
Definition stop_display (st : driver) : driver :=
  if display_active st
  then set_thread None (S (joined st)) (set_active false st)
  else st.

(** *** The producer side of a pipe or a file *)

(** What the coming [read] calls on the pipe find: some bytes (at
    least one), the end of the stream (every writer closed), or an
    error. *)
Inductive chunk : Type :=
  | Bytes (b : Z) (l : list Z)
  | Eof
  | Fail.

(** [memcpy] of [l] into block [p] from offset [off]. *)
Definition write_bytes (p : nat) (off : Z) (l : list Z) (st : driver) : driver :=
  match heap st !! p with
  | Some blk =>
      if (0 <=? off) && (off + Z.of_nat (length l) <=? Z.of_nat (length blk))
      then set_heap
             (<[p := take (Z.to_nat off) blk ++ (Some <$> l)
                     ++ drop (Z.to_nat off + length l) blk]> (heap st)) st
      else set_fault st
  | None => set_fault st
  end.

Inductive fill_result : Type :=
  | Filled (total_read : Z) (rest : list chunk) (st : driver)
  | Stalled (st : driver).

(** The accumulation loop
    [while (total_read < frame_size && display_active) { read ... }]
    into the buffer [buf].  A chunk larger than what is still missing
    is read up to [frame_size] and its remainder stays in the pipe.
    With nothing left to find, [read] never returns. *)
Fixpoint fill_frame (pipe : list chunk) (buf : nat) (total_read : Z)
    (st : driver) : fill_result :=
  if total_read <? frame_size then
    let '(active, st) := observe_active st in
    if active then
      match pipe with
      | [] => Stalled st
      | Fail :: rest => Filled total_read rest st
      | Eof :: rest => Filled total_read rest st
      | Bytes b l :: rest =>
          let count := frame_size - total_read in
          let n := Z.of_nat (length (b :: l)) in
          if n <=? count
          then fill_frame rest buf (total_read + n)
                 (write_bytes buf total_read (b :: l) st)
          else
            Filled (total_read + count)
              (match drop (Z.to_nat count) (b :: l) with
               | [] => rest
               | b' :: l' => Bytes b' l' :: rest
               end)
              (write_bytes buf total_read (take (Z.to_nat count) (b :: l)) st)
      end
    else Filled total_read pipe st
  else Filled total_read pipe st.

Definition fill_state (r : fill_result) : driver :=
  match r with
  | Filled _ _ st => st
  | Stalled st => st
  end.

(** The bytes a pipe delivers before it ends, fails or runs dry. *)
Fixpoint available (pipe : list chunk) : Z :=
  match pipe with
  | Bytes b l :: rest => Z.of_nat (length (b :: l)) + available rest
  | _ => 0
  end.

(** Those bytes themselves. *)
Fixpoint stream (pipe : list chunk) : list Z :=
  match pipe with
  | Bytes b l :: rest => (b :: l) ++ stream rest
  | _ => []
  end.

(** The entry that [display_camera_frame] logs when called on a
    buffer that holds exactly the bytes [f]. *)
Definition req (f : list Z) : option (list (option Z)) * Z :=
  (Some (Some <$> f), frame_size).

(** How a worker run ends. *)
Inductive ending : Type :=
  | Returned
  | Waiting
  | OutOfFuel.

(** A worker run: how it ended, the value of [total_read] at each call
    of [display_camera_frame] (latest first), the frames counted, what
    is left of the input, and the driver state. *)
Record run (R : Type) : Type := Run {
  how : ending;
  handed : list Z;
  frames_received : Z;
  remaining : R;
  final : driver
}.
Arguments Run {R} _ _ _ _ _.
Arguments how {R} _.
Arguments handed {R} _.
Arguments frames_received {R} _.
Arguments remaining {R} _.
Arguments final {R} _.

(** The end of [pipe_thread_func] after its main loop. *)
Definition pipe_cleanup (fb : nat * nat) (handed : list Z) (received : Z)
    (pipe : list chunk) (st : driver) : run (list chunk) :=
  Run Returned handed received pipe (free (snd fb) (free (fst fb) st)).

(** The main loop of [pipe_thread_func]; one unit of fuel per
    iteration. *)
Fixpoint pipe_loop (fuel : nat) (fb : nat * nat) (active_buffer total_read : Z)
    (received : Z) (pipe : list chunk) (handed : list Z) (st : driver)
    : run (list chunk) :=
  match fuel with
  | O => Run OutOfFuel handed received pipe st
  | S fuel' =>
      let '(active, st) := observe_active st in
      if active then
        let st := display_camera_frame (sel fb active_buffer) frame_size st in
        let handed := total_read :: handed in
        let next_buffer := 1 - active_buffer in
        match fill_frame pipe (sel fb next_buffer) 0 st with
        | Stalled st => Run Waiting handed received [] st
        | Filled total_read pipe st =>
            if total_read <? frame_size
            then pipe_cleanup fb handed received pipe st
            else pipe_loop fuel' fb next_buffer total_read (received + 1)
                   pipe handed st
        end
      else pipe_cleanup fb handed received pipe st
  end.

(** [pipe_thread_func]; [None] for the pipe is a failed [open]. *)
Definition pipe_thread_func (fuel : nat) (pipe : option (list chunk))
    (st : driver) : run (list chunk) :=
  match pipe with
  | None => Run Returned [] 0 [] (set_active false st)
  | Some pipe =>
      let '(b0, st) := malloc frame_size st in
      if decide (b0 = NULL) then Run Returned [] 0 pipe (set_active false st)
      else
        let '(b1, st) := malloc frame_size st in
        if decide (b1 = NULL)
        then Run Returned [] 0 pipe (set_active false (free b0 st))
        else
          match fill_frame pipe b0 0 st with
          | Stalled st => Run Waiting [] 0 [] st
          | Filled total_read pipe st =>
              if total_read <? frame_size
              then Run Returned [] 0 pipe
                     (set_active false (free b1 (free b0 st)))
              else pipe_loop fuel (b0, b1) 0 total_read 1 pipe [] st
          end
  end.

(** *** capture.c *)

Inductive open_result : Type :=
  | Opened
  | AlreadyThere
  | OpenFailed (errno : Z).

(** The driver state once the pipe worker that was started on [st] has
    had some time: none at all, or that of [fuel] rounds of its main
    loop. *)
Definition pipe_worker_at (time : nat) (pipe : option (list chunk))
    (st : driver) : driver :=
  match time with
  | O => st
  | S fuel => final (pipe_thread_func fuel pipe st)
  end.

(** [capture_video].  [cap] is the [pipe_created] of [capture.c] (a
    static of its own); [chmod_ok] says whether [chmod] succeeds;
    [fork_pid] and [system_status] are what [fork] and [system]
    return, and in the child [exec_ok] says whether [execl] replaces
    the process, after which nothing returns ([None]).  The pipe
    worker runs beside the caller: [seen] is the time it has had when
    the caller gets to [fork] and to its test of the flag, [extra] the
    further time until the display is stopped; [pipe] is what the
    worker finds in the pipe.  The wait for the interrupt is taken to
    end; the flag is then cleared and the worker joined, by the
    interrupt handler or by the call itself. *)
Definition capture_video (yuv h264 : open_result) (realtime_display : bool)
    (chmod_ok mkfifo_ok spawn_ok : bool) (fork_pid : Z) (exec_ok : bool)
    (system_status : Z) (pipe : option (list chunk)) (seen extra : nat)
    (cap : bool) (st : driver) : option (Z * bool * driver) :=
  match yuv with
  | OpenFailed e => Some (- e, cap, st)
  | _ =>
  match h264 with
  | OpenFailed e => Some (- e, cap, st)
  | _ =>
  if realtime_display then
    let made : option (bool * driver) :=
      match pipe_path st with
      | None =>
          if mkfifo_ok
          then Some (true,
                     set_pipe_path
                       (Some (Node Fifo (created_mode mode_rw_all st))) st)
          else None
      | Some n =>
          match node_kind n with
          | Fifo => Some (cap, st)
          | _ => None
          end
      end in
    match made with
    | None => Some (-1, cap, st)
    | Some (cap, st) =>
        let st :=
          match pipe_path st with
          | Some n =>
              if chmod_ok
              then set_pipe_path (Some (Node (node_kind n) mode_rw_all)) st
              else st
          | None => st
          end in
        let '(r, st) := start_realtime_display mkfifo_ok spawn_ok st in
        if negb (r =? 0) then Some (-1, cap, st)
        else
          let at_test := pipe_worker_at seen pipe st in
          if fork_pid =? 0 then
            if exec_ok then None else Some (-1, cap, at_test)
          else if fork_pid <? 0 then Some (-1, cap, at_test)
          else if display_active at_test
          then Some (0, cap, stop_display (pipe_worker_at (seen + extra) pipe st))
          else Some (0, cap, at_test)
    end
  else
    if negb (system_status =? 0) then Some (-1, cap, st) else Some (0, cap, st)
  end
  end.

(** [fread (frame_buffer, 1, frame_size, file)] on a file holding
    [data], read so far up to [pos]: the bytes delivered. *)
Definition fread (data : list Z) (pos : nat) : list Z :=
  take (Z.to_nat frame_size) (drop pos data).

(** The loop of [display_thread_func]; the pacing sleep has no part in
    what is read or shown and is left out. *)
Fixpoint display_thread_loop (fuel : nat) (fb : nat) (data : list Z) (pos : nat)
    (handed : list Z) (st : driver) : run nat :=
  match fuel with
  | O => Run OutOfFuel handed 0 pos st
  | S fuel' =>
      let '(active, st) := observe_active st in
      if active then
        let got := fread data pos in
        let bytes_read := Z.of_nat (length got) in
        let st := write_bytes fb 0 got st in
        if bytes_read <? frame_size
        then display_thread_loop fuel' fb data 0 handed st
        else
          let st := display_camera_frame fb frame_size st in
          display_thread_loop fuel' fb data (pos + length got)
            (bytes_read :: handed) st
      else Run Returned handed 0 pos (free fb st)
  end.

(** [display_thread_func]; [None] for the file is a failed [fopen]. *)
Definition display_thread_func (fuel : nat) (file : option (list Z))
    (st : driver) : run nat :=
  match file with
  | None => Run Returned [] 0 0%nat (set_active false st)
  | Some data =>
      let '(fb, st) := malloc frame_size st in
      if decide (fb = NULL) then Run Returned [] 0 0%nat (set_active false st)
      else display_thread_loop fuel fb data 0 [] st
  end.

(** What the file worker relies on between two iterations: no stop is
    under way, the flag is set, and its frame buffer is a live block of
    [frame_size] bytes. *)
Definition playing (fb : nat) (st : driver) : Prop :=
  stop_after st = None /\ display_active st = true /\ wf st /\
  (0 < fb < brk st)%nat /\
  exists blk, heap st !! fb = Some blk /\ length blk = Z.to_nat frame_size.

(** A file of full frames followed by a shorter, possibly empty, rest. *)
Definition file_data (frames : list (list Z)) (tail : list Z) : list Z :=
  concat frames ++ tail.

(** The two frame buffers of the pipe worker are distinct live blocks
    of [frame_size] bytes. *)
Definition ready (b0 b1 : nat) (st : driver) : Prop :=
  wf st /\ b0 <> b1 /\
  (exists blk, heap st !! b0 = Some blk /\ length blk = Z.to_nat frame_size) /\
  (exists blk, heap st !! b1 = Some blk /\ length blk = Z.to_nat frame_size).

End Session.

(** ** The push button (OLED_1in5_rgb_test.c)

    The pin is the sequence of levels that [lgGpioRead] returns, call
    after call: [pin k] answers the call number [k], counted from 0
    within one run of a routine. *)

Module Button.

(** The locals of [debounceButton] between two iterations, the number
    of reads made so far and the microseconds slept. *)
Record debounce : Type := Debounce {
  lastState : Z;
  count : Z;
  reads : nat;
  slept_us : Z
}.

(** The body of the loop of [debounceButton]: [usleep (1000)], then one
    comparison read and, when it differs, a second read that becomes
    the new reference. *)
Definition debounce_step (pin : nat -> Z) (i : Z) (s : debounce) : debounce :=
  let slept := slept_us s + 1000 in
  if pin (reads s) =? lastState s
  then Debounce (lastState s) (count s + 1) (S (reads s)) slept
  else Debounce (pin (S (reads s))) 0 (S (S (reads s))) slept.

Definition debounceButton (pin : nat -> Z) : Z * debounce :=
  let s := for_range 0 10 (debounce_step pin) (Debounce (pin 0%nat) 0 1 0) in
  (if count s >=? 10 then lastState s else -1, s).

(** After [j] iterations: [j] milliseconds slept, and the counter
    equals [j] exactly when every comparison so far matched the level
    read first. *)
Definition debounce_inv (pin : nat -> Z) (j : Z) (s : debounce) : Prop :=
  slept_us s = 1000 * j /\
  0 <= count s <= j /\
  (count s = j ->
     lastState s = pin 0%nat /\ reads s = Z.to_nat (j + 1)) /\
  (count s = j <-> forall i, (1 <= i <= Z.to_nat j)%nat -> pin i = pin 0%nat).

(** How a call of [Button_Lock] ends: with a [return], or by running
    into the closing brace of the function, which yields no value. *)
Inductive ending : Type :=
  | Return (v : Z)
  | FellOffEnd.

(** [outcome] is [None] when the polling loop was still running as the
    fuel ran out; [uninit_read] says that [temp] was read before any
    assignment to it; [gpio_freed] that [lgGpioFree] was called;
    [polled] counts the reads. *)
Record lock_run : Type := LockRun {
  outcome : option ending;
  uninit_read : bool;
  gpio_freed : bool;
  polled : nat
}.

(** [while (temp == 1) { state = LOCKED; check2 = 1; temp = lgGpioRead
    (handle, pin); }] with [k] reads made before; the result is the
    final [temp], [check2] and number of reads. *)
Fixpoint hold_loop (fuel : nat) (pin : nat -> Z) (k : nat) (temp check2 : Z)
    : option (Z * Z * nat) :=
  if temp =? 1 then
    match fuel with
    | O => None
    | S fuel' => hold_loop fuel' pin (S k) (pin k) 1
    end
  else Some (temp, check2, k).

(** [Button_Lock].  [state] starts as [IDLE], so the [switch] enters at
    [case IDLE] and, there being no [break], runs on into [case
    LOCKED].  [indet] is the value that reading the unassigned [temp]
    happens to produce. *)
Definition Button_Lock (indet : Z) (fuel : nat) (pin : nat -> Z) : lock_run :=
  let check := if pin 0%nat =? 1 then 1 else 0 in
  let '(temp, k, uninit) :=
    if check =? 1 then (pin 1%nat, 2%nat, false) else (indet, 1%nat, true) in
  match hold_loop fuel pin k temp 0 with
  | None => LockRun None uninit false (k + fuel)
  | Some (_, check2, k') =>
      if check2 =? 1
      then LockRun (Some (Return 1)) uninit false k'
      else LockRun (Some FellOffEnd) uninit true k'
  end.

(** The value a caller may rely on: the returned one, unless the run
    read [temp] unassigned or ended without a [return]. *)
Definition defined_result (r : lock_run) : option Z :=
  match outcome r with
  | Some (Return v) => if uninit_read r then None else Some v
  | _ => None
  end.

End Button.

(** ** The frame layout of the design document

    A frame of [W*H*3/2] bytes: the luma plane of [W*H] bytes, then two
    chroma planes of [W*H/4] bytes each. *)

Module Layout.

Definition luma_plane (W H : Z) (bytes : list Z) : list Z :=
  take (Z.to_nat (W * H)) bytes.

Definition u_plane (W H : Z) (bytes : list Z) : list Z :=
  take (Z.to_nat (W * H / 4)) (drop (Z.to_nat (W * H)) bytes).

Definition v_plane (W H : Z) (bytes : list Z) : list Z :=
  take (Z.to_nat (W * H / 4)) (drop (Z.to_nat (W * H + W * H / 4)) bytes).

Definition luma_index (W row col : Z) : Z := row * W + col.

Definition chroma_index (W row col : Z) : Z := (row / 2) * (W / 2) + col / 2.

(** Pixel [(row, col)] of a display buffer holds the big-endian RGB565
    packing of the colour [(r, g, b)]. *)
Definition holds_pixel (W : Z) (out : list (option Z)) (row col : Z)
    (rgb : Z * Z * Z) : Prop :=
  let '(r, g, b) := rgb in
  out !! Z.to_nat ((row * W + col) * 2) = Some (Some (Color.rgb565 r g b / 256)) /\
  out !! Z.to_nat ((row * W + col) * 2 + 1) = Some (Some (Color.rgb565 r g b mod 256)).

(** Pixel [(row, col)] of [out] is the conversion of the samples the
    design document assigns to it. *)
Definition painted (W H : Z) (bytes : list Z) (out : list (option Z))
    (row col : Z) : Prop :=
  exists y u v,
    luma_plane W H bytes !! Z.to_nat (luma_index W row col) = Some y /\
    u_plane W H bytes !! Z.to_nat (chroma_index W row col) = Some u /\
    v_plane W H bytes !! Z.to_nat (chroma_index W row col) = Some v /\
    holds_pixel W out row col (Color.yuv420_to_rgb y u v).

(** The pixels before flat index [n] are painted, nothing went wrong
    so far, and the buffer kept its size. *)
Definition pass_inv (W H : Z) (bytes : list Z) (n : Z)
    (acc : list (option Z) * bool) : Prop :=
  acc.2 = true /\
  Z.of_nat (length acc.1) = W * H * 2 /\
  forall r c, 0 <= r -> 0 <= c < W -> r * W + c < n -> painted W H bytes acc.1 r c.

End Layout.

(** ** Start-up, shut-down and the callers of the driver *)

Module Lifecycle.
Import Driver Session.

(** [oled_init]; [dev_ok] says whether [DEV_ModuleInit] returns 0.  The
    initialisation and clearing of the panel itself are outside the
    driver state. *)
Definition oled_init (dev_ok : bool) (st : driver) : Z * driver :=
  if negb dev_ok then (-1, st)
  else
    let '(r, st) := init_display_buffers st in
    if negb (r =? 0) then (-1, st) else (0, st).

(** [oled_cleanup]; [unlink] leaves nothing at the pipe path. *)
Definition oled_cleanup (st : driver) : driver :=
  let st := if display_active st then stop_display st else st in
  if pipe_created st then set_pipe_created false (set_pipe_path None st) else st.

Definition SIGINT : Z := 2.

(** [signal_handler] of capture.c on the pair of [keep_running] and the
    driver. *)
Definition signal_handler (signum : Z) (keep_running : Z) (st : driver)
    : Z * driver :=
  if signum =? SIGINT
  then (0, if negb (is_display_active st =? 0) then stop_display st else st)
  else (keep_running, st).

(** [play_latest_video]; [current_yuv_file] is the string held by the
    global of that name. *)
Definition play_latest_video (current_yuv_file : list Z)
    (file_exists spawn_ok : bool) (st : driver) : driver :=
  if (0 <? length current_yuv_file)%nat
  then
    let st := if negb (is_display_active st =? 0) then stop_display st else st in
    snd (start_video_display file_exists spawn_ok st)
  else st.

(** A display buffer set to black. *)
Definition black : list (option Z) := replicate (Z.to_nat 32768) (Some 0).

(** [n] calls of [display_camera_frame] in a row on the same buffer. *)
Definition show_frames (n : nat) (frame_buffer : nat) (frame_size : Z)
    (st : driver) : driver :=
  Nat.iter n (display_camera_frame frame_buffer frame_size) st.

End Lifecycle.

(** ** What the workers keep *)

Module Safety.
Import Driver Session.

(** Each pool pointer is [NULL] or points to a live block, the two do
    not point to the same block, the buffer index is 0 or 1, a set
    flag comes with a created thread and a set [pipe_created] with a
    node at the pipe path. *)
Definition steady (st : driver) : Prop :=
  ((oled_buffers st).1 = NULL \/ is_Some (heap st !! (oled_buffers st).1)) /\
  ((oled_buffers st).2 = NULL \/ is_Some (heap st !! (oled_buffers st).2)) /\
  ((oled_buffers st).1 = NULL \/ (oled_buffers st).1 <> (oled_buffers st).2) /\
  (current_buffer st = 0 \/ current_buffer st = 1) /\
  (display_active st = true -> is_Some (display_thread st)) /\
  (pipe_created st = true -> is_Some (pipe_path st)).

(** What a worker keeps between two steps: the heap is well formed,
    the display buffers have their size, the fault flag is still [f0],
    the blocks below [B], those of the rest of the program, are as in
    [h0]; and, where the driver was steady when the worker started
    ([P]), it still is. *)
Definition guarded (P : Prop) (B : nat) (h0 : gmap nat block) (f0 : bool)
    (st : driver) : Prop :=
  wf st /\ buffer_size st = 32768 /\ fault st = f0 /\ (B <= brk st)%nat /\
  (P -> steady st) /\
  forall q, (q < B)%nat -> heap st !! q = h0 !! q.

(** [fb] is a live block of [frame_size] bytes of the worker's own,
    and no pool pointer points to it. *)
Definition holds (P : Prop) (B : nat) (fb : nat) (st : driver) : Prop :=
  (0 < fb)%nat /\ (B <= fb)%nat /\
  (P -> fb <> (oled_buffers st).1 /\ fb <> (oled_buffers st).2) /\
  exists blk, heap st !! fb = Some blk /\ length blk = Z.to_nat frame_size.

End Safety.

(** ** The driver as its callers see it *)

Module Api.
Import Driver Session Lifecycle Safety.

(** What can happen to the driver state: a call of one of the
    functions of the driver or of capture.c, a worker thread running
    from its start until it returns, blocks or is left running, and
    the three things the surroundings decide: how the coming
    allocations end, after how many reads of the flag a stop lands,
    and the mask of the process.  A [capture_video] that ends in the
    child with the process replaced leaves no driver behind; the state
    is then kept as it was. *)
Inductive call : Type :=
  | OledInit (dev_ok : bool)
  | InitDisplayBuffers
  | FreeDisplayBuffers
  | StartVideoDisplay (file_exists spawn_ok : bool)
  | StartRealtimeDisplay (mkfifo_ok spawn_ok : bool)
  | StopDisplay
  | OledCleanup
  | SignalHandler (signum : Z)
  | PlayLatestVideo (name : list Z) (file_exists spawn_ok : bool)
  | CaptureVideo (yuv h264 : open_result)
      (realtime chmod_ok mkfifo_ok spawn_ok : bool) (fork_pid : Z) (exec_ok : bool)
      (system_status : Z) (pipe : option (list chunk)) (seen extra : nat)
      (cap : bool)
  | RunFileWorker (fuel : nat) (file : option (list Z))
  | RunPipeWorker (fuel : nat) (pipe : option (list chunk))
  | Allocator (plan : list bool)
  | StopLands (after : nat)
  | Umask (mask : Z).

Definition step (c : call) (st : driver) : driver :=
  match c with
  | OledInit dev_ok => (oled_init dev_ok st).2
  | InitDisplayBuffers => (init_display_buffers st).2
  | FreeDisplayBuffers => free_display_buffers st
  | StartVideoDisplay file_exists spawn_ok =>
      (start_video_display file_exists spawn_ok st).2
  | StartRealtimeDisplay mkfifo_ok spawn_ok =>
      (start_realtime_display mkfifo_ok spawn_ok st).2
  | StopDisplay => stop_display st
  | OledCleanup => oled_cleanup st
  | SignalHandler signum => (signal_handler signum 1 st).2
  | PlayLatestVideo name file_exists spawn_ok =>
      play_latest_video name file_exists spawn_ok st
  | CaptureVideo yuv h264 realtime chmod_ok mkfifo_ok spawn_ok fork_pid exec_ok
      system_status pipe seen extra cap =>
      match capture_video yuv h264 realtime chmod_ok mkfifo_ok spawn_ok fork_pid
              exec_ok system_status pipe seen extra cap st with
      | Some res => res.2
      | None => st
      end
  | RunFileWorker fuel file => final (display_thread_func fuel file st)
  | RunPipeWorker fuel pipe => final (pipe_thread_func fuel pipe st)
  | Allocator plan => set_plan plan st
  | StopLands after => set_stop (Some after) st
  | Umask mask => set_umask mask st
  end.

(** One after the other, first call first. *)
Definition run (calls : list call) (st : driver) : driver :=
  fold_left (fun s c => step c s) calls st.

(** Nothing has gone wrong so far, and the driver is steady. *)
Definition sane (st : driver) : Prop :=
  wf st /\ buffer_size st = 32768 /\ fault st = false /\ steady st.

End Api.

(** ** Text handling (OLED_1in5_rgb_test.c)

    A [char] buffer is the list of its bytes; the C string it holds is
    what comes before the first 0. *)

Module Text.

Definition NUL : Z := 0.
Definition LF : Z := 10.
Definition CR : Z := 13.
Definition COMMA : Z := 44.

Definition BUFFER_SIZE : nat := 1024.
Definition MAX_CELL_SIZE : nat := 100.

(** The part of [l] before the first byte that satisfies [stop], and
    the part from that byte on. *)
Fixpoint upto (stop : Z -> bool) (l : list Z) : list Z :=
  match l with
  | [] => []
  | c :: rest => if stop c then [] else c :: upto stop rest
  end.

Fixpoint from (stop : Z -> bool) (l : list Z) : list Z :=
  match l with
  | [] => []
  | c :: rest => if stop c then l else from stop rest
  end.

Definition is_char (c x : Z) : bool := x =? c.

(** The C string in a buffer. *)
Definition cstr (buf : list Z) : list Z := upto (is_char NUL) buf.

(** What a scan of a string for a byte comes to: the offset of the
    byte, a null pointer, or a read past the end of a buffer that holds
    no terminator. *)
Inductive scan : Type :=
  | Found (i : nat)
  | NotFound
  | Overrun.

(** [strchr (str, c)]. *)
Fixpoint strchr (str : list Z) (c : Z) : scan :=
  match str with
  | [] => Overrun
  | x :: rest =>
      if x =? c then Found 0
      else if x =? NUL then NotFound
      else match strchr rest c with
           | Found i => Found (S i)
           | r => r
           end
  end.

(** [if ((pos = strchr (str, c)) != NULL) *pos = '\0';] *)
Definition cut (c : Z) (str : list Z) : option (list Z) :=
  match strchr str c with
  | Found i => Some (<[i := NUL]> str)
  | NotFound => Some str
  | Overrun => None
  end.

(** [strip_newline]; [None] when a scan leaves the buffer. *)
Definition strip_newline (str : list Z) : option (list Z) :=
  match cut LF str with
  | Some str => cut CR str
  | None => None
  end.

(** [fgets (line, size, file)] on what is left of the file: the bytes
    stored (at most [size - 1], ending with the first line feed met)
    and what is left after them; [None] at the end of the file. *)
Fixpoint read_line (k : nat) (s : list Z) : list Z * list Z :=
  match k, s with
  | O, _ => ([], s)
  | _, [] => ([], [])
  | S k', c :: rest =>
      if c =? LF then ([c], rest)
      else let '(l, r) := read_line k' rest in (c :: l, r)
  end.

Definition fgets (size : nat) (s : list Z) : option (list Z * list Z) :=
  match s with
  | [] => None
  | _ => Some (read_line (size - 1) s)
  end.

(** [strtok (.., ",")] on the string still to be scanned: the token, if
    there is one, and the string left for the next call. *)
Definition strtok (s : list Z) : option (list Z) * list Z :=
  match from (fun x => negb (is_char COMMA x)) s with
  | [] => (None, [])
  | s' => (Some (upto (is_char COMMA) s'), drop 1 (from (is_char COMMA) s'))
  end.

(** [strncpy (dest, src, n)] with [src] a string: [n] bytes are
    written, the string and then zeros. *)
Definition strncpy (dest src : list Z) (n : nat) : list Z :=
  take n (src ++ replicate n NUL) ++ drop n dest.

Record CSVData : Type := Csv {
  step_ID : list Z;
  routeState : list Z;
  street_name : list Z;
  distance : list Z;
  maneuverID : list Z;
  arrival_time : list Z;
  currentTemp : list Z;
  currentWeather : list Z;
  instructions : list Z
}.

(** An initialiser [char f[MAX_CELL_SIZE] = "..."]. *)
Definition cell_of (s : list Z) : list Z :=
  s ++ replicate (MAX_CELL_SIZE - length s) NUL.

(** ["N/A"] *)
Definition n_a : list Z := cell_of [78; 47; 65].

Definition last_valid_data0 : CSVData :=
  Csv n_a n_a n_a n_a n_a n_a n_a n_a n_a.

(** [token = strtok (..); if (token) strncpy (field, token,
    MAX_CELL_SIZE - 1);] *)
Definition next_cell (field : list Z) (s : list Z) : list Z * list Z :=
  match strtok s with
  | (Some token, s') => (strncpy field token (MAX_CELL_SIZE - 1), s')
  | (None, s') => (field, s')
  end.

(** [parse_csv]; [file] is what [fopen] finds ([None]: it fails),
    [last] the global [last_valid_data].  The result is the returned
    value, [*data] and [last_valid_data]. *)
Definition parse_csv (file : option (list Z)) (data last : CSVData)
    : Z * CSVData * CSVData :=
  match file with
  | None => (-1, data, last)
  | Some content =>
      match fgets BUFFER_SIZE content with
      | None => (0, last, last)
      | Some (_, rest) =>
          match fgets BUFFER_SIZE rest with
          | Some (line, _) =>
              let s := cstr line in
              let '(f1, s) := next_cell (step_ID data) s in
              let '(f2, s) := next_cell (routeState data) s in
              let '(f3, s) := next_cell (street_name data) s in
              let '(f4, s) := next_cell (distance data) s in
              let '(f5, s) := next_cell (maneuverID data) s in
              let '(f6, s) := next_cell (arrival_time data) s in
              let '(f7, s) := next_cell (currentTemp data) s in
              let '(f8, s) := next_cell (currentWeather data) s in
              let '(f9, s) := next_cell (instructions data) s in
              let data := Csv f1 f2 f3 f4 f5 f6 f7 f8 f9 in
              (0, data, data)
          | None => (0, last, last)
          end
      end
  end.

(** The nine fields in the order of the structure. *)
Definition cells (d : CSVData) : list (list Z) :=
  [step_ID d; routeState d; street_name d; distance d; maneuverID d;
   arrival_time d; currentTemp d; currentWeather d; instructions d].

(** A field of [MAX_CELL_SIZE] bytes whose last byte is 0. *)
Definition terminated (f : list Z) : Prop :=
  length f = MAX_CELL_SIZE /\ f !! (MAX_CELL_SIZE - 1)%nat = Some NUL.

(** The non-empty runs of bytes between the commas of a string, in
    order; [cur] is the run being read, latest byte first. *)
Fixpoint runs (s : list Z) (cur : list Z) : list (list Z) :=
  match s with
  | [] => match cur with [] => [] | _ => [rev cur] end
  | c :: rest =>
      if c =? COMMA
      then match cur with [] => runs rest [] | _ => rev cur :: runs rest [] end
      else runs rest (c :: cur)
  end.

(** Fields written one after the other with commas between them. *)
Fixpoint join (fields : list (list Z)) : list Z :=
  match fields with
  | [] => []
  | [f] => f
  | f :: rest => f ++ COMMA :: join rest
  end.

(** A column of a well-formed row: not empty, at most 98 bytes, none of
    them a comma, a line feed or 0. *)
Definition column (f : list Z) : Prop :=
  f <> [] /\ (length f <= 98)%nat /\
  Forall (fun x => x <> COMMA /\ x <> LF /\ x <> NUL) f.

End Text.

(** ** The direction pictures (OLED_1in5_rgb_test.c) *)

Module Picture.
Import String.
Local Open Scope string_scope.

(** [strcat (dest, src)] where [dest] is an array of [size] bytes that
    holds the string [held]: the string it holds afterwards, or [None]
    when that string and its terminator do not fit. *)
Definition strcat (size : nat) (held src : String.string) : option String.string :=
  if (String.length held + String.length src + 1 <=? size)%nat
  then Some (String.append held src)
  else None.

(** What a call of [displayImage] comes to: [GUI_ReadBmp (path, x, y)],
    nothing, or a write past the end of [filepath]. *)
Inductive shown : Type :=
  | Image (path : String.string) (x y : Z)
  | NoImage
  | Overflow.

Definition draw (name : String.string) (x y : Z) : shown :=
  match strcat 50 "./pic/" name with
  | Some filepath => Image filepath x y
  | None => Overflow
  end.

Definition displayImage (input : String.string) : shown :=
  if String.eqb input "0" then draw "Left_arrow_0_2.0.bmp" 25 50
  else if String.eqb input "1" then draw "Right_arrow_1.bmp" 15 50
  else if String.eqb input "2" then draw "Straight_arrow_2.bmp" 40 50
  else if String.eqb input "3" then draw "U_turn_3.bmp" 20 50
  else if String.eqb input "4" then draw "Roundabout_4.bmp" 30 50
  else if String.eqb input "5" then draw "Destination_5.bmp" 40 50
  else if String.eqb input "6" then draw "Merge_6.bmp" 40 50
  else if String.eqb input "-1" then draw "Question_-1.bmp" 30 55
  else NoImage.

(** The codes that have a picture. *)
Definition codes : list String.string :=
  ["0"; "1"; "2"; "3"; "4"; "5"; "6"; "-1"].

End Picture.

(** ** File names (capture.c) *)

Module Names.
Import Text String.StringSyntax.
Local Open Scope string_scope.

Definition MAX_FILENAME_LENGTH : nat := 256.

(** The bytes of a string literal. *)
Definition chars (s : String.string) : list Z :=
  map (fun a => Z.of_nat (Ascii.nat_of_ascii a)) (String.list_ascii_of_string s).

Definition DIR_OUTPUT : list Z := chars "captured_videos".

(** The fields of [struct tm] that are read. *)
Record tm : Type := Tm {
  tm_sec : Z;
  tm_min : Z;
  tm_hour : Z;
  tm_mday : Z;
  tm_mon : Z;
  tm_year : Z
}.

(** What [time] and [localtime] come to. *)
Inductive clock : Type :=
  | TimeFailed
  | LocaltimeFailed
  | Now (t : tm).

(** The decimal digits of [n >= 0], the first one first; a number
    below [2 ^ k] has at most [k] of them. *)
Fixpoint digits_from (fuel : nat) (n : Z) (acc : list Z) : list Z :=
  match fuel with
  | O => acc
  | S fuel' =>
      let acc := (48 + n mod 10) :: acc in
      if n <? 10 then acc else digits_from fuel' (n / 10) acc
  end.

Definition digits (n : Z) : list Z :=
  digits_from (S (Z.to_nat (Z.log2 n))) n [].

(** The conversion [%0wd]: the sign, then zeros up to the width, then
    the digits. *)
Definition fmt_0d (w : nat) (n : Z) : list Z :=
  if n <? 0
  then 45 :: replicate (w - 1 - length (digits (- n))) 48 ++ digits (- n)
  else replicate (w - length (digits n)) 48 ++ digits n.

(** [snprintf (buffer, size, ...)] with the text the format comes to:
    at most [size - 1] bytes of it and a terminator are written. *)
Definition snprintf (buffer : list Z) (size : nat) (text : list Z) : list Z :=
  match size with
  | O => buffer
  | S k =>
      let out := take k text ++ [NUL] in
      out ++ drop (length out) buffer
  end.

(** ["%s/video_%02d%02d%04d_%02d%02d%02d.%s"] on the arguments of
    [filename_gen]; the two sums are those of the integers, as they
    are in [int] on the fields of a broken-down time. *)
Definition name_text (format : list Z) (t : tm) : list Z :=
  DIR_OUTPUT ++ chars "/video_" ++
  fmt_0d 2 (tm_mon t + 1) ++ fmt_0d 2 (tm_mday t) ++ fmt_0d 4 (tm_year t + 1900) ++
  chars "_" ++
  fmt_0d 2 (tm_hour t) ++ fmt_0d 2 (tm_min t) ++ fmt_0d 2 (tm_sec t) ++
  chars "." ++ cstr format.

(** [filename_gen (buffer, size, format)]: the buffer afterwards;
    [None] stands for a null [buffer]. *)
Definition filename_gen (buffer : option (list Z)) (size : nat) (format : list Z)
    (c : clock) : option (list Z) :=
  match buffer with
  | None => None
  | Some buf =>
      if (size <? 1)%nat then Some buf
      else match c with
           | Now t => Some (snprintf buf size (name_text format t))
           | _ => Some buf
           end
  end.

(** [main_two] keeps the name for the playback:
    [strncpy (current_yuv_file, yuv_filename, MAX_FILENAME_LENGTH - 1)]
    and a terminator in the last byte. *)
Definition keep_name (current_yuv_file yuv_filename : list Z) : list Z :=
  <[(MAX_FILENAME_LENGTH - 1)%nat := NUL]>
    (strncpy current_yuv_file (cstr yuv_filename) (MAX_FILENAME_LENGTH - 1)).

(** For the statements: the number that a run of decimal digits
    stands for. *)
Definition number (l : list Z) : Z := fold_left (fun a c => 10 * a + (c - 48)) l 0.

(** For the statements: a broken-down time as [localtime] gives it,
    in a year of four digits at most. *)
Definition valid (t : tm) : Prop :=
  0 <= tm_sec t <= 60 /\ 0 <= tm_min t <= 59 /\ 0 <= tm_hour t <= 23 /\
  1 <= tm_mday t <= 31 /\ 0 <= tm_mon t <= 11 /\ 0 <= tm_year t + 1900 <= 9999.

End Names.

(** * Properties *)

Module ColorFacts.
Import Color.

Lemma clamp_cond_clamp8 t : clamp_cond t = clamp8 t.
Proof.
  unfold clamp_cond, clamp8.
  destruct (Z.ltb_spec t 0); [lia|].
  destruct (Z.gtb_spec t 255); lia.
Qed.

Lemma clamp8_byte t : is_byte (clamp8 t).
Proof. unfold is_byte, clamp8. lia. Qed.

Lemma to_uint8_byte x : is_byte x -> to_uint8 x = x.
Proof. unfold is_byte, to_uint8. intros H. apply Z.mod_small. lia. Qed.

Lemma to_uint8_range x : is_byte (to_uint8 x).
Proof.
  unfold is_byte, to_uint8.
  pose proof (Z.mod_pos_bound x 256 eq_refl). lia.
Qed.

Lemma channel_eq t : to_uint8 (clamp_cond t) = clamp8 t.
Proof. rewrite clamp_cond_clamp8. apply to_uint8_byte, clamp8_byte. Qed.

Lemma yuv420_to_rgb_spec y u v : yuv420_to_rgb y u v = convert_spec y u v.
Proof. unfold yuv420_to_rgb, convert_spec. cbv zeta. by rewrite !channel_eq. Qed.

(** No intermediate [int] leaves the range of a 32-bit [int] when the
    arguments are bytes, so the signed arithmetic of the source is
    the arithmetic of [Z]. *)
Lemma yuv_no_overflow y u v :
  is_byte y -> is_byte u -> is_byte v ->
  Forall in_int (yuv_intermediates y u v).
Proof.
  unfold is_byte, yuv_intermediates, in_int, INT_MIN, INT_MAX. intros Hy Hu Hv.
  cbv zeta. repeat (apply Forall_cons; split; [lia|]). apply Forall_nil_2.
Qed.

(** C1: on bytes [(y,u,v)], [yuv420_to_rgb] yields three bytes, equal to
    the saturated fixed-point transform of the design document (so
    the result is a function of the input alone); white and black
    come out as [(255,255,255)] and [(0,0,0)]. *)
Theorem yuv420_to_rgb_correct (y u v : Z) :
  is_byte y -> is_byte u -> is_byte v ->
  (let '(r, g, b) := yuv420_to_rgb y u v in
   is_byte r /\ is_byte g /\ is_byte b) /\
  yuv420_to_rgb y u v = convert_spec y u v /\
  Forall in_int (yuv_intermediates y u v) /\
  yuv420_to_rgb 235 128 128 = (255, 255, 255) /\
  yuv420_to_rgb 16 128 128 = (0, 0, 0).
Proof.
  intros Hy Hu Hv. split; [|split; [|split; [|split]]].
  - unfold yuv420_to_rgb. cbv zeta. auto using to_uint8_range.
  - apply yuv420_to_rgb_spec.
  - by apply yuv_no_overflow.
  - reflexivity.
  - reflexivity.
Qed.

Lemma yuv420_to_rgb_correct_witness :
  (let '(r, g, b) := yuv420_to_rgb 81 90 240 in
   is_byte r /\ is_byte g /\ is_byte b) /\
  yuv420_to_rgb 81 90 240 = convert_spec 81 90 240 /\
  Forall in_int (yuv_intermediates 81 90 240) /\
  yuv420_to_rgb 235 128 128 = (255, 255, 255) /\
  yuv420_to_rgb 16 128 128 = (0, 0, 0).
Proof. apply (yuv420_to_rgb_correct 81 90 240); unfold is_byte; lia. Defined.

End ColorFacts.

Module PassFacts.
Import Color Driver Layout ColorFacts.

Lemma for_up_ind {T : Type} (P : Z -> T -> Prop) (body : Z -> T -> T) n i s :
  P i s ->
  (forall j t, i <= j < i + Z.of_nat n -> P j t -> P (j + 1) (body j t)) ->
  P (i + Z.of_nat n) (for_up n i body s).
Proof.
  revert i s. induction n as [|n IH]; intros i s H0 Hstep.
  - simpl. by rewrite Z.add_0_r.
  - cbn [for_up]. replace (i + Z.of_nat (S n)) with ((i + 1) + Z.of_nat n) by lia.
    apply IH.
    + apply Hstep; [lia | done].
    + intros j t Hj. apply Hstep. lia.
Qed.

Lemma for_range_ind {T : Type} (P : Z -> T -> Prop) (body : Z -> T -> T) lo hi s :
  lo <= hi ->
  P lo s ->
  (forall j t, lo <= j < hi -> P j t -> P (j + 1) (body j t)) ->
  P hi (for_range lo hi body s).
Proof.
  intros Hle H0 Hstep. unfold for_range.
  replace hi with (lo + Z.of_nat (Z.to_nat (hi - lo))) at 1 by lia.
  apply for_up_ind; [done|]. intros j t Hj. apply Hstep. lia.
Qed.

Lemma load_Some_fmap (bytes : list Z) i :
  0 <= i -> load (Some <$> bytes) i = bytes !! Z.to_nat i.
Proof.
  intros Hi. unfold load. destruct (Z.ltb_spec i 0); [lia|].
  rewrite list_lookup_fmap. by destruct (bytes !! Z.to_nat i).
Qed.

Lemma store_Some (b : block) i v :
  0 <= i < Z.of_nat (length b) ->
  store b i v = Some (<[Z.to_nat i := Some v]> b).
Proof.
  intros Hi. unfold store.
  destruct (Z.leb_spec 0 i); [|lia]. destruct (Z.ltb_spec i (Z.of_nat (length b))); [|lia].
  done.
Qed.


Lemma lor_lt_pow2 a b n :
  0 <= a < 2 ^ n -> 0 <= b < 2 ^ n -> 0 <= Z.lor a b < 2 ^ n.
Proof.
  intros Ha Hb. split; [apply Z.lor_nonneg; lia|].
  destruct (Z.eq_dec (Z.lor a b) 0) as [->|Hne]; [lia|].
  assert (0 <= Z.lor a b) by (apply Z.lor_nonneg; lia).
  assert (0 <= n) by (destruct (Z.le_gt_cases 0 n); [done|]; rewrite Z.pow_neg_r in Ha; lia).
  apply Z.log2_lt_pow2; [lia|].
  rewrite Z.log2_lor by lia.
  destruct (Z.eq_dec a 0) as [->|]; destruct (Z.eq_dec b 0) as [->|];
    rewrite ?Z.lor_0_l, ?Z.lor_0_r in *; try lia.
  - change (Z.log2 0) with 0. rewrite Z.max_r by apply Z.log2_nonneg.
    apply Z.log2_lt_pow2; lia.
  - change (Z.log2 0) with 0. rewrite Z.max_l by apply Z.log2_nonneg.
    apply Z.log2_lt_pow2; lia.
  - apply Z.max_lub_lt; apply Z.log2_lt_pow2; lia.
Qed.

Lemma land_lt_pow2 a b n :
  0 <= a -> 0 <= b < 2 ^ n -> 0 <= Z.land a b < 2 ^ n.
Proof.
  intros Ha Hb. split; [apply Z.land_nonneg; lia|].
  assert (0 <= Z.land a b) by (apply Z.land_nonneg; lia).
  destruct (Z.eq_dec (Z.land a b) 0) as [->|Hne]; [lia|].
  destruct (Z.eq_dec b 0) as [->|]; [rewrite Z.land_0_r in Hne; lia|].
  apply Z.log2_lt_pow2; [lia|].
  pose proof (Z.log2_land a b Ha (proj1 Hb)).
  assert (Z.log2 b < n) by (apply Z.log2_lt_pow2; lia). lia.
Qed.

Lemma rgb565_range r g b :
  is_byte r -> is_byte g -> is_byte b -> 0 <= rgb565 r g b < 65536.
Proof.
  unfold is_byte, rgb565. intros Hr Hg Hb.
  pose proof (land_lt_pow2 r 248 8 (proj1 Hr) ltac:(lia)) as H1.
  pose proof (land_lt_pow2 g 252 8 (proj1 Hg) ltac:(lia)) as H2.
  change (2 ^ 8) with 256 in H1, H2.
  rewrite !Z.shiftl_mul_pow2, Z.shiftr_div_pow2 by lia.
  change (2 ^ 8) with 256; change (2 ^ 3) with 8.
  change 65536 with (2 ^ 16).
  apply lor_lt_pow2; [apply lor_lt_pow2|]; change (2 ^ 16) with 65536; try lia.
  split; [apply Z.div_pos; lia|]. apply Z.div_lt_upper_bound; lia.
Qed.

Lemma pack565_rgb565 r g b :
  is_byte r -> is_byte g -> is_byte b -> pack565 r g b = rgb565 r g b.
Proof.
  intros Hr Hg Hb. unfold pack565, to_uint16. fold (rgb565 r g b).
  apply Z.mod_small. by apply rgb565_range.
Qed.

(** The two bytes the loop body stores are the high and the low byte
    of the packed pixel. *)
Lemma high_byte c :
  0 <= c < 65536 -> to_uint8 (Z.land (Z.shiftr c 8) 255) = c / 256.
Proof.
  intros Hc. unfold to_uint8. change 255 with (Z.ones 8).
  rewrite Z.land_ones, Z.shiftr_div_pow2 by lia. change (2 ^ 8) with 256.
  rewrite Z.mod_mod by lia. apply Z.mod_small.
  split; [apply Z.div_pos; lia|]. apply Z.div_lt_upper_bound; lia.
Qed.

Lemma low_byte c : to_uint8 (Z.land c 255) = c mod 256.
Proof.
  unfold to_uint8. change 255 with (Z.ones 8).
  rewrite Z.land_ones by lia. change (2 ^ 8) with 256. apply Z.mod_mod. lia.
Qed.

Lemma yuv420_to_rgb_bytes y u v :
  let '(r, g, b) := yuv420_to_rgb y u v in is_byte r /\ is_byte g /\ is_byte b.
Proof. unfold yuv420_to_rgb. cbv zeta. auto using to_uint8_range. Qed.


Section Pass.
Variables W H w h : Z.
Hypothesis HW : W = 2 * w.
Hypothesis HH : H = 2 * h.
Hypothesis Hw : 0 < w.
Hypothesis Hh : 0 < h.
Hypothesis Hfit : W * H * 2 <= 65536.
Variable bytes : list Z.
Hypothesis Hlen : Z.of_nat (length bytes) = W * H * 3 / 2.

Local Abbreviation pass_inv := (Layout.pass_inv W H bytes).

Lemma area_eq : W * H = 4 * (w * h).
Proof. subst W H. ring. Qed.

Lemma quarter_eq : W * H / 4 = w * h.
Proof. rewrite area_eq, Z.mul_comm, Z.div_mul; lia. Qed.

Lemma frame_len_eq : Z.of_nat (length bytes) = 6 * (w * h).
Proof.
  rewrite Hlen, area_eq.
  replace (4 * (w * h) * 3) with (6 * (w * h) * 2) by ring.
  apply Z.div_mul. lia.
Qed.

Lemma wh_pos : 0 < w * h.
Proof. by apply Z.mul_pos_pos. Qed.

Lemma luma_bounds row col :
  0 <= row < H -> 0 <= col < W -> 0 <= row * W + col < W * H.
Proof.
  intros Hr Hc. split; [nia|].
  assert (row * W <= (H - 1) * W) by (apply Z.mul_le_mono_nonneg_r; lia).
  lia.
Qed.

Lemma chroma_bounds row col :
  0 <= row < H -> 0 <= col < W -> 0 <= chroma_index W row col < w * h.
Proof.
  intros Hr Hc. unfold chroma_index.
  assert (W / 2 = w) as -> by (subst W; rewrite Z.mul_comm; apply Z.div_mul; lia).
  assert (0 <= row / 2 < h) by (split; [apply Z.div_pos; lia | apply Z.div_lt_upper_bound; lia]).
  assert (0 <= col / 2 < w) by (split; [apply Z.div_pos; lia | apply Z.div_lt_upper_bound; lia]).
  split; [nia|].
  assert (row / 2 * w <= (h - 1) * w) by (apply Z.mul_le_mono_nonneg_r; lia).
  lia.
Qed.

Lemma flat_inj r c row col :
  0 <= c < W -> 0 <= col < W -> r * W + c = row * W + col -> r = row /\ c = col.
Proof.
  intros Hc Hcol Heq.
  assert (r = row).
  { assert (r = (r * W + c) / W) as -> by (rewrite Z.div_add_l, Z.div_small; lia).
    rewrite Heq. rewrite Z.div_add_l, Z.div_small; lia. }
  subst r. lia.
Qed.

Lemma samples row col :
  0 <= row < H -> 0 <= col < W ->
  exists y u v,
    bytes !! Z.to_nat (row * W + col) = Some y /\
    bytes !! Z.to_nat (W * H + chroma_index W row col) = Some u /\
    bytes !! Z.to_nat (W * H + W * H / 4 + chroma_index W row col) = Some v.
Proof.
  intros Hr Hc.
  pose proof (luma_bounds row col Hr Hc). pose proof (chroma_bounds row col Hr Hc).
  pose proof frame_len_eq. pose proof area_eq. pose proof quarter_eq. pose proof wh_pos.
  destruct (lookup_lt_is_Some_2 bytes (Z.to_nat (row * W + col))) as [y Hy]; [lia|].
  destruct (lookup_lt_is_Some_2 bytes (Z.to_nat (W * H + chroma_index W row col)))
    as [u Hu]; [lia|].
  destruct (lookup_lt_is_Some_2 bytes (Z.to_nat (W * H + W * H / 4 + chroma_index W row col)))
    as [v Hv]; [lia|].
  eauto 10.
Qed.


Lemma fetch_byte i y ok :
  0 <= i -> bytes !! Z.to_nat i = Some y -> fetch (Some <$> bytes) i ok = (y, ok).
Proof. intros Hi Hy. unfold fetch. by rewrite load_Some_fmap, Hy. Qed.

Lemma put_in_range (out : list (option Z)) i v ok :
  0 <= i < Z.of_nat (length out) ->
  put i v (out, ok) = (<[Z.to_nat i := Some v]> out, ok).
Proof. intros Hi. unfold put. cbn [fst snd]. by rewrite store_Some. Qed.

Lemma paint_pixel_eq (out : list (option Z)) row col y u v :
  0 <= row < H -> 0 <= col < W ->
  Z.of_nat (length out) = W * H * 2 ->
  bytes !! Z.to_nat (row * W + col) = Some y ->
  bytes !! Z.to_nat (W * H + chroma_index W row col) = Some u ->
  bytes !! Z.to_nat (W * H + W * H / 4 + chroma_index W row col) = Some v ->
  paint_pixel W H (Some <$> bytes) row col (out, true) =
    (<[Z.to_nat ((row * W + col) * 2 + 1) :=
         Some (rgb565 (yuv420_to_rgb y u v).1.1 (yuv420_to_rgb y u v).1.2
                      (yuv420_to_rgb y u v).2 mod 256)]>
       (<[Z.to_nat ((row * W + col) * 2) :=
            Some (rgb565 (yuv420_to_rgb y u v).1.1 (yuv420_to_rgb y u v).1.2
                         (yuv420_to_rgb y u v).2 / 256)]> out), true).
Proof.
  intros Hr Hc Hout Hy Hu Hv.
  pose proof (luma_bounds row col Hr Hc) as Hl.
  pose proof (chroma_bounds row col Hr Hc) as Hch.
  pose proof area_eq as Ha. pose proof quarter_eq as Hq. pose proof wh_pos as Hp.
  unfold paint_pixel. cbv zeta.
  rewrite !Z.quot_div_nonneg by lia. fold (chroma_index W row col).
  rewrite !Z.add_0_l. cbn [fst snd].
  rewrite (fetch_byte _ y) by (done || lia).
  rewrite (fetch_byte _ u) by (done || lia).
  rewrite (fetch_byte _ v) by (done || lia).
  pose proof (yuv420_to_rgb_bytes y u v) as Hb.
  destruct (yuv420_to_rgb y u v) as [[r g] b]. destruct Hb as (Hr' & Hg' & Hb').
  cbn [fst snd].
  assert (to_uint16 ((row * W + col) * 2) = (row * W + col) * 2) as ->
    by (unfold to_uint16; apply Z.mod_small; lia).
  rewrite pack565_rgb565 by done.
  rewrite high_byte, low_byte by (by apply rgb565_range).
  rewrite put_in_range by lia.
  rewrite put_in_range by (rewrite length_insert; lia).
  done.
Qed.

Lemma planes_lookup row col :
  0 <= row < H -> 0 <= col < W ->
  luma_plane W H bytes !! Z.to_nat (luma_index W row col)
    = bytes !! Z.to_nat (row * W + col) /\
  u_plane W H bytes !! Z.to_nat (chroma_index W row col)
    = bytes !! Z.to_nat (W * H + chroma_index W row col) /\
  v_plane W H bytes !! Z.to_nat (chroma_index W row col)
    = bytes !! Z.to_nat (W * H + W * H / 4 + chroma_index W row col).
Proof.
  intros Hr Hc.
  pose proof (luma_bounds row col Hr Hc) as Hl.
  pose proof (chroma_bounds row col Hr Hc) as Hch.
  pose proof area_eq as Ha. pose proof quarter_eq as Hq. pose proof wh_pos as Hp.
  unfold luma_plane, u_plane, v_plane, luma_index.
  rewrite !lookup_take, !lookup_drop.
  repeat case_decide; try lia.
  repeat split; f_equal; lia.
Qed.


Lemma pass_inv_step row col acc :
  0 <= row < H -> 0 <= col < W ->
  pass_inv (row * W + col) acc ->
  pass_inv (row * W + col + 1) (paint_pixel W H (Some <$> bytes) row col acc).
Proof.
  intros Hr Hc (Hok & Hsize & Hdone). destruct acc as [out ok]. cbn [fst snd] in *.
  subst ok.
  destruct (samples row col Hr Hc) as (y & u & v & Hy & Hu & Hv).
  rewrite (paint_pixel_eq out row col y u v) by done.
  pose proof (luma_bounds row col Hr Hc) as Hl.
  split; [done|]. cbn [fst snd]. split; [by rewrite !length_insert|].
  intros r c Hr0 Hc0 Hlt.
  destruct (Z.eq_dec (r * W + c) (row * W + col)) as [Heq|Hne].
  - apply flat_inj in Heq as [-> ->]; [|done..].
    destruct (planes_lookup row col Hr Hc) as (E1 & E2 & E3).
    exists y, u, v. rewrite E1, E2, E3. repeat (split; [done|]).
    destruct (yuv420_to_rgb y u v) as [[r g] b]. cbn [fst snd]. split.
    + rewrite list_lookup_insert_ne by lia.
      apply list_lookup_insert_eq. lia.
    + apply list_lookup_insert_eq. rewrite length_insert. lia.
  - destruct (Hdone r c Hr0 Hc0 ltac:(lia)) as (y' & u' & v' & E1 & E2 & E3 & Hpix).
    exists y', u', v'. repeat (split; [done|]).
    unfold holds_pixel in *. destruct (yuv420_to_rgb y' u' v') as [[r' g'] b'].
    assert (0 <= r * W + c) by nia.
    rewrite !list_lookup_insert_ne by lia. done.
Qed.

Lemma convert_frame_inv (out : list (option Z)) :
  Z.of_nat (length out) = W * H * 2 ->
  pass_inv (H * W) (convert_frame W H (Some <$> bytes) out).
Proof.
  intros Hout. unfold convert_frame.
  apply (for_range_ind (fun row acc => pass_inv (row * W) acc)); [lia| |].
  - split; [done|]. split; [done|]. intros r c Hr0 Hc0 Hlt. nia.
  - intros row acc Hrow Hinv.
    replace ((row + 1) * W) with (row * W + W) by ring.
    apply (for_range_ind (fun col acc => pass_inv (row * W + col) acc)); [lia| |].
    + by rewrite Z.add_0_r.
    + intros col acc' Hcol Hinv'. rewrite Z.add_assoc.
      by apply pass_inv_step.
Qed.

Lemma convert_frame_painted (out : list (option Z)) :
  Z.of_nat (length out) = W * H * 2 ->
  exists out',
    convert_frame W H (Some <$> bytes) out = (out', true) /\
    length out' = length out /\
    forall row col, 0 <= row < H -> 0 <= col < W -> painted W H bytes out' row col.
Proof.
  intros Hout. destruct (convert_frame_inv out Hout) as (Hok & Hsize & Hall).
  destruct (convert_frame W H (Some <$> bytes) out) as [out' ok]. cbn [fst snd] in *.
  subst ok. exists out'. split; [done|]. split; [lia|].
  intros row col Hr Hc. apply Hall; [lia..|].
  pose proof (luma_bounds row col Hr Hc). lia.
Qed.
End Pass.

Ltac simpl_st :=
  cbn [display_active pipe_created display_thread joined oled_buffers
       current_buffer buffer_size heap brk pipe_path malloc_plan stop_after
       presented requests fault umask
       set_active set_pipe_created set_thread set_buffers set_current
       set_buffer_size set_heap set_brk set_pipe_path set_plan set_stop
       push_presented push_request set_fault set_umask fst snd] in *.


Lemma wf_boot : wf boot.
Proof. split; [cbn; lia|]. intros p _. apply lookup_empty. Qed.

Lemma malloc_cases n st :
  (malloc n st).1 = NULL /\
    (exists plan, malloc_plan st = false :: plan /\ (malloc n st).2 = set_plan plan st)
  \/
  (malloc n st).1 = brk st /\
    (malloc n st).2 =
      set_brk (S (brk st))
        (set_heap (<[brk st := replicate (Z.to_nat n) None]> (heap st))
           (set_plan (tail (malloc_plan st)) st)) /\
    head (malloc_plan st) <> Some false.
Proof.
  unfold malloc. destruct (malloc_plan st) as [|[] plan] eqn:E; simpl_st.
  - right. split; [done|]. split; [|done]. destruct st; simpl_st. by subst.
  - right. by split.
  - left. split; [done|]. by exists plan.
Qed.

Lemma display_camera_frame_frame fb fs st :
  let st' := display_camera_frame fb fs st in
  display_active st' = display_active st /\
  pipe_created st' = pipe_created st /\
  display_thread st' = display_thread st /\
  joined st' = joined st /\
  stop_after st' = stop_after st /\
  pipe_path st' = pipe_path st /\
  buffer_size st' = buffer_size st /\
  requests st' = (heap st !! fb, fs) :: requests st /\
  (brk st <= brk st')%nat.
Proof.
  unfold display_camera_frame.
  destruct (malloc_cases (buffer_size (push_request (heap st !! fb, fs) st))
              (push_request (heap st !! fb, fs) st)) as [(E1 & plan & Ep & E2)|(E1 & E2 & _)];
    destruct (malloc _ _) as [p0 st0]; cbn [fst snd] in E1, E2; subst p0 st0.
  - rewrite decide_True by done. simpl_st. repeat split; lia.
  - set (st1 := set_buffers _ _).
    destruct (malloc_cases (buffer_size st1) st1) as [(F1 & plan & Fp & F2)|(F1 & F2 & _)];
    destruct (malloc (buffer_size st1) st1) as [p1 st2]; cbn [fst snd] in F1, F2; subst p1 st2;
    subst st1; simpl_st; repeat case_decide; repeat case_match; simpl_st;
      repeat split; try done; try lia.
Qed.
End PassFacts.

Module PoolFacts.
Import Color Driver Layout ColorFacts PassFacts.

Lemma driver_eq (a b : driver) :
  display_active a = display_active b -> pipe_created a = pipe_created b ->
  display_thread a = display_thread b -> joined a = joined b ->
  oled_buffers a = oled_buffers b -> current_buffer a = current_buffer b ->
  buffer_size a = buffer_size b -> heap a = heap b -> brk a = brk b ->
  pipe_path a = pipe_path b -> malloc_plan a = malloc_plan b ->
  stop_after a = stop_after b -> presented a = presented b ->
  requests a = requests b -> fault a = fault b -> umask a = umask b -> a = b.
Proof. destruct a, b; simpl_st; intros; by subst. Qed.

Ltac driver_eq := apply driver_eq; simpl_st; try done.

Lemma sel_cases {A : Type} (pr : A * A) i : sel pr i = pr.1 \/ sel pr i = pr.2.
Proof. unfold sel. destruct (i =? 0); auto. Qed.

Lemma threshold_eq : OLED_WIDTH * OLED_HEIGHT * 3 ÷ 2 = 24576.
Proof. reflexivity. Qed.

(** [display_camera_frame] when both allocations are granted and the
    frame is acceptable. *)
Lemma display_camera_frame_granted (st : driver) (fb : nat) (fs : Z) (frame : block) :
  malloc_plan st = [] ->
  (0 < fb < brk st)%nat ->
  24576 <= fs ->
  heap st !! fb = Some frame ->
  display_camera_frame fb fs st =
    let p0 := brk st in
    let p1 := S (brk st) in
    let fresh := replicate (Z.to_nat (buffer_size st)) None in
    let cur := sel (p0, p1) (current_buffer st) in
    let res := convert_frame OLED_WIDTH OLED_HEIGHT frame fresh in
    Driver (display_active st) (pipe_created st) (display_thread st) (joined st)
      (p0, p1) (1 - current_buffer st) (buffer_size st)
      (<[cur := res.1]> (<[p1 := fresh]> (<[p0 := fresh]> (heap st))))
      (S (S (brk st))) (pipe_path st) [] (stop_after st)
      (res.1 :: presented st) ((Some frame, fs) :: requests st)
      (if res.2 then fault st else true) (umask st).
Proof.
  intros Hplan Hptr Hfs Hfb.
  unfold display_camera_frame, malloc. simpl_st. rewrite Hplan. simpl_st.
  rewrite decide_False by (unfold NULL; lia). rewrite Hplan. simpl_st.
  rewrite decide_False by (unfold NULL; lia).
  rewrite !bool_decide_eq_false_2 by (unfold NULL; lia).
  rewrite threshold_eq. destruct (Z.ltb_spec fs 24576); [lia|]. cbn [orb].
  rewrite !lookup_insert_ne by lia. rewrite Hfb.
  assert (<[S (brk st):=replicate (Z.to_nat (buffer_size st)) None]>
            (<[brk st:=replicate (Z.to_nat (buffer_size st)) None]> (heap st))
          !! sel (brk st, S (brk st)) (current_buffer st)
          = Some (replicate (Z.to_nat (buffer_size st)) None)) as ->.
  { unfold sel. destruct (current_buffer st =? 0); cbn [fst snd].
    - rewrite lookup_insert_ne by lia. apply lookup_insert_eq.
    - apply lookup_insert_eq. }
  cbv zeta.
  destruct (convert_frame _ _ _ _) as [out' ok]. cbn [fst snd].
  destruct ok; driver_eq.
Qed.

(** C2: when [display_camera_frame] runs its conversion pass over a
    full frame of [128*128*3/2] bytes, the buffer it hands to the display
    has [128*128*2] bytes and every pixel [(row, col)] holds, high byte
    first at offset [(row*128+col)*2], the RGB565 packing of the
    conversion of the luma sample at [row*128+col] and of the two chroma
    samples at [(row/2)*(128/2)+col/2] of their planes; no read or write
    leaves a block. *)
Theorem display_camera_frame_paints (st : driver) (fb : nat) (bytes : list Z) :
  heap st !! fb = Some (Some <$> bytes) ->
  Z.of_nat (length bytes) = 24576 ->
  (0 < fb < brk st)%nat ->
  malloc_plan st = [] ->
  buffer_size st = 32768 ->
  exists out',
    presented (display_camera_frame fb 24576 st) = out' :: presented st /\
    Z.of_nat (length out') = 32768 /\
    fault (display_camera_frame fb 24576 st) = fault st /\
    forall row col, 0 <= row < 128 -> 0 <= col < 128 ->
      painted 128 128 bytes out' row col.
Proof.
  intros Hfb Hlen Hptr Hplan Hsize.
  rewrite (display_camera_frame_granted st fb 24576 _ Hplan Hptr ltac:(lia) Hfb).
  cbv zeta. rewrite Hsize.
  destruct (convert_frame_painted 128 128 64 64 eq_refl eq_refl eq_refl eq_refl
              ltac:(lia) bytes Hlen (replicate (Z.to_nat 32768) None))
    as (out' & Hrun & Hlen' & Hpix).
  { rewrite length_replicate. lia. }
  change OLED_WIDTH with 128. change OLED_HEIGHT with 128.
  rewrite Hrun. simpl_st. exists out'. split; [done|]. split.
  { rewrite Hlen', length_replicate. lia. }
  split; [done|]. exact Hpix.
Qed.

Lemma malloc_granted n st :
  malloc_plan st = [] ->
  malloc n st =
    (brk st,
     set_brk (S (brk st))
       (set_heap (<[brk st := replicate (Z.to_nat n) None]> (heap st)) st)).
Proof. intros Hplan. unfold malloc. by rewrite Hplan. Qed.

Lemma hold_frame_granted (bytes : list Z) st :
  malloc_plan st = [] ->
  (0 < brk st)%nat ->
  hold_frame bytes st =
    (brk st,
     Driver (display_active st) (pipe_created st) (display_thread st) (joined st)
       (oled_buffers st) (current_buffer st) (buffer_size st)
       (<[brk st := Some <$> bytes]> (heap st))
       (S (brk st)) (pipe_path st) [] (stop_after st)
       (presented st) (requests st) (fault st) (umask st)).
Proof.
  intros Hplan Hbrk. unfold hold_frame. rewrite malloc_granted by done.
  rewrite decide_False by (unfold NULL; lia).
  f_equal. driver_eq. by rewrite insert_insert_eq.
Qed.

Lemma memset_fresh p n (st : driver) :
  0 <= n ->
  heap st !! p = Some (replicate (Z.to_nat n) None) ->
  memset p 0 n st =
    set_heap (<[p := replicate (Z.to_nat n) (Some 0)]> (heap st)) st.
Proof.
  intros Hn Hp. unfold memset. rewrite Hp, length_replicate, Nat.leb_refl.
  rewrite drop_ge by (rewrite length_replicate; lia).
  by rewrite app_nil_r.
Qed.

Lemma size_eq : to_uint16 ((OLED_WIDTH * 2) * OLED_HEIGHT) = 32768.
Proof. reflexivity. Qed.

(** [init_display_buffers] at program start, allocations granted. *)
Lemma init_display_buffers_granted st :
  malloc_plan st = [] ->
  oled_buffers st = (NULL, NULL) ->
  (0 < brk st)%nat ->
  init_display_buffers st =
    (0,
     Driver (display_active st) (pipe_created st) (display_thread st) (joined st)
       (brk st, S (brk st)) (current_buffer st) 32768
       (<[S (brk st) := replicate (Z.to_nat 32768) (Some 0)]>
          (<[brk st := replicate (Z.to_nat 32768) (Some 0)]> (heap st)))
       (S (S (brk st))) (pipe_path st) [] (stop_after st)
       (presented st) (requests st) (fault st) (umask st)).
Proof.
  intros Hplan Hbuf Hbrk. unfold init_display_buffers. rewrite size_eq.
  simpl_st. rewrite Hbuf. cbn [fst snd]. rewrite decide_True by done.
  rewrite malloc_granted by done. simpl_st.
  rewrite decide_False by (unfold NULL; lia).
  rewrite memset_fresh; [| lia | simpl_st; apply lookup_insert_eq].
  simpl_st. cbn [Z.eqb]. rewrite ?Hbuf. simpl_st. rewrite decide_True by done.
  rewrite malloc_granted by done. simpl_st.
  rewrite decide_False by (unfold NULL; lia).
  rewrite memset_fresh; [| lia | simpl_st; apply lookup_insert_eq].
  f_equal. driver_eq. by rewrite !insert_insert_eq.
Qed.

Lemma display_camera_frame_paints_witness :
  exists out',
    presented (display_camera_frame 1 24576 (hold_frame grey_frame boot).2)
      = out' :: presented (hold_frame grey_frame boot).2 /\
    Z.of_nat (length out') = 32768 /\
    fault (display_camera_frame 1 24576 (hold_frame grey_frame boot).2)
      = fault (hold_frame grey_frame boot).2 /\
    forall row col, 0 <= row < 128 -> 0 <= col < 128 ->
      painted 128 128 grey_frame out' row col.
Proof.
  apply (display_camera_frame_paints (hold_frame grey_frame boot).2 1 grey_frame);
    rewrite ?(hold_frame_granted grey_frame boot eq_refl ltac:(cbn; lia)); cbn [snd]; simpl_st.
  - apply lookup_insert_eq.
  - unfold grey_frame. rewrite length_replicate. apply Z2Nat.id. lia.
  - cbn. lia.
  - reflexivity.
  - reflexivity.
Defined.

(** Whatever the pool held before, a granted call of
    [display_camera_frame] leaves both pool pointers on blocks that
    did not exist before the call, and releases nothing. *)
Lemma display_camera_frame_fresh_pool (st : driver) (fb : nat) (fs : Z) (frame : block) :
  malloc_plan st = [] ->
  (0 < fb < brk st)%nat ->
  24576 <= fs ->
  heap st !! fb = Some frame ->
  oled_buffers (display_camera_frame fb fs st) = (brk st, S (brk st)) /\
  forall p, (p < brk st)%nat ->
    heap (display_camera_frame fb fs st) !! p = heap st !! p.
Proof.
  intros Hplan Hptr Hfs Hfb.
  rewrite (display_camera_frame_granted st fb fs frame) by done.
  cbv zeta. simpl_st. split; [done|]. intros p Hp.
  destruct (sel_cases (brk st, S (brk st)) (current_buffer st)) as [->| ->];
    cbn [fst snd]; rewrite !lookup_insert_ne by lia; done.
Qed.

Lemma free_keeps p q st : p <> q -> heap (free p st) !! q = heap st !! q.
Proof.
  intros Hne. unfold free. case_decide; [done|].
  destruct (heap st !! p); simpl_st; [|done]. by rewrite lookup_delete_ne.
Qed.

Lemma free_buffers p st : oled_buffers (free p st) = oled_buffers st.
Proof. unfold free. case_decide; [done|]. by destruct (heap st !! p). Qed.

(** [free_display_buffers] clears both pool pointers and touches no
    block but the two they pointed to. *)
Lemma free_display_buffers_spec st :
  oled_buffers (free_display_buffers st) = (NULL, NULL) /\
  forall p, p <> (oled_buffers st).1 -> p <> (oled_buffers st).2 ->
    heap (free_display_buffers st) !! p = heap st !! p.
Proof.
  unfold free_display_buffers. destruct (oled_buffers st) as [b0 b1] eqn:Hb.
  cbn [fst snd]. split.
  - destruct (decide (b0 = NULL)) as [->|]; simpl_st; rewrite ?Hb; cbn [fst snd];
      destruct (decide (b1 = NULL)) as [->|]; simpl_st; rewrite ?Hb; done.
  - intros p H0 H1.
    destruct (decide (b0 = NULL)) as [->|]; simpl_st; rewrite ?Hb; cbn [fst snd];
      destruct (decide (b1 = NULL)) as [->|]; simpl_st; rewrite ?Hb;
      rewrite ?free_keeps by done; simpl_st; rewrite ?free_keeps by done; done.
Qed.

(** C3 (the source departs from it): with the two display buffers
    allocated by [init_display_buffers], one call of
    [display_camera_frame] on a full frame overwrites both pool
    pointers with fresh allocations; the blocks allocated at start stay
    live with nothing pointing to them, also after
    [free_display_buffers]. *)
Theorem display_camera_frame_reallocates :
  let st0 := (init_display_buffers boot).2 in
  let st1 := (hold_frame grey_frame st0).2 in
  let st2 := display_camera_frame 3 24576 st1 in
  let st3 := free_display_buffers st2 in
  (init_display_buffers boot).1 = 0 /\
  oled_buffers st0 = (1, 2)%nat /\
  oled_buffers st1 = (1, 2)%nat /\
  oled_buffers st2 = (4, 5)%nat /\
  is_Some (heap st2 !! 1%nat) /\ is_Some (heap st2 !! 2%nat) /\
  oled_buffers st3 = (NULL, NULL) /\
  is_Some (heap st3 !! 1%nat) /\ is_Some (heap st3 !! 2%nat).
Proof.
  cbv zeta.
  rewrite (init_display_buffers_granted boot eq_refl eq_refl ltac:(cbn; lia)).
  cbn [fst snd]. rewrite hold_frame_granted by (simpl_st; done || (cbn; lia)).
  cbn [fst snd]. simpl_st. change (brk boot) with 1%nat.
  split; [done|]. split; [done|]. split; [done|].
  match goal with |- context [display_camera_frame 3 24576 ?s] => set (st1 := s) end.
  assert (brk st1 = 4%nat) as Hbrk by reflexivity.
  assert (heap st1 !! 1%nat = Some (replicate (Z.to_nat 32768) (Some 0))) as Hone.
  { unfold st1. simpl_st. do 2 rewrite lookup_insert_ne by lia. apply lookup_insert_eq. }
  assert (heap st1 !! 2%nat = Some (replicate (Z.to_nat 32768) (Some 0))) as Htwo.
  { unfold st1. simpl_st. rewrite lookup_insert_ne by lia. apply lookup_insert_eq. }
  destruct (display_camera_frame_fresh_pool st1 3 24576 (Some <$> grey_frame))
    as [Hpool Hkeep]; [done | lia | lia | apply lookup_insert_eq |].
  rewrite Hbrk in Hpool, Hkeep. clearbody st1.
  set (st2 := display_camera_frame 3 24576 st1) in *. clearbody st2.
  assert (is_Some (heap st2 !! 1%nat)) as H1 by (rewrite Hkeep, Hone by lia; eauto).
  assert (is_Some (heap st2 !! 2%nat)) as H2 by (rewrite Hkeep, Htwo by lia; eauto).
  split; [done|]. split; [done|]. split; [done|].
  destruct (free_display_buffers_spec st2) as [Hnull Hrest].
  rewrite Hpool in Hrest. cbn [fst snd] in Hrest.
  split; [done|]. rewrite !Hrest by lia. done.
Qed.


End PoolFacts.

Module SessionFacts.
Import Driver Session PassFacts PoolFacts.

Lemma frame_size_eq : frame_size = 24576.
Proof. reflexivity. Qed.

(** Reading the flag touches nothing but the flag and the pending
    stop. *)
Lemma observe_active_frame st :
  let st' := (observe_active st).2 in
  heap st' = heap st /\ brk st' = brk st /\ malloc_plan st' = malloc_plan st /\
  requests st' = requests st /\ presented st' = presented st /\
  fault st' = fault st /\ oled_buffers st' = oled_buffers st /\
  buffer_size st' = buffer_size st /\ current_buffer st' = current_buffer st /\
  display_active st' = (observe_active st).1.
Proof.
  unfold observe_active. destruct (stop_after st) as [[|k]|]; simpl_st; done.
Qed.

Lemma fill_frame_bound pipe buf t st t' rest st' :
  t <= frame_size ->
  fill_frame pipe buf t st = Filled t' rest st' ->
  t <= t' <= frame_size.
Proof.
  revert t st. induction pipe as [|c pipe IH]; intros t st Ht; cbn [fill_frame].
  - destruct (Z.ltb_spec t frame_size); [|intros [= <- <- <-]; lia].
    destruct (observe_active st) as [[] st1]; [done|]. intros [= <- <- <-]. lia.
  - destruct (Z.ltb_spec t frame_size); [|intros [= <- <- <-]; lia].
    destruct (observe_active st) as [[] st1]; [|intros [= <- <- <-]; lia].
    destruct c as [b l| |].
    + destruct (Z.leb_spec (Z.of_nat (length (b :: l))) (frame_size - t)).
      * intros Hfill. apply IH in Hfill; lia.
      * intros [= <- <- <-]. lia.
    + intros [= <- <- <-]. lia.
    + intros [= <- <- <-]. lia.
Qed.

Lemma available_nonneg pipe : 0 <= available pipe.
Proof. induction pipe as [|[b l| |] pipe IH]; cbn [available]; lia. Qed.

(** A completed fill took exactly the missing bytes off the pipe. *)
Lemma fill_frame_complete pipe buf t st rest st' :
  t <= frame_size ->
  fill_frame pipe buf t st = Filled frame_size rest st' ->
  available rest + (frame_size - t) = available pipe.
Proof.
  revert t st. induction pipe as [|c pipe IH]; intros t st Ht; cbn [fill_frame].
  - destruct (Z.ltb_spec t frame_size); [|intros [= E <- <-]; lia].
    destruct (observe_active st) as [[] st1]; [done|]. intros [= E <- <-]. lia.
  - destruct (Z.ltb_spec t frame_size); [|intros [= E <- <-]; lia].
    destruct (observe_active st) as [[] st1]; [|intros [= E <- <-]; lia].
    destruct c as [b l| |]; [|intros [= E <- <-]; lia..].
    destruct (Z.leb_spec (Z.of_nat (length (b :: l))) (frame_size - t)).
    + intros Hfill. apply IH in Hfill; [|lia]. cbn [available]. lia.
    + intros [= _ <- <-]. cbn [available].
      pose proof (length_drop (b :: l) (Z.to_nat (frame_size - t))) as Hd.
      destruct (drop (Z.to_nat (frame_size - t)) (b :: l)) as [|b' l'] eqn:E.
      * cbn [length] in *. lia.
      * cbn [available length] in *. lia.
Qed.

(** A fill never gathers more than the pipe had to give. *)
Lemma fill_frame_available pipe buf t st t' rest st' :
  fill_frame pipe buf t st = Filled t' rest st' ->
  t' <= t + available pipe.
Proof.
  revert t st. induction pipe as [|c pipe IH]; intros t st; cbn [fill_frame].
  - destruct (Z.ltb_spec t frame_size); [|intros [= <- <- <-]; cbn; lia].
    destruct (observe_active st) as [[] st1]; [done|]. intros [= <- <- <-]. cbn; lia.
  - pose proof (available_nonneg (c :: pipe)).
    destruct (Z.ltb_spec t frame_size); [|intros [= <- <- <-]; lia].
    destruct (observe_active st) as [[] st1]; [|intros [= <- <- <-]; lia].
    destruct c as [b l| |]; [|intros [= <- <- <-]; lia..].
    pose proof (available_nonneg pipe).
    destruct (Z.leb_spec (Z.of_nat (length (b :: l))) (frame_size - t)).
    + intros Hfill. apply IH in Hfill. cbn [available]. lia.
    + intros [= <- <- <-]. cbn [available]. lia.
Qed.

Lemma write_bytes_frame p off l st :
  let st' := write_bytes p off l st in
  requests st' = requests st /\ display_active st' = display_active st /\
  stop_after st' = stop_after st /\ brk st' = brk st /\
  malloc_plan st' = malloc_plan st.
Proof.
  unfold write_bytes. destruct (heap st !! p); [|done]. by case_match.
Qed.

Lemma free_frame p st :
  let st' := free p st in
  requests st' = requests st /\ display_active st' = display_active st /\
  stop_after st' = stop_after st.
Proof.
  unfold free. case_decide; [done|]. by destruct (heap st !! p).
Qed.

Lemma fill_frame_requests pipe buf t st :
  requests (fill_state (fill_frame pipe buf t st)) = requests st.
Proof.
  revert t st. induction pipe as [|c pipe IH]; intros t st; cbn [fill_frame].
  - destruct (t <? frame_size); [|done].
    pose proof (observe_active_frame st) as Ho.
    destruct (observe_active st) as [[] st1]; cbn [fst snd fill_state] in *; tauto.
  - destruct (t <? frame_size); [|done].
    pose proof (observe_active_frame st) as Ho.
    destruct (observe_active st) as [[] st1]; cbn [fst snd fill_state] in *; [|tauto].
    destruct c as [b l| |]; cbn [fill_state]; [|tauto..].
    destruct (_ <=? _).
    + rewrite IH. pose proof (write_bytes_frame buf t (b :: l) st1) as Hw.
      cbv zeta in Hw. destruct Hw as [-> _]. tauto.
    + cbn [fill_state].
      pose proof (write_bytes_frame buf t (take (Z.to_nat (frame_size - t)) (b :: l)) st1) as Hw.
      cbv zeta in Hw. destruct Hw as [-> _]. tauto.
Qed.

Lemma pipe_loop_spec fuel fb ab rec pipe handed0 st :
  let r := pipe_loop fuel fb ab frame_size rec pipe handed0 st in
  exists new reqs,
    handed r = new ++ handed0 /\
    Forall (fun t => t = frame_size) new /\
    requests (final r) = reqs ++ requests st /\
    length reqs = length new /\
    frame_size * Z.of_nat (length new) <= frame_size + available pipe /\
    (available pipe < Z.of_nat fuel * frame_size -> how r <> OutOfFuel).
Proof.
  cbv zeta. revert ab rec pipe handed0 st.
  assert (0 <= frame_size) as Hfs0 by (rewrite frame_size_eq; lia).
  induction fuel as [|fuel IH]; intros ab rec pipe handed0 st.
  - exists [], []. cbn [pipe_loop handed final how app length].
    pose proof (available_nonneg pipe). rewrite frame_size_eq.
    repeat split; try done; lia.
  - cbn [pipe_loop].
    pose proof (observe_active_frame st) as Ho. cbv zeta in Ho.
    destruct (observe_active st) as [[] st1]; cbn [fst snd] in Ho.
    2:{ exists [], []. unfold pipe_cleanup. cbn [handed final how app length].
        pose proof (available_nonneg pipe). rewrite frame_size_eq.
        destruct (free_frame fb.1 st1) as (R1 & _). cbv zeta in R1.
        destruct (free_frame fb.2 (free fb.1 st1)) as (R2 & _). cbv zeta in R2.
        rewrite R2, R1. repeat split; try done; try lia. tauto. }
    set (st2 := display_camera_frame (sel fb ab) frame_size st1).
    pose proof (display_camera_frame_frame (sel fb ab) frame_size st1) as Hd.
    cbv zeta in Hd. fold st2 in Hd.
    pose proof (fill_frame_requests pipe (sel fb (1 - ab)) 0 st2) as Hr.
    destruct (fill_frame pipe (sel fb (1 - ab)) 0 st2) as [t' rest st3|st3] eqn:Hfill;
      cbn [fill_state] in Hr.
    2:{ exists [frame_size], [(heap st1 !! sel fb ab, frame_size)].
        cbn [handed final how app length]. pose proof (available_nonneg pipe).
        rewrite Hr. destruct Hd as (_ & _ & _ & _ & _ & _ & _ & -> & _).
        destruct Ho as (_ & _ & _ & -> & _). rewrite frame_size_eq.
        repeat split; try done; try lia. by repeat constructor. }
    pose proof (fill_frame_bound _ _ _ _ _ _ _ Hfs0 Hfill) as Hb.
    destruct (Z.ltb_spec t' frame_size).
    + exists [frame_size], [(heap st1 !! sel fb ab, frame_size)].
      unfold pipe_cleanup. cbn [handed final how app length].
      pose proof (available_nonneg pipe).
      destruct (free_frame fb.1 st3) as (R1 & _). cbv zeta in R1.
      destruct (free_frame fb.2 (free fb.1 st3)) as (R2 & _). cbv zeta in R2.
      rewrite R2, R1, Hr. destruct Hd as (_ & _ & _ & _ & _ & _ & _ & -> & _).
      destruct Ho as (_ & _ & _ & -> & _). rewrite frame_size_eq.
      repeat split; try done; try lia. by repeat constructor.
    + assert (t' = frame_size) as -> by lia.
      pose proof (fill_frame_complete _ _ _ _ _ _ Hfs0 Hfill) as Hc.
      destruct (IH (1 - ab) (rec + 1) rest (frame_size :: handed0) st3)
        as (new & reqs & E1 & E2 & E3 & E4 & E5 & E6).
      exists (new ++ [frame_size]), (reqs ++ [(heap st1 !! sel fb ab, frame_size)]).
      rewrite E1, E3, Hr. destruct Hd as (_ & _ & _ & _ & _ & _ & _ & -> & _).
      destruct Ho as (_ & _ & _ & -> & _).
      rewrite <- !app_assoc. cbn [app]. rewrite !length_app. cbn [length].
      split; [done|]. split; [apply Forall_app; split; [done|by repeat constructor]|].
      split; [done|]. split; [lia|]. split; [lia|].
      intros Hfuel. apply E6. lia.
Qed.

Lemma malloc_frame n st :
  let st' := (malloc n st).2 in
  requests st' = requests st /\ display_active st' = display_active st /\
  stop_after st' = stop_after st.
Proof.
  destruct (malloc_cases n st) as [(_ & plan & _ & ->)|(_ & -> & _)]; done.
Qed.

(** The hand-offs of [pipe_thread_func]: each with [total_read] at the
    frame size, one logged request per hand-off, no more of them than
    the pipe delivered full frames. *)
Lemma pipe_thread_func_handed (fuel : nat) (p : list chunk) (st : driver) :
  let r := pipe_thread_func fuel (Some p) st in
  Forall (fun t => t = frame_size) (handed r) /\
  (exists reqs, requests (final r) = reqs ++ requests st /\
                length reqs = length (handed r)) /\
  frame_size * Z.of_nat (length (handed r)) <= available p /\
  (available p < frame_size ->
     handed r = [] /\ requests (final r) = requests st /\
     how r <> OutOfFuel /\
     (how r = Returned -> display_active (final r) = false)) /\
  (available p < Z.of_nat (S fuel) * frame_size -> how r <> OutOfFuel).
Proof.
  cbv zeta.
  assert (0 <= frame_size) as Hfs0 by (rewrite frame_size_eq; lia).
  pose proof (available_nonneg p) as Hav.
  unfold pipe_thread_func.
  pose proof (malloc_frame frame_size st) as Hm0. cbv zeta in Hm0.
  destruct (malloc frame_size st) as [b0 st1]. cbn [snd] in Hm0.
  destruct Hm0 as (Rq0 & _).
  (* every early return has the same shape *)
  assert (forall s, requests s = requests st ->
    let r := Run Returned [] 0 p (set_active false s) in
    Forall (fun t => t = frame_size) (handed r) /\
    (exists reqs, requests (final r) = reqs ++ requests st /\
                  length reqs = length (handed r)) /\
    frame_size * Z.of_nat (length (handed r)) <= available p /\
    (available p < frame_size ->
       handed r = [] /\ requests (final r) = requests st /\
       how r <> OutOfFuel /\
       (how r = Returned -> display_active (final r) = false)) /\
    (available p < Z.of_nat (S fuel) * frame_size -> how r <> OutOfFuel)) as Hearly.
  { intros s Hs. cbv zeta. cbn [handed final how length]. simpl_st.
    split; [constructor|]. split; [by exists []|]. split; [lia|]. by repeat split. }
  destruct (decide (b0 = NULL)); [by apply Hearly|].
  pose proof (malloc_frame frame_size st1) as Hm1. cbv zeta in Hm1.
  destruct (malloc frame_size st1) as [b1 st2]. cbn [snd] in Hm1.
  destruct Hm1 as (Rq1 & _).
  destruct (decide (b1 = NULL)).
  { destruct (Hearly (free b0 st2)) as (A & B & C & D & E).
    - destruct (free_frame b0 st2) as (-> & _). congruence.
    - done. }
  pose proof (fill_frame_requests p b0 0 st2) as Hr.
  destruct (fill_frame p b0 0 st2) as [t rest st3|st3] eqn:Hfill; cbn [fill_state] in Hr.
  2:{ cbn [handed final how length]. split; [constructor|].
      split; [exists []; split; [cbn; congruence|done]|]. split; [lia|].
      split; [|done]. intros _. repeat split; [congruence|done|done]. }
  pose proof (fill_frame_bound _ _ _ _ _ _ _ Hfs0 Hfill) as Hb.
  pose proof (fill_frame_available _ _ _ _ _ _ _ Hfill) as Ha.
  destruct (Z.ltb_spec t frame_size).
  - assert (requests (free b1 (free b0 st3)) = requests st) as Hq.
    { destruct (free_frame b1 (free b0 st3)) as (-> & _).
      destruct (free_frame b0 st3) as (-> & _). congruence. }
    cbn [handed final how length]. simpl_st.
    split; [constructor|]. split; [by exists []|]. split; [lia|]. by repeat split.
  - assert (t = frame_size) as -> by lia.
    pose proof (fill_frame_complete _ _ _ _ _ _ Hfs0 Hfill) as Hc.
    destruct (pipe_loop_spec fuel (b0, b1) 0 1 rest [] st3)
      as (new & reqs & E1 & E2 & E3 & E4 & E5 & E6).
    rewrite app_nil_r in E1. rewrite E1, E3, Hr, Rq1, Rq0, <- E4.
    split; [done|]. split; [by exists reqs|]. split; [lia|].
    split; [lia|]. intros Hfuel. apply E6. lia.
Qed.


(** With no stop under way, reading the flag changes nothing. *)
Lemma observe_active_quiet st :
  stop_after st = None -> observe_active st = (display_active st, st).
Proof. intros H. unfold observe_active. by rewrite H. Qed.

Lemma fill_frame_full_chunk b l rest buf st :
  stop_after st = None -> display_active st = true ->
  Z.of_nat (length (b :: l)) = frame_size ->
  fill_frame (Bytes b l :: rest) buf 0 st
    = Filled frame_size rest (write_bytes buf 0 (b :: l) st).
Proof.
  intros Hs Ha Hl. cbn [fill_frame]. rewrite observe_active_quiet, Ha by done.
  change (0 <? frame_size) with true. cbv iota. rewrite Hl, Z.sub_0_r, Z.leb_refl.
  destruct (write_bytes_frame buf 0 (b :: l) st) as (_ & _ & _ & _ & _).
  destruct rest as [|c rest]; cbn [fill_frame]; by rewrite Z.add_0_l, Z.ltb_irrefl.
Qed.

Lemma fill_frame_eof rest buf st :
  stop_after st = None -> display_active st = true ->
  fill_frame (Eof :: rest) buf 0 st = Filled 0 rest st.
Proof.
  intros Hs Ha. cbn [fill_frame]. rewrite observe_active_quiet, Ha by done.
  by change (0 <? frame_size) with true.
Qed.

Lemma write_bytes_dom p off l st q :
  is_Some (heap (write_bytes p off l st) !! q) <-> is_Some (heap st !! q).
Proof.
  unfold write_bytes. destruct (heap st !! p) as [blk|] eqn:E; [|done].
  case_match; [|done]. simpl_st. destruct (decide (p = q)) as [->|].
  - rewrite lookup_insert_eq, E. split; eauto.
  - by rewrite lookup_insert_ne.
Qed.

Lemma write_bytes_wf p off l st : wf st -> wf (write_bytes p off l st).
Proof.
  intros [H0 Hfresh]. destruct (write_bytes_frame p off l st) as (_ & _ & _ & Hb & _).
  split; [lia|]. intros q Hq. rewrite Hb in Hq.
  apply eq_None_not_Some. rewrite write_bytes_dom. rewrite Hfresh; [|done].
  by intros [? ?].
Qed.

Lemma free_live p st :
  p <> NULL -> is_Some (heap st !! p) -> heap (free p st) !! p = None.
Proof.
  intros Hp [blk E]. unfold free. rewrite decide_False by done. rewrite E.
  simpl_st. apply lookup_delete_eq.
Qed.

Lemma free_gone p q st : heap st !! q = None -> heap (free p st) !! q = None.
Proof.
  intros E. unfold free. case_decide; [done|].
  destruct (heap st !! p); simpl_st; [|done].
  destruct (decide (p = q)) as [->|]; [apply lookup_delete_eq|by rewrite lookup_delete_ne].
Qed.

(** C5 (the source departs from it): a session is started, the
    producer delivers one full frame and closes.  The worker shows the
    frame, finds the stream closed, frees its two frame buffers and
    returns, but [display_active] still reads 1, so the next
    [start_realtime_display] is refused. *)
Theorem pipe_thread_func_leaves_flag_set :
  let st0 := (start_realtime_display true true boot).2 in
  let r := pipe_thread_func 1 (Some [Bytes 128 (replicate (Z.to_nat 24575) 128); Eof]) st0 in
  (start_realtime_display true true boot).1 = 0 /\
  how r = Returned /\
  handed r = [frame_size] /\
  heap (final r) !! 1%nat = None /\ heap (final r) !! 2%nat = None /\
  display_active (final r) = true /\
  is_display_active (final r) = 1 /\
  (start_realtime_display true true (final r)).1 = -1.
Proof.
  cbv zeta. split; [reflexivity|].
  set (st0 := (start_realtime_display true true boot).2).
  assert (malloc_plan st0 = []) as Hplan by reflexivity.
  assert (brk st0 = 1%nat) as Hbrk by reflexivity.
  assert (stop_after st0 = None) as Hstop by reflexivity.
  assert (display_active st0 = true) as Hact by reflexivity.
  assert (heap st0 = ∅) as Hheap by reflexivity.
  clearbody st0.
  unfold pipe_thread_func. rewrite malloc_granted by done.
  rewrite decide_False by (unfold NULL; lia).
  rewrite malloc_granted by done. simpl_st.
  rewrite decide_False by (unfold NULL; lia).
  rewrite Hbrk, Hheap.
  match goal with |- context [fill_frame _ _ _ ?s] => set (st2 := s) end.
  assert (malloc_plan st2 = []) as Hplan2 by done.
  assert (brk st2 = 3%nat) as Hbrk2 by done.
  assert (stop_after st2 = None) as Hstop2 by done.
  assert (display_active st2 = true) as Hact2 by done.
  assert (is_Some (heap st2 !! 1%nat)) as H1.
  { unfold st2. simpl_st. rewrite lookup_insert_ne by lia. rewrite lookup_insert_eq. eauto. }
  assert (is_Some (heap st2 !! 2%nat)) as H2.
  { unfold st2. simpl_st. rewrite lookup_insert_eq. eauto. }
  clearbody st2.
  rewrite fill_frame_full_chunk;
    [|done|done|cbn [length]; rewrite length_replicate; reflexivity].
  rewrite Z.ltb_irrefl. cbn [pipe_loop].
  set (st3 := write_bytes 1 0 _ st2).
  destruct (write_bytes_frame 1 0 (128 :: replicate (Z.to_nat 24575) 128) st2)
    as (_ & Hact3 & Hstop3 & Hbrk3 & Hplan3).
  fold st3 in Hact3, Hstop3, Hbrk3, Hplan3.
  assert (is_Some (heap st3 !! 1%nat)) as H31 by (by apply write_bytes_dom).
  assert (is_Some (heap st3 !! 2%nat)) as H32 by (by apply write_bytes_dom).
  clearbody st3.
  rewrite observe_active_quiet by congruence.
  rewrite Hact3, Hact2. cbn [sel Z.eqb fst snd]. change (1 - 0) with 1.
  cbn [Z.eqb].
  destruct H31 as [frame Hframe].
  destruct (display_camera_frame_fresh_pool st3 1 frame_size frame)
    as [_ Hkeep]; [congruence | lia | rewrite frame_size_eq; lia | done |].
  destruct (display_camera_frame_frame 1 frame_size st3)
    as (Hact4 & _ & _ & _ & Hstop4 & _).
  set (st4 := display_camera_frame 1 frame_size st3) in *. clearbody st4.
  rewrite fill_frame_eof by congruence.
  change (0 <? frame_size) with true. cbv iota.
  unfold pipe_cleanup. cbn [how handed final fst snd].
  assert (heap (free 2 (free 1 st4)) !! 1%nat = None) as G1.
  { apply free_gone, free_live; [done|]. rewrite Hkeep by lia. eauto. }
  assert (heap (free 2 (free 1 st4)) !! 2%nat = None) as G2.
  { apply free_live; [done|]. rewrite free_keeps by lia. rewrite Hkeep by lia. done. }
  assert (display_active (free 2 (free 1 st4)) = true) as G3.
  { destruct (free_frame 2 (free 1 st4)) as (_ & -> & _).
    destruct (free_frame 1 st4) as (_ & -> & _). congruence. }
  split; [done|]. split; [done|]. split; [done|]. split; [done|]. split; [done|].
  unfold is_display_active, start_realtime_display. rewrite G3. done.
Qed.
End SessionFacts.

Module FileFacts.
Import Driver Session PassFacts PoolFacts SessionFacts.

(** [display_camera_frame] leaves every block that existed before the
    call as it was, whatever the allocator does. *)
Lemma display_camera_frame_keeps fb fs st :
  wf st ->
  wf (display_camera_frame fb fs st) /\
  forall p, (p < brk st)%nat ->
    heap (display_camera_frame fb fs st) !! p = heap st !! p.
Proof.
  intros [Hpos Hfresh]. unfold display_camera_frame.
  destruct (malloc_cases (buffer_size (push_request (heap st !! fb, fs) st))
              (push_request (heap st !! fb, fs) st)) as [(E1 & plan & Ep & E2)|(E1 & E2 & _)];
    destruct (malloc _ _) as [p0 st0]; cbn [fst snd] in E1, E2; subst p0 st0.
  - rewrite decide_True by done. simpl_st. split; [by split|done].
  - set (st1 := set_buffers _ _).
    assert (wf st1 /\ brk st1 = S (brk st) /\ (oled_buffers st1).1 = brk st /\
            forall p, (p < brk st)%nat -> heap st1 !! p = heap st !! p)
      as (W1 & B1 & O1 & K1).
    { subst st1. simpl_st. split; [split; simpl_st; [lia|]|split; [done|split; [done|]]].
      - intros p Hp. rewrite lookup_insert_ne by lia. apply Hfresh. lia.
      - intros p Hp. by rewrite lookup_insert_ne by lia. }
    clearbody st1. destruct W1 as [Hpos1 Hfresh1]. simpl_st.
    rewrite decide_False by (unfold NULL; lia).
    destruct (malloc_cases (buffer_size st1) st1) as [(F1 & plan & Fp & F2)|(F1 & F2 & _)];
      destruct (malloc (buffer_size st1) st1) as [p1 st2]; cbn [fst snd] in F1, F2;
      subst p1 st2.
    + rewrite decide_True by done. simpl_st. split; [by split|done].
    + rewrite decide_False by (unfold NULL; lia). simpl_st. rewrite O1.
      rewrite !bool_decide_eq_false_2 by (unfold NULL; lia). cbn [orb].
      set (h2 := <[brk st1 := _]> (heap st1)).
      assert (forall p, (S (brk st1) <= p)%nat -> h2 !! p = None) as Hfresh2.
      { intros p Hp. unfold h2. rewrite lookup_insert_ne by lia. apply Hfresh1. lia. }
      assert (forall p, (p < brk st)%nat -> h2 !! p = heap st !! p) as K2.
      { intros p Hp. unfold h2. rewrite lookup_insert_ne by lia. by apply K1. }
      clearbody h2.
      destruct (sel_cases (brk st, brk st1) (current_buffer st1)) as [Hs|Hs];
        rewrite Hs; cbn [fst snd];
        repeat case_match; simpl_st;
        (split; [split; simpl_st; [lia|intros p Hp; rewrite ?lookup_insert_ne by lia; apply Hfresh2; lia]
                |intros p Hp; rewrite ?lookup_insert_ne by lia; by apply K2]).
Qed.

Section FileLoop.
Variable fb : nat.

Local Abbreviation playing := (Session.playing fb).


Lemma write_bytes_front (l : list Z) st blk :
  heap st !! fb = Some blk ->
  (length l <= length blk)%nat ->
  write_bytes fb 0 l st
    = set_heap (<[fb := (Some <$> l) ++ drop (length l) blk]> (heap st)) st.
Proof.
  intros Hb Hl. unfold write_bytes. rewrite Hb.
  destruct (Z.leb_spec 0 0); [|lia].
  destruct (Z.leb_spec (0 + Z.of_nat (length l)) (Z.of_nat (length blk))); [|lia].
  cbn [andb]. change (Z.to_nat 0) with 0%nat. by rewrite take_0.
Qed.

Lemma playing_write (l : list Z) st :
  playing st -> (length l <= Z.to_nat frame_size)%nat ->
  playing (write_bytes fb 0 l st) /\
  requests (write_bytes fb 0 l st) = requests st /\
  (length l = Z.to_nat frame_size ->
   heap (write_bytes fb 0 l st) !! fb = Some (Some <$> l)).
Proof.
  intros (Hs & Ha & Hwf & Hp & blk & Hb & Hlen) Hl.
  rewrite (write_bytes_front l st blk) by (done || lia).
  split; [|split; [done|]].
  - split; [done|]. split; [done|]. split.
    + destruct Hwf as [H0 Hfresh]. split; [done|]. intros p Hq. simpl_st.
      rewrite lookup_insert_ne by lia. by apply Hfresh.
    + split; [done|]. eexists. simpl_st. rewrite lookup_insert_eq. split; [done|].
      rewrite length_app, length_fmap, length_drop. lia.
  - intros Hfull. simpl_st. rewrite lookup_insert_eq. f_equal.
    rewrite drop_ge by lia. apply app_nil_r.
Qed.

Lemma playing_display st :
  playing st ->
  playing (display_camera_frame fb frame_size st) /\
  requests (display_camera_frame fb frame_size st)
    = (heap st !! fb, frame_size) :: requests st.
Proof.
  intros (Hs & Ha & Hwf & Hp & blk & Hb & Hlen).
  destruct (display_camera_frame_frame fb frame_size st)
    as (Ha' & _ & _ & _ & Hs' & _ & _ & Hr & Hbrk).
  destruct (display_camera_frame_keeps fb frame_size st Hwf) as [Hwf' Hkeep].
  split; [|done]. split; [congruence|]. split; [congruence|]. split; [done|].
  split; [lia|]. exists blk. rewrite Hkeep by lia. done.
Qed.

Lemma fread_full (pre f post : list Z) :
  length f = Z.to_nat frame_size -> fread (pre ++ f ++ post) (length pre) = f.
Proof.
  intros Hf. unfold fread. rewrite drop_app_length, <- Hf. apply take_app_length.
Qed.

Lemma fread_tail (pre tail : list Z) :
  (length tail < Z.to_nat frame_size)%nat -> fread (pre ++ tail) (length pre) = tail.
Proof.
  intros Ht. unfold fread. rewrite drop_app_length. apply take_ge. lia.
Qed.

Lemma frame_size_nat : Z.of_nat (Z.to_nat frame_size) = frame_size.
Proof. apply Z2Nat.id. rewrite frame_size_eq. lia. Qed.

(** Reading through a run of full frames shows them one by one. *)
Lemma loop_frames (rest : list (list Z)) : forall (pre post : list Z) fuel handed st,
  playing st ->
  Forall (fun f => length f = Z.to_nat frame_size) rest ->
  exists handed' st',
    display_thread_loop (length rest + fuel) fb (pre ++ concat rest ++ post)
      (length pre) handed st
    = display_thread_loop fuel fb (pre ++ concat rest ++ post)
        (length pre + length (concat rest)) handed' st' /\
    playing st' /\
    requests st' = rev (req <$> rest) ++ requests st.
Proof.
  induction rest as [|f rest IH]; intros pre post fuel handed st Hplay Hfull.
  - exists handed, st. cbn [length concat Nat.add app rev fmap list_fmap].
    rewrite Nat.add_0_r. done.
  - apply Forall_cons in Hfull as [Hf Hrest].
    cbn [length Nat.add display_thread_loop concat].
    pose proof Hplay as (Hs & Ha & _).
    rewrite observe_active_quiet, Ha by done.
    rewrite <- (app_assoc f), (fread_full pre f) by done.
    rewrite Hf, frame_size_nat, Z.ltb_irrefl.
    destruct (playing_write f st) as (Hplay1 & Hreq1 & Hheap1); [done|lia|].
    specialize (Hheap1 Hf).
    destruct (playing_display _ Hplay1) as (Hplay2 & Hreq2).
    rewrite Hheap1, Hreq1 in Hreq2.
    replace (length pre + Z.to_nat frame_size)%nat with (length (pre ++ f))
      by (rewrite length_app; lia).
    replace (pre ++ f ++ concat rest ++ post) with ((pre ++ f) ++ concat rest ++ post)
      by (by rewrite <- app_assoc).
    destruct (IH (pre ++ f) post fuel (frame_size :: handed) _ Hplay2 Hrest)
      as (handed' & st' & E & Hplay3 & Hreq').
    exists handed', st'. rewrite E. split; [|split; [done|]].
    + f_equal. rewrite !length_app. lia.
    + rewrite Hreq', Hreq2. cbn [fmap list_fmap rev]. rewrite <- app_assoc. done.
Qed.

Variables (frames : list (list Z)) (tail : list Z).
Hypothesis Hframes : Forall (fun f => length f = Z.to_nat frame_size) frames.
Hypothesis Htail : (length tail < Z.to_nat frame_size)%nat.

Local Abbreviation file_data := (Session.file_data frames tail).


(** One round: every frame of the file, then the short read and the
    rewind. *)
Lemma loop_round fuel handed st :
  playing st ->
  exists handed' st',
    display_thread_loop (S (length frames) + fuel) fb file_data 0 handed st
    = display_thread_loop fuel fb file_data 0 handed' st' /\
    playing st' /\
    requests st' = rev (req <$> frames) ++ requests st.
Proof.
  intros Hplay. unfold file_data.
  destruct (loop_frames frames [] tail (S fuel) handed st Hplay Hframes)
    as (handed' & st' & E & Hplay' & Hreq).
  cbn [app length] in E.
  replace (S (length frames) + fuel)%nat with (length frames + S fuel)%nat by lia.
  rewrite E. cbn [Nat.add display_thread_loop].
  pose proof Hplay' as (Hs & Ha & _).
  rewrite observe_active_quiet, Ha by done.
  rewrite fread_tail by done.
  destruct (Z.ltb_spec (Z.of_nat (length tail)) frame_size);
    [|rewrite <- frame_size_nat in *; lia].
  destruct (playing_write tail st') as (Hplay1 & Hreq1 & _); [done|lia|].
  exists handed', (write_bytes fb 0 tail st'). split; [done|]. split; [done|]. congruence.
Qed.

Lemma loop_rounds k : forall fuel handed st,
  playing st ->
  exists handed' st',
    display_thread_loop (k * S (length frames) + fuel) fb file_data 0 handed st
    = display_thread_loop fuel fb file_data 0 handed' st' /\
    playing st' /\
    requests st' = concat (replicate k (rev (req <$> frames))) ++ requests st.
Proof.
  induction k as [|k IH]; intros fuel handed st Hplay.
  - exists handed, st. done.
  - replace (S k * S (length frames) + fuel)%nat
      with (S (length frames) + (k * S (length frames) + fuel))%nat by lia.
    destruct (loop_round (k * S (length frames) + fuel) handed st Hplay)
      as (h1 & st1 & E1 & Hplay1 & Hreq1).
    destruct (IH fuel h1 st1 Hplay1) as (h2 & st2 & E2 & Hplay2 & Hreq2).
    exists h2, st2. rewrite E1, E2. split; [done|]. split; [done|].
    rewrite Hreq2, Hreq1. cbn [replicate concat].
    rewrite <- !app_assoc.
    assert (forall (A : Type) (x : list A) n,
              concat (replicate n x) ++ x = x ++ concat (replicate n x)) as Hcomm.
    { intros A x n. induction n as [|n IHn]; cbn [replicate concat].
      - by rewrite app_nil_r.
      - by rewrite <- app_assoc, IHn. }
    by rewrite (app_assoc _ (rev _)), Hcomm, <- app_assoc.
Qed.

(** C6: the file worker reads one frame-sized chunk per iteration; a
    short read, the empty one at the end of the file included, rewinds
    the file and shows nothing; so after [k] rounds through the [N]
    full frames of the file and [j <= N] further reads the worker is
    still running, stands at byte [j * frame_size] and has shown, in
    order, [k] times the frames of the file and then its first [j]
    frames.  In particular the frame shown after the end of the file
    was met is the first frame of the file, byte for byte. *)
Theorem file_playback_loops (k j : nat) (st : driver) :
  playing st ->
  (j <= length frames)%nat ->
  let r := display_thread_loop (k * S (length frames) + j) fb file_data 0 [] st in
  how r = OutOfFuel /\
  remaining r = (j * Z.to_nat frame_size)%nat /\
  requests (final r)
    = rev (req <$> take j frames)
      ++ concat (replicate k (rev (req <$> frames))) ++ requests st /\
  (forall f0 others, frames = f0 :: others ->
     requests (final (display_thread_loop (S (length frames) + 1) fb file_data 0 [] st))
       = req f0 :: rev (req <$> frames) ++ requests st).
Proof.
  intros Hplay Hj.
  assert (forall k j st, playing st -> (j <= length frames)%nat ->
    let r := display_thread_loop (k * S (length frames) + j) fb file_data 0 [] st in
    how r = OutOfFuel /\
    remaining r = (j * Z.to_nat frame_size)%nat /\
    requests (final r)
      = rev (req <$> take j frames)
        ++ concat (replicate k (rev (req <$> frames))) ++ requests st) as Hgen.
  { clear k j st Hplay Hj. intros k j st Hplay Hj. cbv zeta.
    destruct (loop_rounds k j [] st Hplay) as (h1 & st1 & E1 & Hplay1 & Hreq1).
    rewrite E1. unfold file_data.
    assert (concat frames ++ tail
            = concat (take j frames) ++ concat (drop j frames) ++ tail) as ->.
    { by rewrite app_assoc, <- concat_app, take_drop. }
    assert (Forall (fun f => length f = Z.to_nat frame_size) (take j frames)) as Hpre
      by (by apply Forall_take).
    destruct (loop_frames (take j frames) [] (concat (drop j frames) ++ tail) 0 h1 st1
                Hplay1 Hpre) as (h2 & st2 & E2 & Hplay2 & Hreq2).
    rewrite length_take, Nat.min_l, Nat.add_0_r in E2 by done.
    cbn [app length Nat.add] in E2. rewrite E2.
    cbn [display_thread_loop how remaining final].
    split; [done|]. split; [|by rewrite Hreq2, Hreq1].
    assert (length (take j frames) = j) as Hl by (rewrite length_take; lia).
    clear -Hpre Hl. revert Hpre Hl. generalize (take j frames). intros l Hall <-.
    induction Hall as [|f l Hf _ IH]; [done|].
    cbn [concat length Nat.mul]. rewrite length_app, IH, Hf. done. }
  split; [apply (Hgen k j st Hplay Hj)|]. split; [apply (Hgen k j st Hplay Hj)|].
  split; [apply (Hgen k j st Hplay Hj)|].
  intros f0 others Hfr.
  destruct (Hgen 1%nat 1%nat st Hplay) as (_ & _ & Hreq).
  { rewrite Hfr. cbn [length]. lia. }
  replace (1 * S (length frames) + 1)%nat with (S (length frames) + 1)%nat in Hreq by lia.
  rewrite Hreq. rewrite Hfr at 1. cbn [take fmap list_fmap rev replicate concat app].
  by rewrite app_nil_r.
Qed.

End FileLoop.

Lemma file_playback_loops_witness :
  let dark := replicate (Z.to_nat frame_size) 16 in
  let light := replicate (Z.to_nat frame_size) 235 in
  let st := (malloc frame_size (set_active true boot)).2 in
  requests (final (display_thread_loop 4 1 (file_data [dark; light] [1; 2; 3]) 0 [] st))
    = [req dark; req light; req dark].
Proof.
  cbv zeta.
  refine (proj1 (proj2 (proj2
    (file_playback_loops 1
       [replicate (Z.to_nat frame_size) 16; replicate (Z.to_nat frame_size) 235]
       [1; 2; 3] _ _ 1 1 (malloc frame_size (set_active true boot)).2 _ _)))).
  - repeat constructor; apply length_replicate.
  - apply Nat2Z.inj_lt. rewrite frame_size_nat. reflexivity.
  - rewrite malloc_granted by reflexivity. cbn [snd]. unfold playing. simpl_st.
    split; [reflexivity|]. split; [reflexivity|]. split.
    + split; simpl_st; [cbn; lia|]. intros p Hp. cbn in Hp.
      rewrite lookup_insert_ne by (cbn; lia). apply lookup_empty.
    + split; [cbn; lia|]. eexists. split; [apply lookup_insert_eq|].
      apply length_replicate.
  - cbn. lia.
Defined.
End FileFacts.

Module ButtonFacts.
Import Button PassFacts.


Lemma debounce_inv_step pin j s :
  0 <= j -> debounce_inv pin j s -> debounce_inv pin (j + 1) (debounce_step pin j s).
Proof.
  intros Hj (Hslept & Hcount & Hfull & Hiff). unfold debounce_step.
  destruct (Z.eqb_spec (pin (reads s)) (lastState s)) as [Heq|Hne];
    unfold debounce_inv; cbn [slept_us count lastState reads].
  - split; [lia|]. split; [lia|]. split.
    + intros Hc. assert (count s = j) as Hc' by lia.
      destruct (Hfull Hc') as [Hl Hr]. split; [done|]. rewrite Hr. lia.
    + split.
      * intros Hc i Hi. assert (count s = j) as Hc' by lia.
        destruct (Hfull Hc') as [Hl Hr].
        destruct (decide (i = Z.to_nat (j + 1))) as [->|].
        -- rewrite <- Hr. congruence.
        -- apply Hiff; [done|lia].
      * intros Hall. assert (count s = j) as Hc'; [|lia].
        apply Hiff. intros i Hi. apply Hall. lia.
  - split; [lia|]. split; [lia|]. split; [lia|]. split; [lia|].
    intros Hall. exfalso.
    assert (count s = j) as Hc'.
    { apply Hiff. intros i Hi. apply Hall. lia. }
    destruct (Hfull Hc') as [Hl Hr]. apply Hne. rewrite Hl, Hr. apply Hall. lia.
Qed.

(** C8: [debounceButton] sleeps 1 ms before each of exactly 10
    comparison reads; it returns the level read first when each of the
    10 reads that follow it agrees with it, and -1 as soon as one of
    them differs. *)
Theorem debounceButton_spec (pin : nat -> Z) :
  let '(ret, s) := debounceButton pin in
  slept_us s = 10 * 1000 /\
  ((forall i, (1 <= i <= 10)%nat -> pin i = pin 0%nat) ->
     ret = pin 0%nat /\ reads s = 11%nat) /\
  ((exists i, (1 <= i <= 10)%nat /\ pin i <> pin 0%nat) -> ret = -1) /\
  (ret = pin 0%nat \/ ret = -1).
Proof.
  unfold debounceButton.
  assert (debounce_inv pin 10
            (for_range 0 10 (debounce_step pin) (Debounce (pin 0%nat) 0 1 0)))
    as (Hslept & Hcount & Hfull & Hiff).
  { apply (for_range_ind (debounce_inv pin)); [lia| |].
    - unfold debounce_inv. cbn [slept_us count lastState reads].
      split; [done|]. split; [lia|]. split; [done|]. split; [|done].
      intros _ i Hi. change (Z.to_nat 0) with 0%nat in Hi. lia.
    - intros j t Hj. apply debounce_inv_step. lia. }
  set (s := for_range 0 10 _ _) in *. clearbody s.
  change (Z.to_nat 10) with 10%nat in Hiff.
  split; [lia|]. destruct (Z.geb_spec (count s) 10) as [Hge|Hlt].
  - assert (count s = 10) as Hc by lia. destruct (Hfull Hc) as [Hl Hr].
    split; [done|]. split; [|by left].
    intros (i & Hi & Hne). exfalso. apply Hne. by apply Hiff.
  - split; [|split; [done|by right]].
    intros Hall. apply Hiff in Hall. lia.
Qed.

Lemma debounceButton_spec_witness :
  (debounceButton (fun _ => 1)).1 = 1 /\
  (debounceButton (fun k => if (k =? 4)%nat then 0 else 1)).1 = -1.
Proof.
  split.
  - pose proof (debounceButton_spec (fun _ => 1)) as H.
    destruct (debounceButton (fun _ => 1)) as [ret s].
    destruct H as (_ & H & _). destruct H as [H _]; [reflexivity|exact H].
  - pose proof (debounceButton_spec (fun k => if (k =? 4)%nat then 0 else 1)) as H.
    destruct (debounceButton _) as [ret s].
    destruct H as (_ & _ & H & _). apply H. exists 4%nat. cbn. lia.
Defined.

Lemma hold_loop_spec fuel pin : forall k temp check2 t c k',
  hold_loop fuel pin k temp check2 = Some (t, c, k') ->
  t <> 1 /\
  ((temp <> 1 /\ t = temp /\ c = check2 /\ k' = k) \/
   (temp = 1 /\ c = 1 /\ (k < k')%nat /\ t = pin (k' - 1)%nat /\
    forall i, (k <= i < k' - 1)%nat -> pin i = 1)).
Proof.
  induction fuel as [|fuel IH]; intros k temp check2 t c k'; cbn [hold_loop].
  - destruct (Z.eqb_spec temp 1); [done|]. intros [= <- <- <-]. split; [done|]. by left.
  - destruct (Z.eqb_spec temp 1) as [->|Hne].
    + intros Hrun. apply IH in Hrun as (Ht & [(Hp & -> & -> & ->)|(Hp & -> & Hk & -> & Hall)]).
      * split; [done|]. right. split; [done|]. split; [done|]. split; [lia|].
        split; [f_equal; lia|]. intros i Hi. lia.
      * split; [done|]. right. split; [done|]. split; [done|]. split; [lia|].
        split; [done|]. intros i Hi.
        destruct (decide (i = k)) as [->|]; [done|]. apply Hall. lia.
    + intros [= <- <- <-]. split; [done|]. by left.
Qed.

(** The polling loop on a pin that stays at 1 up to read [m] and is
    not 1 there. *)
Lemma hold_loop_release (pin : nat -> Z) (m : nat) : forall d k fuel check2,
  (k + d = m)%nat ->
  (forall i, (k <= i < m)%nat -> pin i = 1) -> pin m <> 1 ->
  (d < fuel)%nat ->
  hold_loop fuel pin k 1 check2 = Some (pin m, 1, S m).
Proof.
  induction d as [|d IH]; intros k fuel check2 Hk Hall Hm Hfuel.
  - destruct fuel as [|fuel]; [lia|]. cbn [hold_loop Z.eqb Pos.eqb].
    assert (k = m) as -> by lia.
    destruct fuel; cbn [hold_loop]; by destruct (Z.eqb_spec (pin m) 1).
  - destruct fuel as [|fuel]; [lia|]. cbn [hold_loop Z.eqb Pos.eqb].
    rewrite Hall by lia. apply IH; [lia| |done|lia]. intros i Hi. apply Hall. lia.
Qed.

(** C10 (amended): [Button_Lock] yields a defined value, which is
    then 1, only when the first two reads are 1 and the pin later
    leaves 1 (press, hold, release).  When the first read is not 1, in
    particular when it is 0, the run falls from [case IDLE] into [case
    LOCKED] and reads [temp] unassigned, so no value is defined.  What
    follows depends on the value that this read produces: when it is
    not 1 the run passes both tests, frees the pin and reaches the end
    of the function without a [return]; when it is 1 the polling loop
    is entered, and once the pin reads something else than 1, on read
    [m], the [return] is executed with 1, after [m + 1] reads and
    without [lgGpioFree].  The fuel-free run on a pin at rest is of the
    first kind. *)
Theorem Button_Lock_spec (indet : Z) (fuel : nat) (pin : nat -> Z) :
  (forall v, defined_result (Button_Lock indet fuel pin) = Some v ->
     v = 1 /\ pin 0%nat = 1 /\ pin 1%nat = 1 /\
     exists m, (2 <= m)%nat /\ (forall i, (i < m)%nat -> pin i = 1) /\ pin m <> 1) /\
  (pin 0%nat <> 1 ->
     uninit_read (Button_Lock indet fuel pin) = true /\
     defined_result (Button_Lock indet fuel pin) = None /\
     (indet <> 1 ->
        outcome (Button_Lock indet fuel pin) = Some FellOffEnd /\
        gpio_freed (Button_Lock indet fuel pin) = true) /\
     (indet = 1 ->
        forall m, (1 <= m <= fuel)%nat ->
          (forall i, (1 <= i < m)%nat -> pin i = 1) -> pin m <> 1 ->
          Button_Lock indet fuel pin = LockRun (Some (Return 1)) true false (S m))) /\
  Button_Lock 0 0 (fun _ => 0) = LockRun (Some FellOffEnd) true true 1.
Proof.
  split; [|split; [|reflexivity]].
  - intros v. unfold Button_Lock, defined_result.
    destruct (Z.eqb_spec (pin 0%nat) 1) as [H0|H0]; cbn [Z.eqb Pos.eqb].
    + destruct (hold_loop fuel pin 2 (pin 1%nat) 0) as [[[t c] k']|] eqn:Hrun;
        cbn [outcome uninit_read]; [|done].
      apply hold_loop_spec in Hrun as (Ht & [(Hp & -> & -> & ->)|(Hp & -> & Hk & -> & Hall)]);
        cbn [Z.eqb Pos.eqb outcome uninit_read]; [done|].
      intros [= <-]. split; [done|]. split; [done|]. split; [done|].
      exists (k' - 1)%nat. split; [lia|]. split; [|done].
      intros i Hi. destruct (decide (i = 0%nat)) as [->|]; [done|].
      destruct (decide (i = 1%nat)) as [->|]; [done|]. apply Hall. lia.
    + destruct (hold_loop fuel pin 1 indet 0) as [[[t c] k']|]; cbn [outcome uninit_read];
        [|done]. by destruct (c =? 1); cbn [outcome uninit_read].
  - intros H0. unfold Button_Lock, defined_result.
    destruct (Z.eqb_spec (pin 0%nat) 1) as [|_]; [done|]. cbn [Z.eqb Pos.eqb].
    split; [|split; [|split]].
    + destruct (hold_loop fuel pin 1 indet 0) as [[[t c] k']|]; [|done].
      by destruct (c =? 1).
    + destruct (hold_loop fuel pin 1 indet 0) as [[[t c] k']|]; [|done].
      by destruct (c =? 1).
    + intros Hi.
      assert (hold_loop fuel pin 1 indet 0 = Some (indet, 0, 1%nat)) as ->.
      { destruct fuel; cbn [hold_loop]; by destruct (Z.eqb_spec indet 1). }
      done.
    + intros -> m Hm Hall Hpm.
      rewrite (hold_loop_release pin m (m - 1) 1 fuel 0); [done|lia| |done|lia].
      intros i Hi. apply Hall. lia.
Qed.

Lemma Button_Lock_spec_witness :
  (let pin := fun k => if (k <? 4)%nat then 1 else 0 in
   defined_result (Button_Lock 7 10 pin) = Some 1 /\
   exists m, (2 <= m)%nat /\ (forall i, (i < m)%nat -> pin i = 1) /\ pin m <> 1) /\
  (let pin := fun _ : nat => 0 in
   uninit_read (Button_Lock 7 10 pin) = true /\
   defined_result (Button_Lock 7 10 pin) = None /\
   outcome (Button_Lock 7 10 pin) = Some FellOffEnd).
Proof.
  split.
  - cbv zeta. split; [reflexivity|].
    apply (proj1 (Button_Lock_spec 7 10 (fun k => if (k <? 4)%nat then 1 else 0)) 1).
    reflexivity.
  - cbv zeta.
    destruct (proj1 (proj2 (Button_Lock_spec 7 10 (fun _ => 0))) ltac:(lia))
      as (H1 & H2 & H3). split; [done|]. split; [done|]. apply H3. lia.
Defined.

(** C10 (counterexample to the claim as it was made): the first read
    is 0, no press is in progress, and still the run executes
    [return num] with 1, after two reads: the unassigned [temp]
    happened to hold 1. *)
Lemma Button_Lock_returns_on_resting_pin :
  (fun _ : nat => 0) 0%nat = 0 /\
  Button_Lock 1 10 (fun _ => 0) = LockRun (Some (Return 1)) true false 2.
Proof. split; reflexivity. Qed.

End ButtonFacts.

Module MisuseFacts.
Import Driver Session PassFacts PoolFacts SessionFacts.

(** C7: while a display is active both start functions return -1 and
    leave the driver as it is (no thread is created, no flag written);
    [stop_display] on an inactive driver changes nothing; on an active
    one it clears the flag and joins the worker; hence the flag is
    clear after any [stop_display], a second call in a row changes
    nothing, and so does a call on a driver never started. *)
Theorem caller_misuse_is_harmless (st : driver) (file_exists mkfifo_ok spawn_ok : bool) :
  (display_active st = true ->
     start_video_display file_exists spawn_ok st = (-1, st) /\
     start_realtime_display mkfifo_ok spawn_ok st = (-1, st)) /\
  (display_active st = false -> stop_display st = st) /\
  (display_active st = true ->
     display_active (stop_display st) = false /\
     display_thread (stop_display st) = None /\
     joined (stop_display st) = S (joined st)) /\
  display_active (stop_display st) = false /\
  stop_display (stop_display st) = stop_display st /\
  stop_display boot = boot.
Proof.
  unfold start_video_display, start_realtime_display, stop_display.
  destruct (display_active st) eqn:Ha; simpl_st.
  - repeat split; try done.
  - rewrite Ha. repeat split; try done.
Qed.

Lemma caller_misuse_is_harmless_witness :
  let st := (start_realtime_display true true boot).2 in
  (start_video_display true true st = (-1, st) /\
   start_realtime_display true true st = (-1, st)) /\
  (display_active (stop_display st) = false /\
   display_thread (stop_display st) = None /\
   joined (stop_display st) = S (joined st)) /\
  stop_display boot = boot.
Proof.
  cbv zeta.
  pose proof (caller_misuse_is_harmless (start_realtime_display true true boot).2
                true true true) as (H1 & _ & H3 & _ & _ & H6).
  split; [apply H1; reflexivity|]. split; [apply H3; reflexivity|exact H6].
Defined.

(** The pipe set-up of [start_realtime_display]: an absent path is
    created as a FIFO with the bits of 0666 that the mask of the
    process leaves (0644 under the mask 022), and a present one is
    taken as it is. *)
Lemma start_realtime_display_setup (st : driver) :
  display_active st = false ->
  (pipe_path st = None ->
     pipe_path (start_realtime_display true true st).2
       = Some (Node Fifo (created_mode mode_rw_all st)) /\
     (umask st = 18 -> created_mode mode_rw_all st = 420) /\
     pipe_created (start_realtime_display true true st).2 = true /\
     (start_realtime_display true true st).1 = 0) /\
  (pipe_path st = None -> start_realtime_display false true st = (-1, st)) /\
  (forall n, pipe_path st = Some n ->
     pipe_path (start_realtime_display true true st).2 = Some n /\
     pipe_created (start_realtime_display true true st).2 = pipe_created st /\
     (start_realtime_display true true st).1 = 0 /\
     display_thread (start_realtime_display true true st).2 = Some PipeWorker).
Proof.
  intros Ha. unfold start_realtime_display. rewrite Ha.
  split; [|split].
  - intros ->. simpl_st. split; [done|]. split; [|done].
    unfold created_mode. by intros ->.
  - intros ->. reflexivity.
  - intros n Hn. rewrite Hn. by simpl_st.
Qed.

(** The check of [capture_video]: a path that is there and is no FIFO
    ends the capture with -1 before anything is started. *)
Lemma capture_video_rejects (st : driver) (n : node) yuv h264 ch mk sp pid ex sys
    pipe seen extra cap :
  pipe_path st = Some n -> node_kind n <> Fifo ->
  (forall e, yuv <> OpenFailed e) -> (forall e, h264 <> OpenFailed e) ->
  capture_video yuv h264 true ch mk sp pid ex sys pipe seen extra cap st
  = Some (-1, cap, st).
Proof.
  intros Hp Hk Hy Hh. unfold capture_video.
  destruct yuv; [| |by destruct (Hy errno)]; (destruct h264; [| |by destruct (Hh errno)]);
    rewrite Hp; by destruct (node_kind n).
Qed.

(** C9 (the source departs from it): a regular file sits at the pipe
    path and no display is active.  [capture_video] refuses it, but
    [start_realtime_display], which the main program calls on its
    own, returns 0 with the flag set and the pipe worker created; the
    path is still a regular file. *)
Theorem start_realtime_display_takes_any_node :
  let st := set_pipe_path (Some (Node Regular 420)) boot in
  let st' := (start_realtime_display true true st).2 in
  (start_realtime_display true true st).1 = 0 /\
  display_active st' = true /\
  display_thread st' = Some PipeWorker /\
  pipe_path st' = Some (Node Regular 420) /\
  (forall chmod_ok exec_ok pipe seen extra,
     capture_video Opened Opened true chmod_ok true true 1 exec_ok 0 pipe seen
       extra false st = Some (-1, false, st)).
Proof. cbv zeta. repeat split. Qed.

End MisuseFacts.

Module StreamFacts.
Import Driver Session PassFacts PoolFacts SessionFacts FileFacts.

Lemma available_stream pipe : available pipe = Z.of_nat (length (stream pipe)).
Proof.
  induction pipe as [|[b l| |] pipe IH]; cbn [available stream]; try done.
  rewrite length_app. lia.
Qed.

Lemma write_bytes_at p off (l : list Z) st blk :
  heap st !! p = Some blk ->
  0 <= off -> off + Z.of_nat (length l) <= Z.of_nat (length blk) ->
  write_bytes p off l st
    = set_heap (<[p := take (Z.to_nat off) blk ++ (Some <$> l)
                       ++ drop (Z.to_nat off + length l) blk]> (heap st)) st.
Proof.
  intros Hb H0 Hl. unfold write_bytes. rewrite Hb.
  destruct (Z.leb_spec 0 off); [|lia].
  destruct (Z.leb_spec (off + Z.of_nat (length l)) (Z.of_nat (length blk))); [|lia].
  done.
Qed.

Lemma take_middle {A : Type} (l1 l2 l3 : list A) n :
  n = (length l1 + length l2)%nat -> take n (l1 ++ l2 ++ l3) = l1 ++ l2.
Proof. intros ->. rewrite app_assoc, <- length_app. apply take_app_length. Qed.

Lemma stream_rest (b : Z) l rest n :
  stream (match drop n (b :: l) with
          | [] => rest
          | b' :: l' => Bytes b' l' :: rest
          end) = drop n (b :: l) ++ stream rest.
Proof. by destruct (drop n (b :: l)). Qed.

(** What one accumulation loop leaves in its buffer. *)
Lemma fill_frame_content pipe : forall buf t st blk (acc : list Z),
  heap st !! buf = Some blk ->
  length blk = Z.to_nat frame_size ->
  t = Z.of_nat (length acc) -> t <= frame_size ->
  take (length acc) blk = Some <$> acc ->
  forall t' rest st',
  fill_frame pipe buf t st = Filled t' rest st' ->
  exists data blk',
    t' = t + Z.of_nat (length data) /\
    heap st' !! buf = Some blk' /\
    length blk' = Z.to_nat frame_size /\
    take (length (acc ++ data)) blk' = Some <$> (acc ++ data) /\
    (t' = frame_size -> stream pipe = data ++ stream rest) /\
    (forall q, q <> buf -> heap st' !! q = heap st !! q) /\
    brk st' = brk st.
Proof.
  assert (frame_size = Z.of_nat (Z.to_nat frame_size)) as Hfs
    by (by rewrite frame_size_nat).
  induction pipe as [|c pipe IH]; intros buf t st blk acc Hb Hlen Ht Hle Htake t' rest st';
    cbn [fill_frame].
  - assert (exists data blk', t = t + Z.of_nat (length data) /\
              heap st !! buf = Some blk' /\ length blk' = Z.to_nat frame_size /\
              take (length (acc ++ data)) blk' = Some <$> (acc ++ data) /\
              (t = frame_size -> stream [] = data ++ stream []) /\
              (forall q, q <> buf -> heap st !! q = heap st !! q) /\ brk st = brk st) as Hhere.
    { exists [], blk. rewrite app_nil_r. cbn [length stream app]. repeat split; try done; lia. }
    destruct (t <? frame_size); [|by intros [= <- <- <-]].
    pose proof (observe_active_frame st) as Ho. cbv zeta in Ho.
    destruct (observe_active st) as [[] st1]; [done|]. cbn [snd] in Ho.
    destruct Ho as (Hh & Hk & _). intros [= <- <- <-]. by rewrite Hh, Hk.
  - assert (forall rest0 s, heap s = heap st -> brk s = brk st -> t < frame_size \/ rest0 = c :: pipe ->
              exists data blk', t = t + Z.of_nat (length data) /\
              heap s !! buf = Some blk' /\ length blk' = Z.to_nat frame_size /\
              take (length (acc ++ data)) blk' = Some <$> (acc ++ data) /\
              (t = frame_size -> stream (c :: pipe) = data ++ stream rest0) /\
              (forall q, q <> buf -> heap s !! q = heap st !! q) /\ brk s = brk st) as Hhere.
    { intros rest0 s Hh Hk Hr. exists [], blk. rewrite app_nil_r, Hh, Hk. cbn [length app].
      repeat split; try done; try lia. intros ->. destruct Hr as [?| ->]; [lia|done]. }
    destruct (Z.ltb_spec t frame_size) as [Hlt|Hge];
      [|intros [= <- <- <-]; apply Hhere; auto].
    pose proof (observe_active_frame st) as Ho. cbv zeta in Ho.
    destruct (observe_active st) as [[] st1]; cbn [snd] in Ho;
      destruct Ho as (Hh & Hk & _);
      [|intros [= <- <- <-]; apply Hhere; auto].
    destruct c as [b l| |]; [|intros [= <- <- <-]; apply Hhere; auto..].
    assert (heap st1 !! buf = Some blk) as Hb1 by congruence.
    destruct (Z.leb_spec (Z.of_nat (length (b :: l))) (frame_size - t)) as [Hfit|Hbig].
    + rewrite (write_bytes_at buf t (b :: l) st1 blk) by (done || lia).
      intros Hrun.
      eapply (IH buf _ _ _ (acc ++ b :: l)) in Hrun as
        (data & blk' & E1 & E2 & E3 & E4 & E5 & E6 & E7).
      * exists ((b :: l) ++ data), blk'. rewrite app_assoc.
        split; [rewrite E1, length_app; lia|]. split; [done|]. split; [done|].
        split; [done|]. split; [|split].
        -- intros Hfull. cbn [stream]. rewrite <- app_assoc. f_equal. by apply E5.
        -- intros q Hq. rewrite E6 by done. simpl_st. rewrite lookup_insert_ne by done.
           by rewrite Hh.
        -- rewrite E7. by simpl_st.
      * simpl_st. apply lookup_insert_eq.
      * rewrite !length_app, length_take, length_fmap, length_drop. lia.
      * rewrite length_app. lia.
      * lia.
      * rewrite Ht, Nat2Z.id. rewrite take_middle.
        -- by rewrite Htake, fmap_app.
        -- rewrite length_app, length_take, length_fmap. lia.
    + rewrite (write_bytes_at buf t _ st1 blk);
        [|done|lia|rewrite length_take; lia].
      intros [= <- <- <-].
      exists (take (Z.to_nat (frame_size - t)) (b :: l)).
      eexists. split; [rewrite length_take; lia|].
      split; [simpl_st; apply lookup_insert_eq|].
      split; [rewrite !length_app, length_take, length_fmap, !length_take, length_drop; lia|].
      split; [|split; [|split]].
      * rewrite Ht, Nat2Z.id. rewrite take_middle.
        -- by rewrite Htake, fmap_app.
        -- rewrite length_app, length_fmap, !length_take. cbn [length] in *. lia.
      * intros _. cbn [stream]. rewrite stream_rest, app_assoc. by rewrite take_drop.
      * intros q Hq. simpl_st. rewrite lookup_insert_ne by done. by rewrite Hh.
      * by simpl_st.
Qed.

Lemma malloc_wf n st :
  wf st ->
  wf (malloc n st).2 /\
  requests (malloc n st).2 = requests st /\
  (forall q, (q < brk st)%nat -> heap (malloc n st).2 !! q = heap st !! q) /\
  ((malloc n st).1 = NULL \/
   ((malloc n st).1 = brk st /\ brk (malloc n st).2 = S (brk st) /\
    heap (malloc n st).2 !! brk st = Some (replicate (Z.to_nat n) None))).
Proof.
  intros [H0 Hfresh].
  destruct (malloc_cases n st) as [(E1 & plan & _ & E2)|(E1 & E2 & _)]; rewrite E1, E2.
  - split; [by split|]. split; [done|]. split; [done|]. by left.
  - simpl_st. split; [split; simpl_st; [lia|]|split; [done|split]].
    + intros p Hp. rewrite lookup_insert_ne by lia. apply Hfresh. lia.
    + intros q Hq. by rewrite lookup_insert_ne by lia.
    + right. split; [done|]. split; [done|]. apply lookup_insert_eq.
Qed.


Lemma wf_live p blk st : wf st -> heap st !! p = Some blk -> (p < brk st)%nat.
Proof.
  intros [_ Hfresh] Hp. destruct (Nat.lt_ge_cases p (brk st)) as [|Hge]; [done|].
  rewrite Hfresh in Hp by done. done.
Qed.

Lemma sel_next (b0 b1 : nat) ab :
  ab = 0 \/ ab = 1 ->
  (1 - ab = 0 \/ 1 - ab = 1) /\
  ((sel (b0, b1) ab = b0 /\ sel (b0, b1) (1 - ab) = b1) \/
   (sel (b0, b1) ab = b1 /\ sel (b0, b1) (1 - ab) = b0)).
Proof. intros [-> | ->]; cbn; auto. Qed.

Lemma full_block (blk : list (option Z)) (data : list Z) :
  length blk = length data -> take (length data) blk = Some <$> data ->
  blk = Some <$> data.
Proof. intros Hl Ht. rewrite <- Ht. symmetry. apply take_ge. lia. Qed.

(** The frames the main loop shows are the one in hand and then the
    frames the pipe delivers after it, in order, byte for byte. *)
Lemma pipe_loop_content fuel (b0 b1 : nat) :
  forall ab t rec pipe handed0 st (cur : list Z),
  ready b0 b1 st ->
  ab = 0 \/ ab = 1 ->
  heap st !! sel (b0, b1) ab = Some (Some <$> cur) ->
  length cur = Z.to_nat frame_size ->
  exists frames,
    requests (final (pipe_loop fuel (b0, b1) ab t rec pipe handed0 st))
      = rev (req <$> frames) ++ requests st /\
    Forall (fun f => length f = Z.to_nat frame_size) frames /\
    concat frames `prefix_of` cur ++ stream pipe.
Proof.
  assert (0 <= frame_size) as Hfs0 by (rewrite frame_size_eq; lia).
  induction fuel as [|fuel IH]; intros ab t rec pipe handed0 st cur Hready Hab Hcur Hlen.
  - exists []. cbn [pipe_loop final]. split; [done|]. split; [constructor|].
    apply prefix_nil.
  - cbn [pipe_loop].
    pose proof (observe_active_frame st) as Ho. cbv zeta in Ho.
    destruct (observe_active st) as [active st1]. cbn [fst snd] in Ho.
    destruct Ho as (Hh1 & Hk1 & _ & Hr1 & _).
    destruct active.
    2:{ exists []. unfold pipe_cleanup. cbn [final fst snd].
        destruct (free_frame b1 (free b0 st1)) as (-> & _).
        destruct (free_frame b0 st1) as (-> & _).
        split; [done|]. split; [constructor|]. apply prefix_nil. }
    destruct Hready as (Hwf & Hne & (blk0 & Hb0 & Hl0) & (blk1 & Hb1 & Hl1)).
    assert (wf st1) as Hwf1.
    { destruct Hwf as [H0 Hfresh]. split; [lia|]. intros p Hp. rewrite Hh1.
      apply Hfresh. lia. }
    destruct (display_camera_frame_frame (sel (b0, b1) ab) frame_size st1)
      as (_ & _ & _ & _ & _ & _ & _ & Hr2 & Hk2).
    destruct (display_camera_frame_keeps (sel (b0, b1) ab) frame_size st1 Hwf1)
      as [Hwf2 Hkeep].
    set (st2 := display_camera_frame (sel (b0, b1) ab) frame_size st1) in *.
    rewrite Hh1, Hcur, Hr1 in Hr2.
    assert (b0 < brk st1)%nat as Hlt0 by (rewrite Hk1; by eapply wf_live).
    assert (b1 < brk st1)%nat as Hlt1 by (rewrite Hk1; by eapply wf_live).
    assert (heap st2 !! b0 = Some blk0) as Hb0' by (rewrite Hkeep, Hh1 by done; done).
    assert (heap st2 !! b1 = Some blk1) as Hb1' by (rewrite Hkeep, Hh1 by done; done).
    clearbody st2.
    destruct (sel_next b0 b1 ab Hab) as (Hab' & Hsel).
    set (nxt := sel (b0, b1) (1 - ab)) in *.
    assert (exists blkn, heap st2 !! nxt = Some blkn /\ length blkn = Z.to_nat frame_size)
      as (blkn & Hbn & Hln).
    { destruct Hsel as [[_ E]|[_ E]]; rewrite E; eauto. }
    pose proof (fill_frame_requests pipe nxt 0 st2) as Hrq.
    pose proof (fill_frame_content pipe nxt 0 st2 blkn [] Hbn Hln eq_refl Hfs0 eq_refl)
      as Hcontent.
    destruct (fill_frame pipe nxt 0 st2) as [t' rest st3|st3] eqn:Hfill;
      cbn [fill_state] in Hrq.
    2:{ exists [cur]. cbn [final]. rewrite Hrq, Hr2. split; [done|].
        split; [by repeat constructor|]. cbn [concat]. rewrite app_nil_r.
        by apply prefix_app_r. }
    pose proof (fill_frame_bound _ _ _ _ _ _ _ Hfs0 Hfill) as Hb.
    destruct (Hcontent _ _ _ eq_refl) as (data & blk' & E1 & E2 & E3 & E4 & E5 & E6 & E7).
    destruct (Z.ltb_spec t' frame_size).
    + exists [cur]. unfold pipe_cleanup. cbn [final fst snd].
      destruct (free_frame b1 (free b0 st3)) as (-> & _).
      destruct (free_frame b0 st3) as (-> & _). rewrite Hrq, Hr2.
      split; [done|]. split; [by repeat constructor|]. cbn [concat].
      rewrite app_nil_r. by apply prefix_app_r.
    + assert (t' = frame_size) as -> by lia.
      cbn [app] in E4.
      assert (length data = Z.to_nat frame_size) as Hld by lia.
      apply full_block in E4; [|lia]. subst blk'.
      assert (sel (b0, b1) ab <> nxt) as Hdiff.
      { destruct Hsel as [[-> E]|[-> E]]; rewrite E; auto. }
      assert (ready b0 b1 st3) as Hready3.
      { split; [|split; [done|]].
        - destruct Hwf2 as [H0 Hfresh]. split; [lia|]. intros p Hp. rewrite E7 in Hp.
          destruct (decide (p = nxt)) as [->|Hpn].
          + assert (nxt < brk st2)%nat; [|lia].
            eapply wf_live; [by split|done].
          + rewrite E6 by done. by apply Hfresh.
        - destruct Hsel as [[Ea En]|[Ea En]]; rewrite Ea, En in *.
          + split; [exists blk0; by rewrite E6 by auto|eauto].
          + split; [eauto|exists blk1; by rewrite E6 by auto]. }
      destruct (IH (1 - ab) frame_size (rec + 1) rest (t :: handed0) st3 data
                  Hready3 Hab' E2 Hld) as (frames & F1 & F2 & F3).
      exists (cur :: frames). rewrite F1, Hrq, Hr2. cbn [fmap list_fmap rev].
      rewrite <- app_assoc. split; [done|]. split; [by constructor|].
      cbn [concat]. apply prefix_app. rewrite (E5 eq_refl). done.
Qed.

Lemma pipe_thread_func_content fuel p st :
  wf st ->
  exists frames,
    requests (final (pipe_thread_func fuel (Some p) st))
      = rev (req <$> frames) ++ requests st /\
    Forall (fun f => length f = Z.to_nat frame_size) frames /\
    concat frames `prefix_of` stream p.
Proof.
  intros Hwf.
  assert (0 <= frame_size) as Hfs0 by (rewrite frame_size_eq; lia).
  assert (forall s, requests s = requests st ->
            exists frames : list (list Z),
              requests s = rev (req <$> frames) ++ requests st /\
              Forall (fun f => length f = Z.to_nat frame_size) frames /\
              concat frames `prefix_of` stream p) as Hnone.
  { intros s Hs. exists []. split; [done|]. split; [constructor|apply prefix_nil]. }
  unfold pipe_thread_func.
  destruct (malloc_wf frame_size st Hwf) as (Hwf1 & Hr1 & Hk1 & Hp1).
  destruct (malloc frame_size st) as [b0 st1]. cbn [fst snd] in *.
  destruct (decide (b0 = NULL)) as [|Hn0]; [cbn [final]; by apply Hnone|].
  destruct Hp1 as [|(-> & Hbrk1 & Hblk1)]; [done|].
  destruct (malloc_wf frame_size st1 Hwf1) as (Hwf2 & Hr2 & Hk2 & Hp2).
  destruct (malloc frame_size st1) as [b1 st2]. cbn [fst snd] in *.
  destruct (decide (b1 = NULL)) as [|Hn1].
  { cbn [final]. apply Hnone. simpl_st.
    destruct (free_frame (brk st) st2) as (-> & _). congruence. }
  destruct Hp2 as [|(-> & Hbrk2 & Hblk2)]; [done|].
  assert (heap st2 !! brk st = Some (replicate (Z.to_nat frame_size) None)) as Hblk1'.
  { rewrite Hk2 by lia. done. }
  pose proof (fill_frame_requests p (brk st) 0 st2) as Hrq.
  pose proof (fill_frame_content p (brk st) 0 st2 _ [] Hblk1'
                (length_replicate _ _) eq_refl Hfs0 eq_refl) as Hcontent.
  destruct (fill_frame p (brk st) 0 st2) as [t rest st3|st3] eqn:Hfill;
    cbn [fill_state] in Hrq.
  2:{ cbn [final]. apply Hnone. congruence. }
  pose proof (fill_frame_bound _ _ _ _ _ _ _ Hfs0 Hfill) as Hb.
  destruct (Hcontent _ _ _ eq_refl) as (data & blk' & E1 & E2 & E3 & E4 & E5 & E6 & E7).
  destruct (Z.ltb_spec t frame_size).
  { cbn [final]. apply Hnone. simpl_st.
    destruct (free_frame (brk st1) (free (brk st) st3)) as (-> & _).
    destruct (free_frame (brk st) st3) as (-> & _). congruence. }
  assert (t = frame_size) as -> by lia.
  cbn [app] in E4.
  assert (length data = Z.to_nat frame_size) as Hld by lia.
  apply full_block in E4; [|lia]. subst blk'.
  assert (ready (brk st) (brk st1) st3) as Hready.
  { split; [|split; [lia|split]].
    - destruct Hwf2 as [H0 Hfresh]. split; [lia|]. intros q Hq. rewrite E7 in Hq.
      rewrite E6 by lia. by apply Hfresh.
    - eauto.
    - eexists. rewrite E6 by lia. split; [done|]. apply length_replicate. }
  destruct (pipe_loop_content fuel (brk st) (brk st1) 0 frame_size 1 rest [] st3 data
              Hready ltac:(by left) E2 Hld) as (frames & F1 & F2 & F3).
  exists frames. rewrite F1, Hrq, Hr2, Hr1. split; [done|]. split; [done|].
  by rewrite (E5 eq_refl).
Qed.

(** A pipe that holds an end of stream or an error never leaves a read
    waiting: filling stops short of a frame, or the end is still
    ahead. *)
Lemma fill_frame_closes pipe buf : forall t st,
  Exists (fun c => c = Eof \/ c = Fail) pipe ->
  match fill_frame pipe buf t st with
  | Stalled _ => False
  | Filled t' rest _ => t' < frame_size \/ Exists (fun c => c = Eof \/ c = Fail) rest
  end.
Proof.
  induction pipe as [|c pipe IH]; intros t st Hex; [by apply Exists_nil in Hex|].
  cbn [fill_frame]. destruct (Z.ltb_spec t frame_size) as [Hlt|Hge]; [|by right].
  destruct (observe_active st) as [[] s1]; [|by left].
  destruct c as [b l| |]; [|by left..].
  apply Exists_cons in Hex as [[?|?]|Hex]; [done..|].
  destruct (_ <=? _); [by apply IH|].
  right. destruct (drop _ _); [done|]. by apply Exists_cons_tl.
Qed.

Lemma pipe_loop_closes fuel fb : forall ab t rec pipe shown st,
  Exists (fun c => c = Eof \/ c = Fail) pipe ->
  how (pipe_loop fuel fb ab t rec pipe shown st) <> Waiting.
Proof.
  induction fuel as [|fuel IH]; intros ab t rec pipe shown st Hex; cbn [pipe_loop]; [done|].
  destruct (observe_active st) as [[] s1]; [|done].
  pose proof (fill_frame_closes pipe (sel fb (1 - ab)) 0
                (display_camera_frame (sel fb ab) frame_size s1) Hex) as Hfill.
  destruct (fill_frame _ _ _ _) as [t' rest s2|s2]; [|done].
  destruct (Z.ltb_spec t' frame_size); [done|].
  apply IH. destruct Hfill; [lia|done].
Qed.

Lemma pipe_thread_func_closes fuel p st :
  Exists (fun c => c = Eof \/ c = Fail) p ->
  how (pipe_thread_func fuel (Some p) st) <> Waiting.
Proof.
  intros Hex. unfold pipe_thread_func.
  destruct (malloc frame_size st) as [b0 s1]. case_decide; [done|].
  destruct (malloc frame_size s1) as [b1 s2]. case_decide; [done|].
  pose proof (fill_frame_closes p b0 0 s2 Hex) as Hfill.
  destruct (fill_frame _ _ _ _) as [t' rest s3|s3]; [|done].
  destruct (Z.ltb_spec t' frame_size); [done|].
  apply pipe_loop_closes. destruct Hfill; [lia|done].
Qed.
(** C4: whatever the producer, the stop requests and the allocator
    do, the pipe worker calls [display_camera_frame] only with a buffer
    for which [total_read] reached the frame size, so it shows at most
    as many frames as the pipe delivered in full; if the pipe ends,
    fails or stops with less than one frame delivered, nothing is
    shown at all, the worker does not enter its main loop and, when it
    returns, it has cleared [display_active].  The buffers shown hold,
    in order and byte for byte, consecutive full frames from the start
    of the stream: no part of a frame is ever shown.  And the end of
    the stream or an error is fatal: a pipe that the producer closes,
    or that fails, never leaves the worker waiting; with fuel for the
    frames delivered the worker returns, and when less than one frame
    was delivered it returns whatever the fuel, with nothing shown and
    [display_active] cleared. *)
Theorem pipe_thread_func_full_frames_only (fuel : nat) (p : list chunk) (st : driver) :
  let r := pipe_thread_func fuel (Some p) st in
  Forall (fun t => t = frame_size) (handed r) /\
  frame_size * Z.of_nat (length (handed r)) <= available p /\
  (available p < frame_size ->
     handed r = [] /\ requests (final r) = requests st /\
     how r <> OutOfFuel /\
     (how r = Returned -> display_active (final r) = false)) /\
  (available p < Z.of_nat (S fuel) * frame_size -> how r <> OutOfFuel) /\
  (wf st ->
     exists frames,
       requests (final r) = rev (req <$> frames) ++ requests st /\
       length frames = length (handed r) /\
       Forall (fun f => length f = Z.to_nat frame_size) frames /\
       concat frames `prefix_of` stream p) /\
  (Exists (fun c => c = Eof \/ c = Fail) p ->
     how r <> Waiting /\
     (available p < Z.of_nat (S fuel) * frame_size -> how r = Returned) /\
     (available p < frame_size ->
        how r = Returned /\ handed r = [] /\ display_active (final r) = false)).
Proof.
  cbv zeta.
  destruct (pipe_thread_func_handed fuel p st) as (H1 & (reqs & H2 & H2') & H3 & H4 & H5).
  split; [done|]. split; [done|]. split; [done|]. split; [done|]. split.
  - intros Hwf. destruct (pipe_thread_func_content fuel p st Hwf) as (frames & F1 & F2 & F3).
    exists frames. split; [done|]. split; [|done].
    rewrite F1 in H2. apply app_inv_tail in H2.
    rewrite <- H2', <- H2, length_rev, length_fmap. done.
  - intros Hex. pose proof (pipe_thread_func_closes fuel p st Hex) as Hw.
    assert (available p < Z.of_nat (S fuel) * frame_size ->
            how (pipe_thread_func fuel (Some p) st) = Returned) as Hret.
    { intros Hav. specialize (H5 Hav).
      by destruct (how (pipe_thread_func fuel (Some p) st)). }
    split; [done|]. split; [done|]. intros Hav.
    destruct (H4 Hav) as (Hh & _ & _ & Hact).
    assert (how (pipe_thread_func fuel (Some p) st) = Returned) as Hr.
    { apply Hret. rewrite frame_size_eq in *. lia. }
    split; [done|]. split; [done|]. by apply Hact.
Qed.

Lemma pipe_thread_func_full_frames_only_witness :
  let r := pipe_thread_func 5 (Some [Bytes 1 [2; 3]; Eof]) (set_active true boot) in
  (handed r = [] /\ requests (final r) = requests (set_active true boot) /\
   how r <> OutOfFuel /\
   (how r = Returned -> display_active (final r) = false)) /\
  (exists frames,
    requests (final r) = rev (req <$> frames) ++ requests (set_active true boot) /\
    length frames = length (handed r) /\
    Forall (fun f => length f = Z.to_nat frame_size) frames /\
    concat frames `prefix_of` stream [Bytes 1 [2; 3]; Eof]) /\
  how r = Returned /\ handed r = [] /\ display_active (final r) = false.
Proof.
  cbv zeta.
  pose proof (pipe_thread_func_full_frames_only 5 [Bytes 1 [2; 3]; Eof]
                (set_active true boot)) as (_ & _ & H3 & _ & H5 & H6).
  split; [|split].
  - apply H3. vm_compute. reflexivity.
  - apply H5. apply wf_boot.
  - apply H6.
    + apply Exists_cons_tl, Exists_cons_hd. by left.
    + vm_compute. reflexivity.
Defined.

Lemma fill_frame_quiet pipe buf : forall t st,
  stop_after st = None ->
  stop_after (fill_state (fill_frame pipe buf t st)) = None /\
  display_active (fill_state (fill_frame pipe buf t st)) = display_active st.
Proof.
  induction pipe as [|c pipe IH]; intros t st Hs; cbn [fill_frame];
    (destruct (t <? frame_size); [|done]);
    rewrite observe_active_quiet by done;
    (destruct (display_active st) eqn:Ha; [|done]).
  - done.
  - destruct c as [b l| |]; cbn [fill_state]; [|done..].
    destruct (_ <=? _); cbn [fill_state].
    + destruct (write_bytes_frame buf t (b :: l) st) as (_ & Hw1 & Hw2 & _).
      destruct (IH (t + Z.of_nat (length (b :: l))) (write_bytes buf t (b :: l) st))
        as [-> ->]; [congruence|]. split; congruence.
    + destruct (write_bytes_frame buf t (take (Z.to_nat (frame_size - t)) (b :: l)) st)
        as (_ & -> & -> & _). done.
Qed.

(** With no stop under way, nothing in the main loop of the pipe
    worker or after it writes [display_active]: however the loop ends,
    the flag is as it was. *)
Lemma pipe_loop_keeps_flag fuel fb : forall ab t rec pipe handed0 st,
  stop_after st = None -> display_active st = true ->
  display_active (final (pipe_loop fuel fb ab t rec pipe handed0 st)) = true.
Proof.
  induction fuel as [|fuel IH]; intros ab t rec pipe handed0 st Hs Ha; [done|].
  cbn [pipe_loop]. rewrite observe_active_quiet, Ha by done.
  destruct (display_camera_frame_frame (sel fb ab) frame_size st)
    as (Ha2 & _ & _ & _ & Hs2 & _).
  set (st2 := display_camera_frame (sel fb ab) frame_size st) in *. clearbody st2.
  destruct (fill_frame_quiet pipe (sel fb (1 - ab)) 0 st2) as [Hs3 Ha3]; [congruence|].
  destruct (fill_frame pipe (sel fb (1 - ab)) 0 st2) as [t' rest st3|st3];
    cbn [fill_state final] in *; [|congruence].
  destruct (t' <? frame_size).
  - unfold pipe_cleanup. cbn [final].
    destruct (free_frame fb.2 (free fb.1 st3)) as (_ & -> & _).
    destruct (free_frame fb.1 st3) as (_ & -> & _). congruence.
  - apply IH; congruence.
Qed.
End StreamFacts.

Module PoolLife.
Import Color Driver Session Lifecycle Layout PassFacts PoolFacts SessionFacts FileFacts StreamFacts.

(** What [init_display_buffers] leaves behind when the pool is empty:
    both buffers or none. *)
Lemma init_display_buffers_cases (st : driver) :
  wf st -> oled_buffers st = (NULL, NULL) ->
  let r := init_display_buffers st in
  buffer_size r.2 = 32768 /\ fault r.2 = fault st /\ wf r.2 /\
  requests r.2 = requests st /\ presented r.2 = presented st /\
  display_active r.2 = display_active st /\
  ((r.1 = 0 /\
    oled_buffers r.2 = (brk st, S (brk st)) /\
    heap r.2 = <[S (brk st) := black]> (<[brk st := black]> (heap st)) /\
    brk r.2 = S (S (brk st)))
   \/
   (r.1 = -1 /\ oled_buffers r.2 = (NULL, NULL) /\ heap r.2 = heap st)).
Proof.
  intros [Hpos Hfresh] Hbuf. cbv zeta. unfold init_display_buffers. rewrite size_eq.
  simpl_st. rewrite Hbuf. cbn [fst snd]. rewrite decide_True by done.
  set (st0 := set_buffer_size 32768 st).
  destruct (malloc_cases 32768 st0) as [(E1 & plan & Ep & E2)|(E1 & E2 & _)];
    destruct (malloc 32768 st0) as [p st1]; cbn [fst snd] in E1, E2; subst p st1.
  - rewrite decide_True by done. cbn [fst snd Z.eqb]. subst st0. simpl_st.
    rewrite Hbuf. cbn [fst snd].
    split; [done|]. split; [done|]. split; [by split|].
    split; [done|]. split; [done|]. split; [done|]. by right.
  - subst st0. simpl_st. rewrite decide_False by (unfold NULL; lia). rewrite Hbuf.
    cbn [fst snd].
    rewrite memset_fresh; [|lia|simpl_st; apply lookup_insert_eq].
    cbn [fst snd Z.eqb]. simpl_st. rewrite decide_True by done.
    match goal with |- context [malloc 32768 ?s] => set (st2 := s) end.
    destruct (malloc_cases 32768 st2) as [(E1 & plan & Ep & E2)|(E1 & E2 & _)];
      destruct (malloc 32768 st2) as [q st3]; cbn [fst snd] in E1, E2; subst q st3.
    + subst st2. simpl_st. rewrite decide_True by done. simpl_st. cbn [fst snd].
      unfold free. rewrite decide_False by (unfold NULL; lia). simpl_st.
      rewrite lookup_insert_eq. simpl_st. cbn [fst snd].
      rewrite insert_insert_eq, delete_insert_id by (apply Hfresh; lia).
      split; [done|]. split; [done|]. split.
      { split; simpl_st; [lia|]. intros p Hp. apply Hfresh. lia. }
      split; [done|]. split; [done|]. split; [done|]. by right.
    + subst st2. simpl_st. rewrite decide_False by (unfold NULL; lia).
      rewrite memset_fresh; [|lia|simpl_st; apply lookup_insert_eq].
      simpl_st. cbn [fst snd]. rewrite !insert_insert_eq.
      split; [done|]. split; [done|]. split.
      { split; simpl_st; [lia|]. intros p Hp.
        rewrite !lookup_insert_ne by lia. apply Hfresh. lia. }
      split; [done|]. split; [done|]. split; [done|]. by left.
Qed.

(** X1: [oled_init] is all or nothing.  When the device or an
    allocation fails it returns -1 with both pool pointers [NULL] and
    the heap exactly as it was (the first buffer is released when the
    second allocation fails); when it returns 0 the two pointers are
    distinct fresh blocks of 32768 zero bytes. *)
Theorem oled_init_all_or_nothing (st : driver) :
  wf st -> oled_buffers st = (NULL, NULL) ->
  oled_init false st = (-1, st) /\
  fault (oled_init true st).2 = fault st /\
  (((oled_init true st).1 = 0 /\
    oled_buffers (oled_init true st).2 = (brk st, S (brk st)) /\
    brk st <> NULL /\ S (brk st) <> NULL /\
    heap (oled_init true st).2 !! brk st = Some black /\
    heap (oled_init true st).2 !! S (brk st) = Some black /\
    forall p, p <> brk st -> p <> S (brk st) ->
      heap (oled_init true st).2 !! p = heap st !! p)
   \/
   ((oled_init true st).1 = -1 /\
    oled_buffers (oled_init true st).2 = (NULL, NULL) /\
    heap (oled_init true st).2 = heap st)).
Proof.
  intros Hwf Hbuf. split; [done|].
  destruct (init_display_buffers_cases st Hwf Hbuf)
    as (_ & Hf & _ & _ & _ & _ & Hcase). cbv zeta in *.
  unfold oled_init. cbn [negb].
  destruct (init_display_buffers st) as [r s]. cbn [fst snd] in *.
  destruct Hcase as [(-> & Hb & Hh & Hk)|(-> & Hb & Hh)]; cbn [Z.eqb negb fst snd].
  - split; [done|]. left. split; [done|]. split; [done|].
    destruct Hwf as [Hpos _].
    split; [unfold NULL; lia|]. split; [done|]. rewrite Hh.
    split; [rewrite lookup_insert_ne by lia; apply lookup_insert_eq|].
    split; [apply lookup_insert_eq|].
    intros p H0 H1. by rewrite !lookup_insert_ne by done.
  - split; [done|]. by right.
Qed.

Lemma oled_init_all_or_nothing_witness :
  oled_init false boot = (-1, boot) /\
  fault (oled_init true boot).2 = fault boot /\
  (((oled_init true boot).1 = 0 /\
    oled_buffers (oled_init true boot).2 = (brk boot, S (brk boot)) /\
    brk boot <> NULL /\ S (brk boot) <> NULL /\
    heap (oled_init true boot).2 !! brk boot = Some black /\
    heap (oled_init true boot).2 !! S (brk boot) = Some black /\
    forall p, p <> brk boot -> p <> S (brk boot) ->
      heap (oled_init true boot).2 !! p = heap boot !! p)
   \/
   ((oled_init true boot).1 = -1 /\
    oled_buffers (oled_init true boot).2 = (NULL, NULL) /\
    heap (oled_init true boot).2 = heap boot)).
Proof. apply (oled_init_all_or_nothing boot wf_boot). reflexivity. Defined.

(** X2: a second [init_display_buffers] after a successful one
    allocates nothing and changes nothing. *)
Theorem init_display_buffers_idempotent (st : driver) :
  wf st -> oled_buffers st = (NULL, NULL) ->
  (init_display_buffers st).1 = 0 ->
  init_display_buffers (init_display_buffers st).2 = (0, (init_display_buffers st).2).
Proof.
  intros Hwf Hbuf Hok.
  destruct (init_display_buffers_cases st Hwf Hbuf)
    as (Hs & _ & _ & _ & _ & _ & Hcase). cbv zeta in *.
  destruct (init_display_buffers st) as [r s]. cbn [fst snd] in *. subst r.
  destruct Hcase as [(_ & Hb & _)|(? & _)]; [|done].
  destruct Hwf as [Hpos _].
  unfold init_display_buffers. rewrite size_eq. simpl_st. rewrite Hb. cbn [fst snd].
  rewrite decide_False by (unfold NULL; lia). cbn [fst snd Z.eqb]. simpl_st.
  rewrite Hb. cbn [fst snd]. rewrite decide_False by (unfold NULL; lia).
  f_equal. apply driver_eq; simpl_st; done.
Qed.

Lemma init_display_buffers_idempotent_witness :
  init_display_buffers (init_display_buffers boot).2
    = (0, (init_display_buffers boot).2).
Proof.
  apply (init_display_buffers_idempotent boot wf_boot); [reflexivity|].
  by rewrite (init_display_buffers_granted boot eq_refl eq_refl ltac:(cbn; lia)).
Defined.

Lemma free_display_buffers_live (st : driver) b0 b1 :
  oled_buffers st = (b0, b1) -> b0 <> NULL -> b1 <> NULL -> b0 <> b1 ->
  is_Some (heap st !! b0) -> is_Some (heap st !! b1) ->
  heap (free_display_buffers st) = delete b1 (delete b0 (heap st)) /\
  fault (free_display_buffers st) = fault st.
Proof.
  intros Hb H0 H1 Hne [x0 Hx0] [x1 Hx1]. unfold free_display_buffers.
  rewrite Hb. cbn [fst snd]. rewrite (decide_False _ _ H0).
  assert (free b0 st = set_heap (delete b0 (heap st)) st) as ->.
  { unfold free. by rewrite (decide_False _ _ H0), Hx0. }
  simpl_st. rewrite (decide_False _ _ H1).
  unfold free. rewrite (decide_False _ _ H1). simpl_st.
  rewrite lookup_delete_ne, Hx1 by done. by simpl_st.
Qed.

Lemma free_display_buffers_null (st : driver) :
  oled_buffers st = (NULL, NULL) -> free_display_buffers st = st.
Proof.
  intros Hb. unfold free_display_buffers. rewrite Hb. cbn [fst snd].
  destruct (decide (NULL = NULL)); [|done]. rewrite Hb. cbn [fst snd].
  by destruct (decide (NULL = NULL)).
Qed.

Lemma free_releases p x (st : driver) :
  p <> NULL -> heap st !! p = Some x -> free p st = set_heap (delete p (heap st)) st.
Proof. intros Hp Hx. unfold free. by rewrite (decide_False _ _ Hp), Hx. Qed.

(** [free_display_buffers] on a pool whose pointers are [NULL] or
    live, and not twice the same: the blocks of the pool go, every
    other block stays. *)
Lemma free_display_buffers_pool (s : driver) (p q : nat) :
  oled_buffers s = (p, q) ->
  p = NULL \/ is_Some (heap s !! p) -> q = NULL \/ is_Some (heap s !! q) ->
  p = NULL \/ p <> q ->
  fault (free_display_buffers s) = fault s /\
  forall x, heap (free_display_buffers s) !! x =
            if decide (x <> NULL /\ (x = p \/ x = q)) then None else heap s !! x.
Proof.
  intros Hb Hp Hq Hpq. unfold free_display_buffers. rewrite Hb. cbn [fst snd].
  destruct (decide (p = NULL)) as [->|Hp0].
  - rewrite Hb. cbn [fst snd]. destruct (decide (q = NULL)) as [->|Hq0].
    + split; [done|]. intros x. case_decide as H; [|done]. by destruct H as [? [?|?]].
    + destruct Hq as [?|[b Hb1]]; [done|]. rewrite (free_releases _ _ _ Hq0 Hb1). simpl_st.
      split; [done|]. intros x. case_decide as H.
      * destruct H as [Hx [-> | ->]]; [done|]. apply lookup_delete_eq.
      * rewrite lookup_delete_ne; [done|]. intros ->. apply H. auto.
  - destruct Hp as [?|[b Hb0]]; [done|]. destruct Hpq as [?|Hpq]; [done|].
    rewrite (free_releases _ _ _ Hp0 Hb0). simpl_st.
    destruct (decide (q = NULL)) as [->|Hq0].
    + simpl_st. split; [done|]. intros x. case_decide as H.
      * destruct H as [Hx [-> | ->]]; [|done]. apply lookup_delete_eq.
      * rewrite lookup_delete_ne; [done|]. intros ->. apply H. auto.
    + destruct Hq as [?|[b' Hb1]]; [done|].
      erewrite free_releases; [|done|simpl_st; rewrite lookup_delete_ne by done; exact Hb1].
      simpl_st. split; [done|]. intros x. case_decide as H.
      * destruct H as [_ [-> | ->]]; [|apply lookup_delete_eq].
        rewrite lookup_delete_ne by done. apply lookup_delete_eq.
      * rewrite !lookup_delete_ne; [done|intros ->; apply H; auto..].
Qed.

(** [init_display_buffers] on such a pool: the pool it leaves is of the
    same kind, each pointer of it is [NULL], the old one or fresh, and
    outside the new pool the heap is the old one without the blocks of
    the old pool. *)
Lemma init_display_buffers_pool (st : driver) (b0 b1 : nat) :
  wf st -> oled_buffers st = (b0, b1) ->
  b0 = NULL \/ is_Some (heap st !! b0) -> b1 = NULL \/ is_Some (heap st !! b1) ->
  b0 = NULL \/ b0 <> b1 ->
  let s := (init_display_buffers st).2 in
  exists p q, oled_buffers s = (p, q) /\ fault s = fault st /\
    (p = NULL \/ is_Some (heap s !! p)) /\ (q = NULL \/ is_Some (heap s !! q)) /\
    (p = NULL \/ p <> q) /\
    (p = NULL \/ p = b0 \/ (brk st <= p)%nat) /\
    (q = NULL \/ q = b1 \/ (brk st <= q)%nat) /\
    forall x, x = NULL \/ (x <> p /\ x <> q) ->
      heap s !! x = if decide (x <> NULL /\ (x = b0 \/ x = b1)) then None else heap st !! x.
Proof.
  intros [Hpos Hfresh] Hbuf S1 S2 S3. cbv zeta.
  unfold init_display_buffers. rewrite size_eq. simpl_st. rewrite Hbuf. cbn [fst snd].
  set (st0 := set_buffer_size 32768 st).
  assert (heap st !! brk st = None) as Hbrk by (apply Hfresh; lia).
  assert (heap st !! S (brk st) = None) as Hbrk1 by (apply Hfresh; lia).
  assert (b0 <> brk st) as Hb0k by (intros ->; destruct S1 as [?|[? ?]]; [unfold NULL in *; lia|congruence]).
  assert (b1 <> brk st) as Hb1k by (intros ->; destruct S2 as [?|[? ?]]; [unfold NULL in *; lia|congruence]).
  assert (b1 <> S (brk st)) as Hb1k1 by (intros ->; destruct S2 as [?|[? ?]]; [unfold NULL in *; lia|congruence]).
  assert (forall x, x <> NULL /\ (x = b0 \/ x = b1) -> x <> brk st /\ x <> S (brk st)) as Hold.
  { intros x [Hx [->| ->]]; split; try done.
    intros ->. destruct S1 as [?|[? ?]]; [done|congruence]. }
  destruct (decide (b0 = NULL)) as [->|Hb0].
  - destruct (malloc_cases 32768 st0) as [(E1 & plan & Ep & E2)|(E1 & E2 & _)];
      destruct (malloc 32768 st0) as [p st1]; cbn [fst snd] in E1, E2; subst p st1.
    + rewrite decide_True by done. cbn [fst snd Z.eqb Pos.eqb]. subst st0. simpl_st.
      exists NULL, b1. rewrite Hbuf. cbn [fst snd].
      repeat (split; [by auto|]). intros x Hx. case_decide as H; [|done].
      destruct H as [Hn [? | ->]]; [done|]. destruct Hx as [?|[_ ?]]; congruence.
    + subst st0. simpl_st. rewrite decide_False by (unfold NULL; lia). rewrite Hbuf.
      cbn [fst snd].
      rewrite memset_fresh; [|lia|simpl_st; apply lookup_insert_eq].
      cbn [fst snd Z.eqb Pos.eqb]. simpl_st. destruct (decide (b1 = NULL)) as [->|Hnb1].
      * match goal with |- context [malloc 32768 ?s] => set (st2 := s) end.
        destruct (malloc_cases 32768 st2) as [(E1 & plan & Ep & E2)|(E1 & E2 & _)];
          destruct (malloc 32768 st2) as [q st3]; cbn [fst snd] in E1, E2; subst q st3.
        -- subst st2. simpl_st. rewrite decide_True by done. simpl_st. cbn [fst snd].
           erewrite free_releases; [|unfold NULL; lia|simpl_st; apply lookup_insert_eq].
           simpl_st. exists NULL, NULL. repeat (split; [by auto|]). intros x Hx.
           rewrite decide_False by (by intros [? [?|?]]).
           destruct (decide (x = brk st)) as [->|Hxk]; [by rewrite lookup_delete_eq|].
           by rewrite lookup_delete_ne, !lookup_insert_ne by done.
        -- subst st2. simpl_st. rewrite decide_False by (unfold NULL; lia).
           cbn [fst snd].
           rewrite memset_fresh; [|lia|simpl_st; apply lookup_insert_eq].
           simpl_st. exists (brk st), (S (brk st)). split; [done|]. split; [done|].
           split; [right; rewrite !lookup_insert_ne by lia; by rewrite lookup_insert_eq|].
           split; [right; by rewrite lookup_insert_eq|]. split; [right; lia|].
           split; [right; right; lia|]. split; [right; right; lia|]. intros x Hx.
           rewrite decide_False by (by intros [? [?|?]]).
           assert (x <> brk st /\ x <> S (brk st)) as [? ?]
             by (destruct Hx as [-> | ?]; [unfold NULL; lia|done]).
           by rewrite !lookup_insert_ne by done.
      * destruct S2 as [?|S2]; [done|]. simpl_st.
        exists (brk st), b1. split; [done|]. split; [done|].
        split; [right; by rewrite lookup_insert_eq|].
        split; [right; by rewrite !lookup_insert_ne by done|]. split; [right; congruence|].
        split; [right; right; lia|]. split; [auto|]. intros x Hx.
        assert (x <> brk st) as Hxk
          by (destruct Hx as [->|[? ?]]; [unfold NULL; lia|done]).
        rewrite !lookup_insert_ne by done. case_decide as H; [|done].
        destruct H as [Hn [? | ->]]; [done|]. destruct Hx as [?|[_ ?]]; congruence.
  - destruct S1 as [?|[x0 Hx0]]; [done|]. destruct S3 as [?|S3]; [done|].
    cbn [fst snd Z.eqb Pos.eqb]. subst st0. simpl_st. rewrite Hbuf. cbn [fst snd].
    destruct (decide (b1 = NULL)) as [->|Hnb1].
    + match goal with |- context [malloc 32768 ?s] => set (st2 := s) end.
      destruct (malloc_cases 32768 st2) as [(E1 & plan & Ep & E2)|(E1 & E2 & _)];
        destruct (malloc 32768 st2) as [q st3]; cbn [fst snd] in E1, E2; subst q st3.
      * subst st2. simpl_st. rewrite decide_True by done. simpl_st. rewrite Hbuf.
        cbn [fst snd].
        erewrite free_releases; [|done|simpl_st; exact Hx0].
        simpl_st. exists NULL, NULL. repeat (split; [by auto|]). intros x Hx.
        case_decide as H.
        -- destruct H as [Hn [-> | ->]]; [apply lookup_delete_eq|done].
        -- rewrite lookup_delete_ne; [done|]. intros <-. apply H. auto.
      * subst st2. simpl_st. rewrite decide_False by (unfold NULL; lia).
        rewrite Hbuf. cbn [fst snd].
        rewrite memset_fresh; [|lia|simpl_st; apply lookup_insert_eq].
        simpl_st. exists b0, (brk st). split; [done|]. split; [done|].
        split; [right; rewrite !lookup_insert_ne by done; by rewrite Hx0|].
        split; [right; by rewrite lookup_insert_eq|]. split; [by right|].
        split; [auto|]. split; [right; right; lia|]. intros x Hx.
        assert (x <> brk st) as Hxk
          by (destruct Hx as [->|[? ?]]; [unfold NULL; lia|done]).
        rewrite !lookup_insert_ne by done. case_decide as H; [|done].
        destruct H as [Hn [-> | ->]]; [|done]. destruct Hx as [?|[? _]]; congruence.
    + destruct S2 as [?|S2]; [done|]. simpl_st.
      exists b0, b1. rewrite Hbuf. split; [done|]. split; [done|].
      split; [right; eauto|]. split; [by right|]. split; [by right|].
      split; [auto|]. split; [auto|]. intros x Hx. case_decide as H; [|done].
      destruct H as [Hn [-> | ->]]; destruct Hx as [?|[? ?]]; congruence.
Qed.

(** X3: [free_display_buffers] after [init_display_buffers], on any
    pool whose pointers are [NULL] or live and not twice the same:
    both pointers are [NULL], nothing that is not live was released,
    and the heap is the one before the initialisation without the
    blocks that the pool pointed to then, whether the initialisation
    succeeded or not.  So on an empty pool the heap is given back
    exactly, while a buffer that was there before is gone.
    [free_display_buffers] twice is [free_display_buffers] once. *)
Theorem free_after_init_releases_pool (st : driver) :
  wf st ->
  (oled_buffers st).1 = NULL \/ is_Some (heap st !! (oled_buffers st).1) ->
  (oled_buffers st).2 = NULL \/ is_Some (heap st !! (oled_buffers st).2) ->
  (oled_buffers st).1 = NULL \/ (oled_buffers st).1 <> (oled_buffers st).2 ->
  let st' := free_display_buffers (init_display_buffers st).2 in
  oled_buffers st' = (NULL, NULL) /\
  fault st' = fault st /\
  (forall x, heap st' !! x =
     if decide (x <> NULL /\ (x = (oled_buffers st).1 \/ x = (oled_buffers st).2))
     then None else heap st !! x) /\
  (oled_buffers st = (NULL, NULL) -> heap st' = heap st) /\
  forall s, free_display_buffers (free_display_buffers s) = free_display_buffers s.
Proof.
  intros Hwf S1 S2 S3. cbv zeta.
  destruct (oled_buffers st) as [b0 b1] eqn:Hbuf. cbn [fst snd] in *.
  destruct (init_display_buffers_pool st b0 b1 Hwf Hbuf S1 S2 S3)
    as (p & q & Hb & Hf & P1 & P2 & P3 & P4 & P5 & Hheap). cbv zeta in *.
  set (s := (init_display_buffers st).2) in *. clearbody s.
  destruct (free_display_buffers_pool s p q Hb P1 P2 P3) as (Hf' & Hheap').
  assert (forall x, heap (free_display_buffers s) !! x =
            if decide (x <> NULL /\ (x = b0 \/ x = b1)) then None else heap st !! x) as Hall.
  { intros x. rewrite Hheap'. case_decide as H.
    - case_decide as H'; [done|]. symmetry. apply Hwf.
      destruct H as [Hx [-> | ->]].
      + destruct P4 as [?|[-> | ?]]; [done| |done]. exfalso. apply H'. auto.
      + destruct P5 as [?|[-> | ?]]; [done| |done]. exfalso. apply H'. auto.
    - apply Hheap. destruct (decide (x = NULL)) as [?|Hx]; [by left|right].
      split; intros ->; apply H; auto. }
  split; [apply free_display_buffers_spec|]. split; [congruence|]. split; [done|].
  split.
  - intros [= -> ->]. apply map_eq. intros x. rewrite Hall.
    case_decide as H; [|done]. by destruct H as [? [?|?]].
  - intros s'. apply free_display_buffers_null, free_display_buffers_spec.
Qed.

Lemma free_after_init_releases_pool_witness :
  let st := set_plan [false]
              (set_buffers (1%nat, NULL)
                 (set_brk 2 (set_heap (<[1%nat := black]> ∅) boot))) in
  let st' := free_display_buffers (init_display_buffers st).2 in
  (init_display_buffers st).1 = -1 /\
  heap st !! 1%nat = Some black /\ heap st' !! 1%nat = None /\
  oled_buffers st' = (NULL, NULL) /\ fault st' = false.
Proof.
  cbv zeta.
  set (st := set_plan [false]
               (set_buffers (1%nat, NULL)
                  (set_brk 2 (set_heap (<[1%nat := black]> ∅) boot)))).
  destruct (free_after_init_releases_pool st) as (Hb & Hf & Hh & _).
  - split; [cbn; lia|]. intros p Hp. subst st. simpl_st.
    rewrite lookup_insert_ne by (simpl_st; lia). apply lookup_empty.
  - right. subst st. simpl_st. rewrite lookup_insert_eq. eauto.
  - by left.
  - right. done.
  - split; [reflexivity|]. split; [apply lookup_insert_eq|].
    split; [|split; [exact Hb|exact Hf]].
    rewrite Hh. subst st. simpl_st. by rewrite decide_True by auto.
Defined.
End PoolLife.

Module FrameLife.
Import Color Driver Session Lifecycle Layout PassFacts PoolFacts SessionFacts FileFacts StreamFacts.

Lemma malloc_grants n s :
  malloc_plan s !! 0%nat <> Some false ->
  malloc n s = (brk s, set_brk (S (brk s))
    (set_heap (<[brk s := replicate (Z.to_nat n) None]> (heap s))
       (set_plan (drop 1 (malloc_plan s)) s))).
Proof.
  intros Hs. unfold malloc. destruct (malloc_plan s) as [|[] plan] eqn:E; [| |done].
  - f_equal. driver_eq.
  - reflexivity.
Qed.

Lemma malloc_refuses n s :
  malloc_plan s !! 0%nat = Some false ->
  malloc n s = (NULL, set_plan (drop 1 (malloc_plan s)) s).
Proof.
  intros Hs. unfold malloc. by destruct (malloc_plan s) as [|[] plan] eqn:E.
Qed.

(** [display_camera_frame] when the allocator grants both requests,
    whatever else it has planned. *)
Lemma display_camera_frame_runs (st : driver) (fb : nat) (fs : Z) (frame : block) :
  malloc_plan st !! 0%nat <> Some false ->
  malloc_plan st !! 1%nat <> Some false ->
  (0 < fb < brk st)%nat ->
  24576 <= fs ->
  heap st !! fb = Some frame ->
  display_camera_frame fb fs st =
    let p0 := brk st in
    let p1 := S (brk st) in
    let fresh := replicate (Z.to_nat (buffer_size st)) None in
    let cur := sel (p0, p1) (current_buffer st) in
    let res := convert_frame OLED_WIDTH OLED_HEIGHT frame fresh in
    Driver (display_active st) (pipe_created st) (display_thread st) (joined st)
      (p0, p1) (1 - current_buffer st) (buffer_size st)
      (<[cur := res.1]> (<[p1 := fresh]> (<[p0 := fresh]> (heap st))))
      (S (S (brk st))) (pipe_path st) (drop 2 (malloc_plan st)) (stop_after st)
      (res.1 :: presented st) ((Some frame, fs) :: requests st)
      (if res.2 then fault st else true) (umask st).
Proof.
  intros Hp0 Hp1 Hptr Hfs Hfb.
  unfold display_camera_frame. rewrite malloc_grants by done. simpl_st.
  rewrite decide_False by (unfold NULL; lia).
  rewrite malloc_grants by (simpl_st; by rewrite lookup_drop). simpl_st.
  rewrite decide_False by (unfold NULL; lia).
  rewrite !bool_decide_eq_false_2 by (unfold NULL; lia).
  rewrite threshold_eq. destruct (Z.ltb_spec fs 24576); [lia|]. cbn [orb].
  rewrite !lookup_insert_ne by lia. rewrite Hfb.
  assert (<[S (brk st):=replicate (Z.to_nat (buffer_size st)) None]>
            (<[brk st:=replicate (Z.to_nat (buffer_size st)) None]> (heap st))
          !! sel (brk st, S (brk st)) (current_buffer st)
          = Some (replicate (Z.to_nat (buffer_size st)) None)) as ->.
  { unfold sel. destruct (current_buffer st =? 0); cbn [fst snd].
    - rewrite lookup_insert_ne by lia. apply lookup_insert_eq.
    - apply lookup_insert_eq. }
  cbv zeta. rewrite drop_drop.
  destruct (convert_frame _ _ _ _) as [out' ok]. cbn [fst snd].
  destruct ok; driver_eq.
Qed.

(** [display_camera_frame] on a frame it does not accept, both
    requests granted. *)
Lemma display_camera_frame_skips (st : driver) (fb : nat) (fs : Z) :
  malloc_plan st !! 0%nat <> Some false ->
  malloc_plan st !! 1%nat <> Some false ->
  (0 < brk st)%nat ->
  fb = NULL \/ fs < 24576 ->
  display_camera_frame fb fs st =
    let fresh := replicate (Z.to_nat (buffer_size st)) None in
    Driver (display_active st) (pipe_created st) (display_thread st) (joined st)
      (brk st, S (brk st)) (current_buffer st) (buffer_size st)
      (<[S (brk st) := fresh]> (<[brk st := fresh]> (heap st)))
      (S (S (brk st))) (pipe_path st) (drop 2 (malloc_plan st)) (stop_after st)
      (presented st) ((heap st !! fb, fs) :: requests st) (fault st) (umask st).
Proof.
  intros Hp0 Hp1 Hpos Hrej.
  assert (bool_decide (fb = NULL) || (fs <? OLED_WIDTH * OLED_HEIGHT * 3 ÷ 2) = true) as Hb.
  { rewrite threshold_eq. destruct Hrej as [->|Hs]; [done|].
    apply orb_true_iff. right. by apply Z.ltb_lt. }
  unfold display_camera_frame. rewrite malloc_grants by done. simpl_st.
  rewrite decide_False by (unfold NULL; lia).
  rewrite malloc_grants by (simpl_st; by rewrite lookup_drop). simpl_st.
  rewrite decide_False by (unfold NULL; lia).
  rewrite !bool_decide_eq_false_2 by (unfold NULL; lia). cbn [orb].
  rewrite Hb. cbv zeta. rewrite drop_drop. driver_eq.
Qed.

(** [display_camera_frame] when the allocator refuses the first or the
    second request. *)
Lemma display_camera_frame_refused (st : driver) (fb : nat) (fs : Z) :
  malloc_plan st !! 0%nat = Some false \/ malloc_plan st !! 1%nat = Some false ->
  let st' := display_camera_frame fb fs st in
  presented st' = presented st /\ current_buffer st' = current_buffer st /\
  fault st' = fault st.
Proof.
  intros Hplan. cbv zeta. unfold display_camera_frame.
  destruct (decide (malloc_plan st !! 0%nat = Some false)) as [E0|E0].
  { rewrite malloc_refuses by done. simpl_st. by rewrite decide_True. }
  destruct Hplan as [?|E1]; [done|].
  rewrite malloc_grants by done. simpl_st.
  case_decide; [done|].
  rewrite malloc_refuses by (simpl_st; by rewrite lookup_drop). simpl_st.
  by rewrite decide_True.
Qed.

(** A painted buffer has every byte written. *)
Lemma painted_written (bytes : list Z) (out : list (option Z)) :
  Z.of_nat (length out) = 32768 ->
  (forall row col, 0 <= row < 128 -> 0 <= col < 128 -> painted 128 128 bytes out row col) ->
  Forall is_Some out.
Proof.
  intros Hlen Hpix. apply Forall_lookup. intros i x Hi.
  pose proof (lookup_lt_Some _ _ _ Hi) as Hlt.
  set (k := Z.of_nat i / 2).
  assert (0 <= k < 16384) as Hk.
  { unfold k. split; [apply Z.div_pos; lia|apply Z.div_lt_upper_bound; lia]. }
  destruct (Hpix (k / 128) (k mod 128)) as (y & u & v & _ & _ & _ & Hh).
  { split; [apply Z.div_pos; lia|apply Z.div_lt_upper_bound; lia]. }
  { apply Z.mod_pos_bound. lia. }
  unfold holds_pixel in Hh. destruct (yuv420_to_rgb y u v) as [[r g] b].
  replace (k / 128 * 128 + k mod 128) with k in Hh
    by (rewrite (Z.div_mod k 128) at 1 by lia; ring).
  destruct Hh as [He Ho].
  pose proof (Z.div_mod (Z.of_nat i) 2 ltac:(lia)) as Hdm. fold k in Hdm.
  pose proof (Z.mod_pos_bound (Z.of_nat i) 2 ltac:(lia)) as Hm.
  destruct (Z.eq_dec (Z.of_nat i mod 2) 0) as [E0|E1].
  - replace (Z.to_nat (k * 2)) with i in He by lia. rewrite Hi in He.
    injection He as ->. eauto.
  - replace (Z.to_nat (k * 2 + 1)) with i in Ho by lia. rewrite Hi in Ho.
    injection Ho as ->. eauto.
Qed.

(** X4: a frame that is [NULL] or shorter than [128*128*3/2] bytes is
    not shown: nothing is presented, the buffer index does not toggle,
    no block that existed is touched and nothing faults.  The two
    allocations come before the test, so with a willing allocator the
    pool pointers are replaced all the same. *)
Theorem display_camera_frame_rejects (st : driver) (fb : nat) (fs : Z) :
  wf st -> fb = NULL \/ fs < 24576 ->
  let st' := display_camera_frame fb fs st in
  presented st' = presented st /\ current_buffer st' = current_buffer st /\
  fault st' = fault st /\
  (forall p, (p < brk st)%nat -> heap st' !! p = heap st !! p) /\
  (malloc_plan st = [] -> oled_buffers st' = (brk st, S (brk st))).
Proof.
  intros Hwf Hrej. cbv zeta.
  split; [|split; [|split; [|split]]];
    try (intros; by apply display_camera_frame_keeps).
  1-3: destruct (decide (malloc_plan st !! 0%nat = Some false)) as [E0|E0];
         [by apply display_camera_frame_refused; left|];
       destruct (decide (malloc_plan st !! 1%nat = Some false)) as [E1|E1];
         [by apply display_camera_frame_refused; right|];
       by rewrite display_camera_frame_skips by (done || apply Hwf).
  intros Hplan. rewrite display_camera_frame_skips; [done|by rewrite Hplan..|apply Hwf|done].
Qed.

Lemma display_camera_frame_rejects_witness :
  let st' := display_camera_frame 0 24576 boot in
  presented st' = presented boot /\ current_buffer st' = current_buffer boot /\
  fault st' = fault boot /\
  (forall p, (p < brk boot)%nat -> heap st' !! p = heap boot !! p) /\
  (malloc_plan boot = [] -> oled_buffers st' = (brk boot, S (brk boot))).
Proof. apply (display_camera_frame_rejects boot 0 24576 wf_boot). by left. Defined.

(** X5: on a live, fully written frame of [128*128*3/2] bytes
    [display_camera_frame] never reads or writes outside a block,
    whatever the allocator does.  If an allocation is refused nothing is
    shown and the buffer index stays; otherwise exactly one buffer of
    [128*128*2] bytes is presented, every byte of it written by the
    pass, it is the block behind the pool slot the index selected, and
    the index toggles. *)
Theorem display_camera_frame_safe (st : driver) (fb : nat) (bytes : list Z) :
  wf st -> buffer_size st = 32768 -> fb <> NULL ->
  heap st !! fb = Some (Some <$> bytes) -> Z.of_nat (length bytes) = 24576 ->
  let st' := display_camera_frame fb 24576 st in
  fault st' = fault st /\
  (malloc_plan st !! 0%nat = Some false \/ malloc_plan st !! 1%nat = Some false ->
     presented st' = presented st /\ current_buffer st' = current_buffer st) /\
  (malloc_plan st !! 0%nat <> Some false -> malloc_plan st !! 1%nat <> Some false ->
     exists out, presented st' = out :: presented st /\
       Z.of_nat (length out) = 32768 /\ Forall is_Some out /\
       heap st' !! sel (oled_buffers st') (current_buffer st) = Some out /\
       current_buffer st' = 1 - current_buffer st).
Proof.
  intros Hwf Hsize Hfb Hheap Hlen. cbv zeta.
  assert (0 < fb < brk st)%nat as Hptr.
  { split; [unfold NULL in Hfb; lia|]. by apply (wf_live fb _ st Hwf Hheap). }
  assert (malloc_plan st !! 0%nat <> Some false -> malloc_plan st !! 1%nat <> Some false ->
     fault (display_camera_frame fb 24576 st) = fault st /\
     exists out, presented (display_camera_frame fb 24576 st) = out :: presented st /\
       Z.of_nat (length out) = 32768 /\ Forall is_Some out /\
       heap (display_camera_frame fb 24576 st)
         !! sel (oled_buffers (display_camera_frame fb 24576 st)) (current_buffer st)
         = Some out /\
       current_buffer (display_camera_frame fb 24576 st) = 1 - current_buffer st) as Hrun.
  { intros H0 H1.
    rewrite (display_camera_frame_runs st fb 24576 _ H0 H1 Hptr ltac:(lia) Hheap).
    cbv zeta. rewrite Hsize.
    destruct (convert_frame_painted 128 128 64 64 eq_refl eq_refl eq_refl eq_refl
                ltac:(lia) bytes Hlen (replicate (Z.to_nat 32768) None))
      as (out' & Hrun & Hlen' & Hpix).
    { rewrite length_replicate. lia. }
    change OLED_WIDTH with 128. change OLED_HEIGHT with 128.
    rewrite Hrun. simpl_st. split; [done|]. exists out'.
    assert (Z.of_nat (length out') = 32768) as Hl
      by (rewrite Hlen', length_replicate; lia).
    split; [done|]. split; [done|]. split; [by apply (painted_written bytes)|].
    split; [apply lookup_insert_eq|done]. }
  split; [|split].
  - destruct (decide (malloc_plan st !! 0%nat = Some false)) as [E0|E0];
      [by apply display_camera_frame_refused; left|].
    destruct (decide (malloc_plan st !! 1%nat = Some false)) as [E1|E1];
      [by apply display_camera_frame_refused; right|].
    by apply Hrun.
  - intros Hplan. by destruct (display_camera_frame_refused st fb 24576 Hplan) as (? & ? & _).
  - intros H0 H1. by apply Hrun.
Qed.

Lemma display_camera_frame_safe_witness :
  let st := (hold_frame grey_frame boot).2 in
  let st' := display_camera_frame 1 24576 st in
  fault st' = fault st /\
  (malloc_plan st !! 0%nat = Some false \/ malloc_plan st !! 1%nat = Some false ->
     presented st' = presented st /\ current_buffer st' = current_buffer st) /\
  (malloc_plan st !! 0%nat <> Some false -> malloc_plan st !! 1%nat <> Some false ->
     exists out, presented st' = out :: presented st /\
       Z.of_nat (length out) = 32768 /\ Forall is_Some out /\
       heap st' !! sel (oled_buffers st') (current_buffer st) = Some out /\
       current_buffer st' = 1 - current_buffer st).
Proof.
  cbv zeta.
  apply (display_camera_frame_safe (hold_frame grey_frame boot).2 1 grey_frame);
    rewrite ?(hold_frame_granted grey_frame boot eq_refl ltac:(cbn; lia)); cbn [snd]; simpl_st.
  - split; simpl_st; [cbn; lia|]. intros p Hp. cbn in Hp.
    rewrite lookup_insert_ne by (cbn; lia). apply lookup_empty.
  - reflexivity.
  - unfold NULL. lia.
  - apply lookup_insert_eq.
  - unfold grey_frame. rewrite length_replicate. apply Z2Nat.id. lia.
Defined.

(** X6: every shown frame costs two display buffers that are never
    released.  After [n] calls on a full frame, with an allocator that
    grants every request, [2 * n] blocks of [128*128*2] bytes have been
    added to the heap, every block that was live before is unchanged,
    [n] buffers were presented and nothing faulted. *)
Theorem show_frames_leaks (n : nat) (st : driver) (fb : nat) (bytes : list Z) :
  wf st -> malloc_plan st = [] -> buffer_size st = 32768 -> fb <> NULL ->
  heap st !! fb = Some (Some <$> bytes) -> Z.of_nat (length bytes) = 24576 ->
  let st' := show_frames n fb 24576 st in
  brk st' = (brk st + 2 * n)%nat /\
  size (heap st') = (size (heap st) + 2 * n)%nat /\
  (forall p, (p < brk st)%nat -> heap st' !! p = heap st !! p) /\
  (forall p, (brk st <= p < brk st + 2 * n)%nat ->
     exists blk, heap st' !! p = Some blk /\ Z.of_nat (length blk) = 32768) /\
  length (presented st') = (length (presented st) + n)%nat /\
  fault st' = fault st.
Proof.
  intros Hwf Hplan Hsize Hfb Hheap Hlen. cbv zeta.
  assert (0 < fb < brk st)%nat as Hptr.
  { split; [unfold NULL in Hfb; lia|]. by apply (wf_live fb _ st Hwf Hheap). }
  unfold show_frames.
  enough (let s := Nat.iter n (display_camera_frame fb 24576) st in
          (wf s /\ malloc_plan s = [] /\ buffer_size s = 32768) /\
          brk s = (brk st + 2 * n)%nat /\
          size (heap s) = (size (heap st) + 2 * n)%nat /\
          (forall p, (p < brk st)%nat -> heap s !! p = heap st !! p) /\
          (forall p, (brk st <= p < brk st + 2 * n)%nat ->
             exists blk, heap s !! p = Some blk /\ Z.of_nat (length blk) = 32768) /\
          length (presented s) = (length (presented st) + n)%nat /\
          fault s = fault st) as Hgen by (cbv zeta in Hgen; tauto).
  induction n as [|n IH]; cbv zeta.
  - change (Nat.iter 0 (display_camera_frame fb 24576) st) with st. rewrite !Nat.add_0_r.
    repeat split; try done; try apply Hwf. intros p Hp. lia.
  - rewrite !Nat.iter_succ. cbv zeta in IH.
    set (s := Nat.iter n (display_camera_frame fb 24576) st) in *. clearbody s.
    destruct IH as ((Hwfs & Hplans & Hsizes) & Hbrk & Hcount & Hold & Hnew & Hpres & Hfault).
    assert (heap s !! fb = Some (Some <$> bytes)) as Hfbs by (rewrite Hold; [done|lia]).
    rewrite (display_camera_frame_granted s fb 24576 _ Hplans ltac:(lia) ltac:(lia) Hfbs).
    cbv zeta. rewrite Hsizes.
    destruct (convert_frame_painted 128 128 64 64 eq_refl eq_refl eq_refl eq_refl
                ltac:(lia) bytes Hlen (replicate (Z.to_nat 32768) None))
      as (out' & Hrun & Hlen' & _).
    { rewrite length_replicate. lia. }
    change OLED_WIDTH with 128. change OLED_HEIGHT with 128.
    rewrite Hrun. simpl_st.
    assert (Z.of_nat (length out') = 32768) as Hl
      by (rewrite Hlen', length_replicate; lia).
    destruct Hwfs as [Hpos Hfresh].
    set (fresh := replicate (Z.to_nat 32768) None) in *.
    assert (Z.of_nat (length fresh) = 32768) as Hlf
      by (unfold fresh; rewrite length_replicate; lia).
    clearbody fresh.
    set (cur := sel (brk s, S (brk s)) (current_buffer s)).
    assert (cur = brk s \/ cur = S (brk s)) as Hcur by apply sel_cases.
    clearbody cur.
    set (h2 := <[S (brk s) := fresh]> (<[brk s := fresh]> (heap s))).
    assert (h2 !! brk s = Some fresh) as Hh0
      by (unfold h2; rewrite lookup_insert_ne by lia; apply lookup_insert_eq).
    assert (h2 !! S (brk s) = Some fresh) as Hh1 by apply lookup_insert_eq.
    assert (forall p, p <> brk s -> p <> S (brk s) -> h2 !! p = heap s !! p) as Hh2
      by (intros p ? ?; unfold h2; by rewrite !lookup_insert_ne by done).
    assert (size h2 = S (S (size (heap s)))) as Hsz.
    { unfold h2. rewrite map_size_insert_None.
      - rewrite map_size_insert_None; [done|]. apply Hfresh. lia.
      - rewrite lookup_insert_ne by lia. apply Hfresh. lia. }
    clearbody h2.
    split; [split; [split; simpl_st; [lia|]|done]|].
    { intros p Hp. rewrite lookup_insert_ne by lia. rewrite Hh2 by lia. apply Hfresh. lia. }
    split; [lia|]. split.
    { rewrite map_size_insert_Some by (destruct Hcur as [-> | ->]; eauto). lia. }
    split.
    { intros p Hp. rewrite lookup_insert_ne by lia. rewrite Hh2 by lia. by apply Hold. }
    split.
    { intros p Hp. destruct (decide (p = cur)) as [->|Hpc].
      - rewrite lookup_insert_eq. eauto.
      - rewrite lookup_insert_ne by done.
        destruct (decide (p = brk s)) as [->|]; [rewrite Hh0; eauto|].
        destruct (decide (p = S (brk s))) as [->|]; [rewrite Hh1; eauto|].
        rewrite Hh2 by done. apply Hnew. lia. }
    split; [cbn [length]; lia|done].
Qed.

Lemma show_frames_leaks_witness :
  let st := (hold_frame grey_frame boot).2 in
  let st' := show_frames 3 1 24576 st in
  brk st' = (brk st + 2 * 3)%nat /\
  size (heap st') = (size (heap st) + 2 * 3)%nat /\
  (forall p, (p < brk st)%nat -> heap st' !! p = heap st !! p) /\
  (forall p, (brk st <= p < brk st + 2 * 3)%nat ->
     exists blk, heap st' !! p = Some blk /\ Z.of_nat (length blk) = 32768) /\
  length (presented st') = (length (presented st) + 3)%nat /\
  fault st' = fault st.
Proof.
  cbv zeta.
  apply (show_frames_leaks 3 (hold_frame grey_frame boot).2 1 grey_frame);
    rewrite ?(hold_frame_granted grey_frame boot eq_refl ltac:(cbn; lia)); cbn [snd]; simpl_st.
  - split; simpl_st; [cbn; lia|]. intros p Hp. cbn in Hp.
    rewrite lookup_insert_ne by (cbn; lia). apply lookup_empty.
  - reflexivity.
  - reflexivity.
  - unfold NULL. lia.
  - apply lookup_insert_eq.
  - unfold grey_frame. rewrite length_replicate. apply Z2Nat.id. lia.
Defined.
End FrameLife.

Module WorkerFacts.
Import Color Driver Session Lifecycle Layout Safety.
Import PassFacts PoolFacts SessionFacts FileFacts StreamFacts FrameLife.

(** On a live, fully written frame the conversion pass stays inside
    its blocks, whatever the allocator does. *)
Lemma display_camera_frame_no_fault (st : driver) (fb : nat) (bytes : list Z) :
  wf st -> buffer_size st = 32768 -> fb <> NULL ->
  heap st !! fb = Some (Some <$> bytes) -> length bytes = Z.to_nat frame_size ->
  fault (display_camera_frame fb frame_size st) = fault st.
Proof.
  intros Hwf Hsize Hfb Hheap Hlen.
  assert (Z.of_nat (length bytes) = 24576) as Hlen'
    by (rewrite Hlen, frame_size_nat; apply frame_size_eq).
  rewrite frame_size_eq.
  assert (0 < fb < brk st)%nat as Hptr.
  { split; [unfold NULL in Hfb; lia|]. by apply (wf_live fb _ st Hwf Hheap). }
  destruct (decide (malloc_plan st !! 0%nat = Some false)) as [E0|E0];
    [by apply display_camera_frame_refused; left|].
  destruct (decide (malloc_plan st !! 1%nat = Some false)) as [E1|E1];
    [by apply display_camera_frame_refused; right|].
  rewrite (display_camera_frame_runs st fb 24576 _ E0 E1 Hptr ltac:(lia) Hheap).
  cbv zeta. rewrite Hsize.
  destruct (convert_frame_painted 128 128 64 64 eq_refl eq_refl eq_refl eq_refl
              ltac:(lia) bytes Hlen' (replicate (Z.to_nat 32768) None))
    as (out' & Hrun & _).
  { rewrite length_replicate. lia. }
  change OLED_WIDTH with 128. change OLED_HEIGHT with 128.
  by rewrite Hrun.
Qed.

(** The session fields: what starting, stopping and cleaning up are
    about. *)
Lemma malloc_session n st :
  pipe_created (malloc n st).2 = pipe_created st /\
  pipe_path (malloc n st).2 = pipe_path st /\
  joined (malloc n st).2 = joined st /\
  display_thread (malloc n st).2 = display_thread st.
Proof.
  destruct (malloc_cases n st) as [(_ & plan & _ & ->)|(_ & -> & _)]; done.
Qed.

Lemma memset_session p c n st :
  pipe_created (memset p c n st) = pipe_created st /\
  pipe_path (memset p c n st) = pipe_path st /\
  joined (memset p c n st) = joined st /\
  display_thread (memset p c n st) = display_thread st.
Proof. unfold memset. repeat case_match; done. Qed.

Lemma free_session p st :
  pipe_created (free p st) = pipe_created st /\
  pipe_path (free p st) = pipe_path st /\
  joined (free p st) = joined st /\
  display_thread (free p st) = display_thread st.
Proof. unfold free. case_decide; [done|]. by case_match. Qed.

Lemma observe_active_session st :
  pipe_created (observe_active st).2 = pipe_created st /\
  pipe_path (observe_active st).2 = pipe_path st /\
  joined (observe_active st).2 = joined st /\
  display_thread (observe_active st).2 = display_thread st /\
  (display_active (observe_active st).2 = true -> display_active st = true).
Proof. unfold observe_active. destruct (stop_after st) as [[|k]|]; simpl_st; done. Qed.

(** The pool after [display_camera_frame], whatever it was called on:
    the first pointer is new or [NULL], the second is new, [NULL] or
    the old one, and the buffer index is as it was or toggled. *)
Lemma display_camera_frame_pool (fb : nat) (fs : Z) (st : driver) :
  wf st ->
  let st' := display_camera_frame fb fs st in
  ((oled_buffers st').1 = NULL \/
   (oled_buffers st').1 = brk st /\ is_Some (heap st' !! brk st)) /\
  ((oled_buffers st').2 = NULL \/
   (oled_buffers st').2 = S (brk st) /\ is_Some (heap st' !! S (brk st)) \/
   (oled_buffers st').1 = NULL /\ (oled_buffers st').2 = (oled_buffers st).2) /\
  (current_buffer st' = current_buffer st \/
   current_buffer st' = 1 - current_buffer st).
Proof.
  intros [Hpos Hfresh]. cbv zeta. unfold display_camera_frame.
  destruct (decide (malloc_plan st !! 0%nat = Some false)) as [E0|E0].
  { rewrite malloc_refuses by done. simpl_st. rewrite decide_True by done. simpl_st.
    split; [by left|]. split; [right; by right|by left]. }
  rewrite malloc_grants by done. simpl_st.
  rewrite decide_False by (unfold NULL; lia).
  match goal with |- context [malloc ?n ?s] =>
    destruct (decide (malloc_plan s !! 0%nat = Some false)) as [E1|E1];
    [rewrite (malloc_refuses n s E1)|rewrite (malloc_grants n s E1)]
  end; simpl_st.
  { rewrite decide_True by done. simpl_st.
    split; [right; split; [done|]; rewrite lookup_insert_eq; eauto|].
    split; by left. }
  rewrite decide_False by (unfold NULL; lia). simpl_st.
  rewrite !bool_decide_eq_false_2 by (unfold NULL; lia). cbn [orb].
  set (h2 := <[S (brk st) := _]> (<[brk st := _]> (heap st))).
  assert (is_Some (h2 !! brk st)) as L0
    by (unfold h2; rewrite lookup_insert_ne by lia; rewrite lookup_insert_eq; eauto).
  assert (is_Some (h2 !! S (brk st))) as L1
    by (unfold h2; rewrite lookup_insert_eq; eauto).
  clearbody h2.
  assert (forall x y, is_Some (<[sel (brk st, S (brk st)) x := y]> h2 !! brk st) /\
                      is_Some (<[sel (brk st, S (brk st)) x := y]> h2 !! S (brk st))) as Hins.
  { intros x y. destruct (sel_cases (brk st, S (brk st)) x) as [-> | ->]; cbn [fst snd];
      (split; [destruct (decide (brk st = brk st)); [|done]|]);
      rewrite ?lookup_insert_eq, ?lookup_insert_ne by lia; eauto. }
  repeat case_match; simpl_st;
    (split; [right; split; [done|]; done || apply Hins|]);
    (split; [right; left; split; [done|]; done || apply Hins|]); auto.
Qed.

Section Guard.
Variables (P : Prop) (B : nat) (h0 : gmap nat block) (f0 : bool).

Local Abbreviation guarded := (Safety.guarded P B h0 f0).
Local Abbreviation holds := (Safety.holds P B).

Lemma steady_same (st st' : driver) :
  steady st ->
  oled_buffers st' = oled_buffers st -> current_buffer st' = current_buffer st ->
  (forall p, is_Some (heap st !! p) -> p = (oled_buffers st).1 \/ p = (oled_buffers st).2 ->
     is_Some (heap st' !! p)) ->
  (display_active st' = true -> display_active st = true) ->
  display_thread st' = display_thread st ->
  pipe_created st' = pipe_created st -> pipe_path st' = pipe_path st ->
  steady st'.
Proof.
  intros (S1 & S2 & S3 & S4 & S5 & S6) Hb Hc Hlive Ha Ht Hpc Hpp.
  unfold steady. rewrite Hb, Hc, Ht, Hpc, Hpp.
  split; [destruct S1 as [?|?]; [by left|right; apply Hlive; auto]|].
  split; [destruct S2 as [?|?]; [by left|right; apply Hlive; auto]|].
  split; [done|]. split; [done|]. split; [|done]. intros H. by apply S5, Ha.
Qed.

Lemma guarded_display fb (bytes : list Z) st :
  guarded st -> holds fb st ->
  heap st !! fb = Some (Some <$> bytes) -> length bytes = Z.to_nat frame_size ->
  guarded (display_camera_frame fb frame_size st) /\
  (forall p, (p < brk st)%nat ->
     heap (display_camera_frame fb frame_size st) !! p = heap st !! p) /\
  (forall q, (q < brk st)%nat -> holds q st -> holds q (display_camera_frame fb frame_size st)).
Proof.
  intros (Hwf & Hsize & Hf & HB & Hst & Hold) (Hpos & _ & _) Hheap Hlen.
  destruct (display_camera_frame_keeps fb frame_size st Hwf) as [Hwf' Hkeep].
  destruct (display_camera_frame_frame fb frame_size st)
    as (Ha & Hpc & Ht & _ & _ & Hpp & Hs & _ & Hbrk).
  destruct (display_camera_frame_pool fb frame_size st Hwf) as (Q1 & Q2 & Q3).
  cbv zeta in *.
  set (st' := display_camera_frame fb frame_size st) in *.
  split; [|split; [done|]].
  - split; [done|]. split; [congruence|]. split.
    { unfold st'. rewrite (display_camera_frame_no_fault st fb bytes); try done.
      unfold NULL. lia. }
    split; [lia|]. split; [|intros q Hq; rewrite Hkeep by lia; by apply Hold].
    intros HP. destruct (Hst HP) as (S1 & S2 & S3 & S4 & S5 & S6).
    unfold steady. rewrite Ha, Hpc, Ht, Hpp.
    split; [destruct Q1 as [?|[-> ?]]; auto|].
    split.
    { destruct Q2 as [?|[[-> ?]|[_ ->]]]; auto.
      destruct S2 as [?|L]; [by left|right].
      destruct L as [blk L]. rewrite Hkeep; [eauto|]. by eapply wf_live. }
    split.
    { destruct Q1 as [?|[E1 _]]; [by left|right]. rewrite E1.
      destruct Q2 as [->|[[-> _]|[E _]]]; [|lia|].
      - destruct Hwf as [? _]. unfold NULL. lia.
      - rewrite E1 in E. destruct Hwf as [? _]. unfold NULL in E. lia. }
    split; [destruct Q3 as [-> | ->]; destruct S4 as [-> | ->]; auto|].
    done.
  - intros q Hq (Hq0 & HqB & Hqp & blk & Hb & Hl).
    split; [done|]. split; [done|]. split.
    + intros HP. destruct (Hqp HP) as [N1 N2].
      split.
      * destruct Q1 as [->|[-> _]]; [unfold NULL; lia|lia].
      * destruct Q2 as [->|[[-> _]|[_ ->]]]; [unfold NULL; lia|lia|done].
    + exists blk. by rewrite Hkeep.
Qed.

Lemma guarded_observe st :
  guarded st -> guarded (observe_active st).2.
Proof.
  intros (Hwf & Hsize & Hf & HB & Hst & Hold).
  destruct (observe_active_frame st) as (Hh & Hk & _ & _ & _ & Hft & Hob & Hs & Hcb & _).
  destruct (observe_active_session st) as (Hpc & Hpp & _ & Ht & Ha).
  split.
  { destruct Hwf as [H0 Hfresh]. split; [lia|]. intros p Hp. rewrite Hh. apply Hfresh. lia. }
  split; [congruence|]. split; [congruence|]. split; [lia|].
  split; [|intros q Hq; rewrite Hh; by apply Hold].
  intros HP. apply (steady_same st);
    [by apply Hst|done|done|intros p Hp _; by rewrite Hh|done..].
Qed.

Lemma holds_observe fb st : holds fb st -> holds fb (observe_active st).2.
Proof.
  intros (Hpos & HB & Hnp & blk & Hb & Hl).
  destruct (observe_active_frame st) as (Hh & _ & _ & _ & _ & _ & Hob & _).
  split; [done|]. split; [done|]. split; [by rewrite Hob|]. exists blk. by rewrite Hh.
Qed.

Lemma write_bytes_session p off l st :
  oled_buffers (write_bytes p off l st) = oled_buffers st /\
  current_buffer (write_bytes p off l st) = current_buffer st /\
  display_thread (write_bytes p off l st) = display_thread st /\
  pipe_created (write_bytes p off l st) = pipe_created st /\
  pipe_path (write_bytes p off l st) = pipe_path st /\
  buffer_size (write_bytes p off l st) = buffer_size st.
Proof. unfold write_bytes. repeat case_match; done. Qed.

(** A copy that fits the frame buffer. *)
Lemma guarded_write fb off (l : list Z) st :
  guarded st -> holds fb st ->
  0 <= off -> off + Z.of_nat (length l) <= frame_size ->
  guarded (write_bytes fb off l st) /\ holds fb (write_bytes fb off l st) /\
  (forall q, q <> fb -> heap (write_bytes fb off l st) !! q = heap st !! q) /\
  brk (write_bytes fb off l st) = brk st /\
  oled_buffers (write_bytes fb off l st) = oled_buffers st.
Proof.
  intros (Hwf & Hsize & Hf & HB & Hst & Hold) (Hpos & HBf & Hnp & blk & Hb & Hl) Hoff Hfit.
  destruct (write_bytes_session fb off l st) as (Hob & Hcb & Ht & Hpc & Hpp & Hbs).
  destruct (write_bytes_frame fb off l st) as (_ & Ha & _ & Hk & _).
  pose proof (write_bytes_dom fb off l st) as Hdom.
  assert (forall q, q <> fb -> heap (write_bytes fb off l st) !! q = heap st !! q) as Hrest.
  { intros q Hq. rewrite (write_bytes_at fb off l st blk)
      by (done || rewrite Hl, frame_size_nat; lia).
    simpl_st. by rewrite lookup_insert_ne. }
  assert (fault (write_bytes fb off l st) = fault st) as Hfl.
  { by rewrite (write_bytes_at fb off l st blk)
      by (done || rewrite Hl, frame_size_nat; lia). }
  assert (exists blk', heap (write_bytes fb off l st) !! fb = Some blk' /\
                       length blk' = Z.to_nat frame_size) as Hlive.
  { rewrite (write_bytes_at fb off l st blk)
      by (done || rewrite Hl, frame_size_nat; lia).
    eexists. simpl_st. rewrite lookup_insert_eq. split; [done|].
    rewrite !length_app, length_take, length_fmap, length_drop.
    pose proof frame_size_nat. lia. }
  set (st' := write_bytes fb off l st) in *. clearbody st'.
  split; [|split; [|split; [done|split; [done|done]]]].
  - split.
    { destruct Hwf as [H0 Hfresh]. split; [lia|]. intros p Hp. rewrite Hk in Hp.
      apply eq_None_not_Some. rewrite Hdom. rewrite Hfresh by done. by intros [? ?]. }
    split; [congruence|]. split; [congruence|]. split; [lia|].
    split.
    + intros HP. apply (steady_same st);
        [by apply Hst|done|done|intros p Hp _; by apply Hdom|by rewrite Ha|done..].
    + intros q Hq. rewrite Hrest by lia. by apply Hold.
  - split; [done|]. split; [done|]. split; [by rewrite Hob|done].
Qed.

(** Releasing the frame buffer. *)
Lemma guarded_free fb st :
  guarded st -> holds fb st ->
  guarded (free fb st) /\ heap (free fb st) !! fb = None /\
  (forall q, q <> fb -> heap (free fb st) !! q = heap st !! q) /\
  display_active (free fb st) = display_active st /\
  oled_buffers (free fb st) = oled_buffers st.
Proof.
  intros (Hwf & Hsize & Hf & HB & Hst & Hold) (Hpos & HBf & Hnp & blk & Hb & Hl).
  unfold free. rewrite decide_False by (unfold NULL; lia). rewrite Hb.
  split; [|split; [simpl_st; apply lookup_delete_eq|split; [|done]]].
  - split.
    { destruct Hwf as [H0 Hfresh]. split; [done|]. intros p Hp. simpl_st.
      destruct (decide (p = fb)) as [->|]; [apply lookup_delete_eq|].
      rewrite lookup_delete_ne by done. by apply Hfresh. }
    split; [done|]. split; [done|]. split; [done|]. split.
    + intros HP. apply (steady_same st); [by apply Hst|done|done| |done..].
      intros p Hp Hpool. simpl_st. destruct (Hnp HP) as [N1 N2].
      rewrite lookup_delete_ne; [done|]. by destruct Hpool as [-> | ->].
    + intros q Hq. simpl_st. rewrite lookup_delete_ne by lia. by apply Hold.
  - intros q Hq. simpl_st. by rewrite lookup_delete_ne.
Qed.

Lemma observe_active_stop st n :
  stop_after st = Some n ->
  ((observe_active st).1 = true ->
     exists k, n = S k /\ stop_after (observe_active st).2 = Some k) /\
  ((observe_active st).1 = false -> display_active (observe_active st).2 = false).
Proof.
  intros Hs. unfold observe_active. rewrite Hs. destruct n as [|k]; simpl_st.
  - split; [done|done].
  - split; [intros _; by exists k|done].
Qed.

Lemma observe_active_off st :
  (observe_active st).1 = false -> display_active (observe_active st).2 = false.
Proof.
  unfold observe_active. destruct (stop_after st) as [[|k]|]; simpl_st; done.
Qed.

(** The loop of the file worker. *)
Lemma display_thread_loop_safe fuel fb data : forall pos shown st,
  guarded st -> holds fb st ->
  let r := display_thread_loop fuel fb data pos shown st in
  guarded (final r) /\
  how r <> Waiting /\
  (how r = Returned ->
     display_active (final r) = false /\ heap (final r) !! fb = None) /\
  (forall n, stop_after st = Some n -> (n < fuel)%nat ->
     how r = Returned /\ (length (handed r) <= length shown + n)%nat).
Proof.
  induction fuel as [|fuel IH]; intros pos shown st Hg Hh; cbv zeta.
  - cbn [display_thread_loop final how]. split; [done|]. split; [done|].
    split; [done|]. intros n _ Hn. lia.
  - cbn [display_thread_loop].
    pose proof (guarded_observe st Hg) as Hg1.
    pose proof (holds_observe fb st Hh) as Hh1.
    pose proof (observe_active_off st) as Hoff.
    pose proof (observe_active_stop st) as Hstop.
    destruct (observe_active st) as [active st1]. cbn [fst snd] in *.
    destruct active.
    2:{ cbn [final how handed].
        destruct (guarded_free fb st1 Hg1 Hh1) as (Hg2 & Hgone & _ & Ha & _).
        split; [done|]. split; [done|]. split.
        - intros _. split; [|done]. rewrite Ha. by apply Hoff.
        - intros n _ _. split; [done|lia]. }
    set (got := fread data pos).
    assert (length got <= Z.to_nat frame_size)%nat as Hgot
      by (unfold got, fread; rewrite length_take; lia).
    destruct (guarded_write fb 0 got st1 Hg1 Hh1 ltac:(lia))
      as (Hg2 & Hh2 & _ & _ & _).
    { pose proof frame_size_nat. lia. }
    pose proof (write_bytes_frame fb 0 got st1) as (_ & _ & Hs2 & _).
    set (st2 := write_bytes fb 0 got st1) in *.
    destruct (Z.ltb_spec (Z.of_nat (length got)) frame_size) as [Hshort|Hfull].
    + destruct (IH 0%nat shown st2 Hg2 Hh2) as (R1 & R2 & R3 & R4). cbv zeta in *.
      split; [done|]. split; [done|]. split; [done|].
      intros n Hn Hfuel. destruct (Hstop n Hn) as [Hon _].
      destruct (Hon eq_refl) as (k & -> & Hk).
      destruct (R4 k) as [-> Hlen]; [congruence|lia|]. split; [done|lia].
    + assert (length got = Z.to_nat frame_size) as Hlen
        by (pose proof frame_size_nat; lia).
      assert (heap st2 !! fb = Some (Some <$> got)) as Hcontent.
      { destruct Hh1 as (_ & _ & _ & blk & Hb & Hl). unfold st2.
        rewrite (write_bytes_front fb got st1 blk) by (done || lia).
        simpl_st. rewrite lookup_insert_eq. f_equal.
        rewrite drop_ge by lia. apply app_nil_r. }
      destruct (guarded_display fb got st2 Hg2 Hh2 Hcontent Hlen) as (Hg3 & Hkeep & Hhk).
      pose proof (Hhk fb (wf_live fb _ st2 (proj1 Hg2) Hcontent) Hh2) as Hh3.
      destruct (display_camera_frame_frame fb frame_size st2)
        as (_ & _ & _ & _ & Hs3 & _).
      set (st3 := display_camera_frame fb frame_size st2) in *.
      destruct (IH (pos + length got)%nat (Z.of_nat (length got) :: shown) st3 Hg3 Hh3)
        as (R1 & R2 & R3 & R4). cbv zeta in *.
      split; [done|]. split; [done|]. split; [done|].
      intros n Hn Hfuel. destruct (Hstop n Hn) as [Hon _].
      destruct (Hon eq_refl) as (k & -> & Hk).
      destruct (R4 k) as [-> Hl]; [congruence|lia|]. split; [done|].
      cbn [length] in Hl. lia.
Qed.

Lemma guarded_malloc n st :
  guarded st ->
  guarded (malloc n st).2 /\
  stop_after (malloc n st).2 = stop_after st /\
  display_active (malloc n st).2 = display_active st /\
  oled_buffers (malloc n st).2 = oled_buffers st /\
  (((malloc n st).1 = NULL /\ heap (malloc n st).2 = heap st /\
    brk (malloc n st).2 = brk st)
   \/
   ((malloc n st).1 = brk st /\ brk (malloc n st).2 = S (brk st) /\
    heap (malloc n st).2 = <[brk st := replicate (Z.to_nat n) None]> (heap st))).
Proof.
  intros (Hwf & Hsize & Hf & HB & Hst & Hold).
  destruct (malloc_cases n st) as [(E1 & plan & _ & E2)|(E1 & E2 & _)]; rewrite E1, E2.
  - split; [|split; [done|split; [done|split; [done|by left]]]].
    split; [done|]. split; [done|]. split; [done|]. split; [done|]. split; [|done].
    intros HP. apply (steady_same st); [by apply Hst|done..].
  - destruct Hwf as [H0 Hfresh].
    split; [|split; [done|split; [done|split; [done|by right]]]].
    split; [split; simpl_st; [lia|]|].
    { intros p Hp. rewrite lookup_insert_ne by lia. apply Hfresh. lia. }
    split; [done|]. split; [done|]. split; [simpl_st; lia|]. split.
    + intros HP. apply (steady_same st); [by apply Hst|done|done| |done..].
      intros p [blk Hp] _. simpl_st. rewrite lookup_insert_ne; [eauto|].
      intros <-. rewrite Hfresh in Hp by lia. done.
    + intros q Hq. simpl_st. rewrite lookup_insert_ne by lia. by apply Hold.
Qed.

(** The block that [malloc] just granted is nobody else's. *)
Lemma holds_fresh st st' :
  guarded st -> (B <= brk st)%nat ->
  heap st' = <[brk st := replicate (Z.to_nat frame_size) None]> (heap st) ->
  oled_buffers st' = oled_buffers st ->
  holds (brk st) st'.
Proof.
  intros (Hwf & _ & _ & _ & Hst & _) HB Hh Hob.
  split; [apply Hwf|]. split; [done|]. split.
  - intros HP. rewrite Hob. destruct (Hst HP) as (S1 & S2 & _).
    destruct Hwf as [H0 Hfresh].
    split; [destruct S1 as [->|[blk L]]|destruct S2 as [->|[blk L]]];
      try (unfold NULL; lia);
      intros E; rewrite <- E, Hfresh in L by lia; done.
  - eexists. rewrite Hh, lookup_insert_eq. split; [done|]. apply length_replicate.
Qed.

(** One accumulation loop into a frame buffer. *)
Lemma fill_frame_guard pipe : forall buf t st,
  guarded st -> holds buf st -> 0 <= t <= frame_size ->
  let s' := fill_state (fill_frame pipe buf t st) in
  guarded s' /\ holds buf s' /\ brk s' = brk st /\
  oled_buffers s' = oled_buffers st /\
  (forall q, q <> buf -> heap s' !! q = heap st !! q) /\
  (forall n rest, stop_after st = Some n ->
     fill_frame pipe buf t st = Filled frame_size rest s' ->
     exists k, stop_after s' = Some k /\ (k <= n)%nat).
Proof.
  induction pipe as [|c pipe IH]; intros buf t st Hg Hh Ht; cbv zeta; cbn [fill_frame].
  - destruct (Z.ltb_spec t frame_size) as [Hlt|Hge]; cbn [fill_state].
    2:{ split; [done|]. split; [done|]. split; [done|]. split; [done|]. split; [done|]. eauto. }
    pose proof (guarded_observe st Hg) as Hg1.
    pose proof (holds_observe buf st Hh) as Hh1.
    destruct (observe_active_frame st) as (Hh' & Hk' & _ & _ & _ & _ & Hob' & _).
    destruct (observe_active st) as [[] st1]; cbn [fst snd fill_state] in *.
    + split; [done|]. split; [done|]. split; [done|]. split; [done|].
      split; [by intros; rewrite Hh'|]. intros n rest _ [=].
    + split; [done|]. split; [done|]. split; [done|]. split; [done|].
      split; [by intros; rewrite Hh'|]. intros n rest _ Hinj. inversion Hinj. lia.
  - destruct (Z.ltb_spec t frame_size) as [Hlt|Hge]; cbn [fill_state].
    2:{ split; [done|]. split; [done|]. split; [done|]. split; [done|]. split; [done|]. eauto. }
    pose proof (guarded_observe st Hg) as Hg1.
    pose proof (holds_observe buf st Hh) as Hh1.
    pose proof (observe_active_stop st) as Hstop.
    destruct (observe_active_frame st) as (Hh' & Hk' & _ & _ & _ & _ & Hob' & _).
    destruct (observe_active st) as [[] st1]; cbn [fst snd fill_state] in *.
    2:{ split; [done|]. split; [done|]. split; [done|]. split; [done|].
        split; [by intros; rewrite Hh'|]. intros n rest _ Hinj. inversion Hinj. lia. }
    destruct c as [b l| |]; cbn [fill_state].
    2,3: split; [done|]; split; [done|]; split; [done|]; split; [done|];
         split; [by intros; rewrite Hh'|];
         intros n rest _ Hinj; inversion Hinj; lia.
    destruct (Z.leb_spec (Z.of_nat (length (b :: l))) (frame_size - t)) as [Hfit|Hbig].
    + destruct (guarded_write buf t (b :: l) st1 Hg1 Hh1 ltac:(lia) ltac:(lia))
        as (Hg2 & Hh2 & Hq2 & Hk2 & Hob2).
      pose proof (write_bytes_frame buf t (b :: l) st1) as (_ & _ & Hs2 & _).
      set (st2 := write_bytes buf t (b :: l) st1) in *.
      destruct (IH buf (t + Z.of_nat (length (b :: l))) st2 Hg2 Hh2 ltac:(lia))
        as (R1 & R2 & R3 & Rob & R4 & R5). cbv zeta in *.
      split; [done|]. split; [done|]. split; [congruence|]. split; [congruence|].
      split; [intros q Hq; by rewrite R4, Hq2, Hh' by done|].
      intros n rest Hn Hrun. destruct (Hstop n Hn) as [Hon _].
      destruct (Hon eq_refl) as (k & -> & Hk).
      destruct (R5 k rest) as (k' & E & Hle); [congruence|done|]. exists k'. split; [done|lia].
    + cbn [fill_state].
      destruct (guarded_write buf t (take (Z.to_nat (frame_size - t)) (b :: l)) st1 Hg1 Hh1
                  ltac:(lia)) as (Hg2 & Hh2 & Hq2 & Hk2 & Hob2).
      { rewrite length_take. lia. }
      pose proof (write_bytes_frame buf t (take (Z.to_nat (frame_size - t)) (b :: l)) st1)
        as (_ & _ & Hs2 & _).
      split; [done|]. split; [done|]. split; [congruence|]. split; [congruence|].
      split; [intros q Hq; by rewrite Hq2, Hh' by done|].
      intros n rest Hn _. destruct (Hstop n Hn) as [Hon _].
      destruct (Hon eq_refl) as (k & -> & Hk). exists k. split; [congruence|lia].
Qed.

Lemma holds_same fb st st' :
  holds fb st -> heap st' !! fb = heap st !! fb ->
  oled_buffers st' = oled_buffers st -> holds fb st'.
Proof.
  intros (Hpos & HB & Hnp & blk & Hb & Hl) E Hob. split; [done|]. split; [done|].
  split; [by rewrite Hob|]. exists blk. by rewrite E.
Qed.

(** The end of the pipe worker after its loop. *)
Lemma guarded_cleanup b0 b1 st :
  guarded st -> holds b0 st -> holds b1 st -> b0 <> b1 ->
  guarded (free b1 (free b0 st)) /\
  heap (free b1 (free b0 st)) !! b0 = None /\
  heap (free b1 (free b0 st)) !! b1 = None.
Proof.
  intros Hg H0 H1 Hne.
  destruct (guarded_free b0 st Hg H0) as (Hg1 & Hgone0 & Hrest0 & _ & Hob0).
  assert (holds b1 (free b0 st)) as H1'
    by (apply (holds_same b1 st); [done|by apply Hrest0|done]).
  destruct (guarded_free b1 _ Hg1 H1') as (Hg2 & Hgone1 & Hrest1 & _).
  split; [done|]. split; [|done]. by rewrite Hrest1.
Qed.

(** The main loop of the pipe worker. *)
Lemma pipe_loop_safe fuel (b0 b1 : nat) : forall ab t rec pipe shown st (cur : list Z),
  guarded st -> holds b0 st -> holds b1 st -> b0 <> b1 ->
  ab = 0 \/ ab = 1 ->
  heap st !! sel (b0, b1) ab = Some (Some <$> cur) ->
  length cur = Z.to_nat frame_size ->
  let r := pipe_loop fuel (b0, b1) ab t rec pipe shown st in
  guarded (final r) /\
  (how r = Returned -> heap (final r) !! b0 = None /\ heap (final r) !! b1 = None) /\
  (forall n, stop_after st = Some n -> (n < fuel)%nat ->
     how r <> OutOfFuel /\ (length (handed r) <= length shown + n)%nat).
Proof.
  assert (0 <= frame_size) as Hfs0 by (rewrite frame_size_eq; lia).
  induction fuel as [|fuel IH]; intros ab t rec pipe shown st cur Hg H0 H1 Hne Hab Hcur Hlen;
    cbv zeta.
  - cbn [pipe_loop final how]. split; [done|]. split; [done|]. intros n _ Hn. lia.
  - cbn [pipe_loop].
    pose proof (guarded_observe st Hg) as Hg1.
    pose proof (holds_observe b0 st H0) as H01.
    pose proof (holds_observe b1 st H1) as H11.
    pose proof (observe_active_stop st) as Hstop.
    destruct (observe_active_frame st) as (Hh' & Hk' & _).
    destruct (observe_active st) as [active st1]. cbn [fst snd] in *.
    destruct active.
    2:{ unfold pipe_cleanup. cbn [final how handed fst snd].
        destruct (guarded_cleanup b0 b1 st1 Hg1 H01 H11 Hne) as (Hg2 & G0 & G1).
        split; [done|]. split; [done|]. intros n _ _. split; [done|lia]. }
    destruct (sel_next b0 b1 ab Hab) as (Hab' & Hsel).
    assert (holds (sel (b0, b1) ab) st1) as Hcurh
      by (destruct Hsel as [[-> _]|[-> _]]; done).
    assert (heap st1 !! sel (b0, b1) ab = Some (Some <$> cur)) as Hcur1 by congruence.
    destruct (guarded_display _ cur st1 Hg1 Hcurh Hcur1 Hlen) as (Hg2 & Hkeep & Hhk).
    assert (b0 < brk st1 /\ b1 < brk st1)%nat as [Hlt0 Hlt1].
    { destruct H01 as (_ & _ & _ & blk0 & L0 & _). destruct H11 as (_ & _ & _ & blk1 & L1 & _).
      split; eapply wf_live; try apply Hg1; done. }
    pose proof (Hhk b0 Hlt0 H01) as H02.
    pose proof (Hhk b1 Hlt1 H11) as H12.
    destruct (display_camera_frame_frame (sel (b0, b1) ab) frame_size st1)
      as (_ & _ & _ & _ & Hs2 & _).
    set (st2 := display_camera_frame (sel (b0, b1) ab) frame_size st1) in *.
    clearbody st2.
    set (nxt := sel (b0, b1) (1 - ab)) in *.
    assert (holds nxt st2) as Hn2 by (destruct Hsel as [[_ ->]|[_ ->]]; done).
    assert (sel (b0, b1) ab <> nxt) as Hdiff
      by (destruct Hsel as [[-> ->]|[-> ->]]; auto).
    destruct (fill_frame_guard pipe nxt 0 st2 Hg2 Hn2 ltac:(lia))
      as (Hg3 & Hn3 & Hk3 & Hob3 & Hq3 & Hs3).
    destruct Hn2 as (_ & _ & _ & blkn & Hbn & Hln).
    pose proof (fill_frame_content pipe nxt 0 st2 blkn [] Hbn Hln eq_refl Hfs0 eq_refl)
      as Hcontent.
    destruct (fill_frame pipe nxt 0 st2) as [t' rest st3|st3] eqn:Hfill;
      cbn [fill_state] in *.
    2:{ cbn [final how handed]. split; [done|]. split; [done|].
        intros n Hn Hfuel. split; [done|]. destruct (Hstop n Hn) as [Hon _].
        destruct (Hon eq_refl) as (k & -> & _). cbn [length]. lia. }
    assert (holds b0 st3 /\ holds b1 st3) as [H03 H13].
    { destruct Hsel as [[Ea En]|[Ea En]]; fold nxt in En; rewrite En in *.
      - split; [|done]. apply (holds_same b0 st2); [done| |done]. apply Hq3. congruence.
      - split; [done|]. apply (holds_same b1 st2); [done| |done]. apply Hq3. congruence. }
    pose proof (fill_frame_bound _ _ _ _ _ _ _ Hfs0 Hfill) as Hb.
    destruct (Z.ltb_spec t' frame_size).
    + unfold pipe_cleanup. cbn [final how handed fst snd].
      destruct (guarded_cleanup b0 b1 st3 Hg3 H03 H13 Hne) as (Hg4 & G0 & G1).
      split; [done|]. split; [done|].
      intros n Hn Hfuel. split; [done|]. destruct (Hstop n Hn) as [Hon _].
      destruct (Hon eq_refl) as (k & -> & _). cbn [length]. lia.
    + assert (t' = frame_size) as -> by lia.
      destruct (Hcontent _ _ _ eq_refl) as (data & blk' & E1 & E2 & E3 & E4 & _).
      cbn [app] in E4.
      assert (length data = Z.to_nat frame_size) as Hld by lia.
      apply full_block in E4; [|lia]. subst blk'.
      destruct (IH (1 - ab) frame_size (rec + 1) rest (t :: shown) st3 data
                  Hg3 H03 H13 Hne Hab' E2 Hld) as (R1 & R2 & R3). cbv zeta in *.
      split; [done|]. split; [done|].
      intros n Hn Hfuel. destruct (Hstop n Hn) as [Hon _].
      destruct (Hon eq_refl) as (k & -> & Hk).
      destruct (Hs3 k rest) as (k' & Hkk & Hle); [congruence|done|].
      destruct (R3 k' Hkk) as [Hhow Hl]; [lia|]. split; [done|].
      cbn [length] in Hl. lia.
Qed.
End Guard.


Lemma guarded_start (P : Prop) (st : driver) :
  wf st -> buffer_size st = 32768 -> (P -> steady st) ->
  guarded P (brk st) (heap st) (fault st) st.
Proof.
  intros Hwf Hs Hst. split; [done|]. split; [done|]. split; [done|]. split; [lia|].
  split; done.
Qed.

Lemma guarded_flag P B h0 f0 st :
  guarded P B h0 f0 st -> guarded P B h0 f0 (set_active false st).
Proof.
  intros (Hwf & Hsize & Hf & HB & Hst & Hold). split; [destruct Hwf; by split|].
  split; [done|]. split; [done|]. split; [done|]. split; [|done].
  intros HP. apply (steady_same st);
    [by apply Hst|done|done|intros p Hp _; exact Hp|done..].
Qed.

(** The file worker as a whole. *)
Lemma display_thread_func_guard (P : Prop) (fuel : nat) (file : option (list Z))
    (st : driver) :
  wf st -> buffer_size st = 32768 -> (P -> steady st) ->
  let r := display_thread_func fuel file st in
  guarded P (brk st) (heap st) (fault st) (final r) /\
  how r <> Waiting /\
  (how r = Returned ->
     display_active (final r) = false /\ heap (final r) !! brk st = None) /\
  (forall n, stop_after st = Some n -> (n < fuel)%nat ->
     how r = Returned /\ (length (handed r) <= n)%nat).
Proof.
  intros Hwf Hsize Hst. cbv zeta. pose proof (guarded_start P st Hwf Hsize Hst) as Hg.
  assert (guarded P (brk st) (heap st) (fault st) (set_active false st) /\
          Returned <> Waiting /\
          (Returned = Returned ->
             display_active (set_active false st) = false /\
             heap (set_active false st) !! brk st = None) /\
          (forall n, stop_after st = Some n -> (n < fuel)%nat ->
             Returned = Returned /\ (@length Z [] <= n)%nat)) as Hearly.
  { split; [by apply guarded_flag|]. split; [done|]. split.
    - intros _. split; [done|]. simpl_st. apply Hwf. lia.
    - intros n _ _. split; [done|cbn; lia]. }
  unfold display_thread_func. destruct file as [data|]; [|exact Hearly].
  destruct (guarded_malloc _ _ _ _ frame_size st Hg) as (Hg1 & Hs1 & Ha1 & Hob1 & Hcase).
  pose proof (holds_fresh P (brk st) (heap st) (fault st) st (malloc frame_size st).2 Hg
                ltac:(lia)) as Hfresh.
  destruct (malloc frame_size st) as [fb st1]. cbn [fst snd] in *.
  destruct (decide (fb = NULL)) as [Hnull|Hnn].
  { cbn [final how handed]. destruct Hcase as [(_ & Hh & Hk)|(-> & _)].
    - split; [by apply guarded_flag|]. split; [done|]. split.
      + intros _. split; [done|]. simpl_st. rewrite Hh. apply Hwf. lia.
      + intros n _ _. split; [done|cbn; lia].
    - destruct Hwf as [H0 _]. unfold NULL in Hnull. lia. }
  destruct Hcase as [(? & _)|(-> & Hk & Hh)]; [done|].
  specialize (Hfresh Hh Hob1).
  destruct (display_thread_loop_safe _ _ _ _ fuel (brk st) data 0%nat [] st1 Hg1 Hfresh)
    as (R1 & R2 & R3 & R4). cbv zeta in *.
  split; [done|]. split; [done|]. split; [done|].
  intros n Hn Hfuel. destruct (R4 n) as [-> Hl]; [congruence|done|]. split; [done|].
  cbn [length] in Hl. lia.
Qed.

(** X7: the file worker is memory safe.  Whatever the file holds, the
    allocator grants and the stop requests do, it reads and writes only
    inside its own live blocks, leaves every block of the rest of the
    program as it was, never blocks, and when it returns it has
    released its frame buffer and [display_active] reads 0. *)
Theorem display_thread_func_memory_safe (fuel : nat) (file : option (list Z))
    (st : driver) :
  wf st -> buffer_size st = 32768 ->
  let r := display_thread_func fuel file st in
  fault (final r) = fault st /\
  (forall q, (q < brk st)%nat -> heap (final r) !! q = heap st !! q) /\
  how r <> Waiting /\
  (how r = Returned ->
     display_active (final r) = false /\ heap (final r) !! brk st = None).
Proof.
  intros Hwf Hsize. cbv zeta.
  destruct (display_thread_func_guard False fuel file st Hwf Hsize ltac:(done))
    as ((_ & _ & Hf & _ & _ & Hold) & Hw & Hret & _).
  done.
Qed.

Lemma display_thread_func_memory_safe_witness :
  let st := set_active true boot in
  let r := display_thread_func 5 (Some [1; 2; 3]) st in
  fault (final r) = fault st /\
  (forall q, (q < brk st)%nat -> heap (final r) !! q = heap st !! q) /\
  how r <> Waiting /\
  (how r = Returned ->
     display_active (final r) = false /\ heap (final r) !! brk st = None).
Proof.
  apply (display_thread_func_memory_safe 5 (Some [1; 2; 3]) (set_active true boot));
    [|reflexivity].
  split; [cbn; lia|]. intros p _. apply lookup_empty.
Defined.


(** X8: a stop request always ends the file worker.  If [stop_display]
    clears the flag after [n] further reads of it, the worker returns
    within [n + 1] iterations, having shown at most [n] more frames,
    with its frame buffer released. *)
Theorem display_thread_func_stops (fuel n : nat) (file : option (list Z))
    (st : driver) :
  wf st -> buffer_size st = 32768 ->
  stop_after st = Some n -> (n < fuel)%nat ->
  let r := display_thread_func fuel file st in
  how r = Returned /\ (length (handed r) <= n)%nat /\
  display_active (final r) = false /\ heap (final r) !! brk st = None.
Proof.
  intros Hwf Hsize Hstop Hfuel. cbv zeta.
  destruct (display_thread_func_guard False fuel file st Hwf Hsize ltac:(done))
    as (_ & _ & Hret & Hend).
  destruct (Hend n Hstop Hfuel) as [Hr Hl]. split; [done|]. split; [done|]. by apply Hret.
Qed.

Lemma display_thread_func_stops_witness :
  let st := set_stop (Some 2%nat) (set_active true boot) in
  let r := display_thread_func 5 (Some [1; 2; 3]) st in
  how r = Returned /\ (length (handed r) <= 2)%nat /\
  display_active (final r) = false /\ heap (final r) !! brk st = None.
Proof.
  apply (display_thread_func_stops 5 2 (Some [1; 2; 3])
           (set_stop (Some 2%nat) (set_active true boot)));
    [|reflexivity|reflexivity|lia].
  split; [cbn; lia|]. intros p _. apply lookup_empty.
Defined.


(** The pipe worker as a whole. *)
Lemma pipe_thread_func_guard (P : Prop) (fuel : nat) (pipe : option (list chunk))
    (st : driver) :
  wf st -> buffer_size st = 32768 -> (P -> steady st) ->
  let r := pipe_thread_func fuel pipe st in
  guarded P (brk st) (heap st) (fault st) (final r) /\
  (how r = Returned ->
     heap (final r) !! brk st = None /\ heap (final r) !! S (brk st) = None) /\
  (forall n, stop_after st = Some n -> (n < fuel)%nat ->
     how r <> OutOfFuel /\ (length (handed r) <= n)%nat).
Proof.
  intros Hwf Hsize Hst. cbv zeta. pose proof (guarded_start P st Hwf Hsize Hst) as Hg.
  assert (0 <= frame_size) as Hfs0 by (rewrite frame_size_eq; lia).
  assert (forall s, guarded P (brk st) (heap st) (fault st) s ->
            heap s !! brk st = None -> heap s !! S (brk st) = None ->
            forall rest : list chunk,
            let r := Run Returned [] 0 rest (set_active false s) in
            guarded P (brk st) (heap st) (fault st) (final r) /\
            (how r = Returned ->
               heap (final r) !! brk st = None /\ heap (final r) !! S (brk st) = None) /\
            (forall n, stop_after st = Some n -> (n < fuel)%nat ->
               how r <> OutOfFuel /\ (length (handed r) <= n)%nat)) as Hearly.
  { intros s Hs G0 G1 rest. cbv zeta. cbn [final how handed]. simpl_st.
    split; [by apply guarded_flag|]. split; [done|]. intros n _ _. split; [done|cbn; lia]. }
  unfold pipe_thread_func. destruct pipe as [p|].
  2:{ apply (Hearly st Hg); apply Hwf; lia. }
  destruct (guarded_malloc _ _ _ _ frame_size st Hg) as (Hg1 & Hs1 & _ & Hob1 & Hcase1).
  pose proof (holds_fresh P (brk st) (heap st) (fault st) st (malloc frame_size st).2 Hg
                ltac:(lia)) as Hfresh0.
  destruct (malloc frame_size st) as [b0 st1]. cbn [fst snd] in *.
  destruct (decide (b0 = NULL)) as [Hnull|Hnn0].
  { destruct Hcase1 as [(_ & Hh & Hk)|(-> & _)].
    - apply (Hearly st1 Hg1); rewrite Hh; apply Hwf; lia.
    - destruct Hwf as [H0 _]. unfold NULL in Hnull. lia. }
  destruct Hcase1 as [(? & _)|(-> & Hk1 & Hh1)]; [done|].
  specialize (Hfresh0 Hh1 Hob1).
  destruct (guarded_malloc _ _ _ _ frame_size st1 Hg1) as (Hg2 & Hs2 & _ & Hob2 & Hcase2).
  pose proof (holds_fresh P (brk st) (heap st) (fault st) st1 (malloc frame_size st1).2 Hg1
                ltac:(lia)) as Hfresh1.
  destruct (malloc frame_size st1) as [b1 st2]. cbn [fst snd] in *.
  destruct (decide (b1 = NULL)) as [Hnull|Hnn1].
  { destruct Hcase2 as [(_ & Hh & Hk)|(-> & _)]; [|unfold NULL in Hnull; lia].
    assert (holds P (brk st) (brk st) st2) as Hhold0'
      by (apply (holds_same _ _ _ st1); [done|by rewrite Hh|done]).
    destruct (guarded_free _ _ _ _ (brk st) st2 Hg2 Hhold0') as (Hg3 & Hgone & Hrest & _).
    apply (Hearly _ Hg3 Hgone). rewrite Hrest by lia. apply Hg2. lia. }
  destruct Hcase2 as [(? & _)|(-> & Hk2 & Hh2)]; [done|].
  specialize (Hfresh1 Hh2 Hob2). rewrite Hk1 in *.
  assert (holds P (brk st) (brk st) st2) as H02.
  { apply (holds_same _ _ _ st1); [done| |done]. rewrite Hh2.
    by rewrite lookup_insert_ne by lia. }
  destruct (fill_frame_guard _ _ _ _ p (brk st) 0 st2 Hg2 H02 ltac:(lia))
    as (Hg3 & H03 & Hk3 & Hob3 & Hq3 & Hs3).
  destruct H02 as (_ & _ & _ & blk0 & Hb0 & Hl0).
  pose proof (fill_frame_content p (brk st) 0 st2 blk0 [] Hb0 Hl0 eq_refl Hfs0 eq_refl)
    as Hcontent.
  destruct (fill_frame p (brk st) 0 st2) as [t rest st3|st3] eqn:Hfill;
    cbn [fill_state] in *.
  2:{ cbn [final how handed]. split; [done|]. split; [done|].
      intros n _ _. split; [done|cbn; lia]. }
  assert (holds P (brk st) (S (brk st)) st3) as H13
    by (apply (holds_same _ _ _ st2); [done|apply Hq3; lia|done]).
  pose proof (fill_frame_bound _ _ _ _ _ _ _ Hfs0 Hfill) as Hb.
  destruct (Z.ltb_spec t frame_size).
  { destruct (guarded_cleanup _ _ _ _ (brk st) (S (brk st)) st3 Hg3 H03 H13 ltac:(lia))
      as (Hg4 & G0 & G1).
    by apply (Hearly _ Hg4). }
  assert (t = frame_size) as -> by lia.
  destruct (Hcontent _ _ _ eq_refl) as (data & blk' & E1 & E2 & E3 & E4 & _).
  cbn [app] in E4.
  assert (length data = Z.to_nat frame_size) as Hld by lia.
  apply full_block in E4; [|lia]. subst blk'.
  destruct (pipe_loop_safe _ _ _ _ fuel (brk st) (S (brk st)) 0 frame_size 1 rest [] st3 data
              Hg3 H03 H13 ltac:(lia) ltac:(by left) E2 Hld) as (R1 & R2 & R3).
  cbv zeta in *. split; [done|]. split; [done|].
  intros n Hn Hfuel. destruct (Hs3 n rest) as (k & Hk & Hle); [congruence|done|].
  destruct (R3 k Hk) as [Hhow Hl]; [lia|]. split; [done|]. cbn [length] in Hl. lia.
Qed.

(** X9: the pipe worker is memory safe.  Whatever the producer, the
    allocator and the stop requests do, it reads and writes only
    inside its own live blocks, every frame it converts is fully
    written, every block of the rest of the program is left as it
    was, and when it returns both frame buffers have been released,
    each once. *)
Theorem pipe_thread_func_memory_safe (fuel : nat) (pipe : option (list chunk))
    (st : driver) :
  wf st -> buffer_size st = 32768 ->
  let r := pipe_thread_func fuel pipe st in
  fault (final r) = fault st /\
  (forall q, (q < brk st)%nat -> heap (final r) !! q = heap st !! q) /\
  (how r = Returned ->
     heap (final r) !! brk st = None /\ heap (final r) !! S (brk st) = None).
Proof.
  intros Hwf Hsize. cbv zeta.
  destruct (pipe_thread_func_guard False fuel pipe st Hwf Hsize ltac:(done))
    as ((_ & _ & Hf & _ & _ & Hold) & Hret & _).
  done.
Qed.

Lemma pipe_thread_func_memory_safe_witness :
  let st := set_active true boot in
  let r := pipe_thread_func 5 (Some [Bytes 1 [2; 3]; Eof]) st in
  fault (final r) = fault st /\
  (forall q, (q < brk st)%nat -> heap (final r) !! q = heap st !! q) /\
  (how r = Returned ->
     heap (final r) !! brk st = None /\ heap (final r) !! S (brk st) = None).
Proof.
  apply (pipe_thread_func_memory_safe 5 (Some [Bytes 1 [2; 3]; Eof]) (set_active true boot));
    [|reflexivity].
  split; [cbn; lia|]. intros p _. apply lookup_empty.
Defined.


(** The worker waits only in a [read] that finds nothing. *)
Lemma pipe_loop_waiting fuel fb : forall ab t rec pipe shown st,
  how (pipe_loop fuel fb ab t rec pipe shown st) = Waiting ->
  remaining (pipe_loop fuel fb ab t rec pipe shown st) = [].
Proof.
  induction fuel as [|fuel IH]; intros ab t rec pipe shown st; [done|].
  cbn [pipe_loop]. destruct (observe_active st) as [[] st1]; [|done].
  destruct (fill_frame _ _ _ _) as [t' rest' st3|st3]; [|done].
  destruct (t' <? frame_size); [done|]. apply IH.
Qed.

(** X10: a stop request bounds the pipe worker.  If [stop_display]
    clears the flag after [n] further reads of it, the worker shows at
    most [n] more frames and does not loop beyond [n + 1] iterations:
    it returns, or it is blocked in [read] on a pipe that delivers
    nothing. *)
Theorem pipe_thread_func_stop_bound (fuel n : nat) (pipe : option (list chunk))
    (st : driver) :
  wf st -> buffer_size st = 32768 ->
  stop_after st = Some n -> (n < fuel)%nat ->
  let r := pipe_thread_func fuel pipe st in
  how r <> OutOfFuel /\ (length (handed r) <= n)%nat /\
  (how r = Waiting -> remaining r = []).
Proof.
  intros Hwf Hsize Hstop Hfuel. cbv zeta.
  destruct (pipe_thread_func_guard False fuel pipe st Hwf Hsize ltac:(done))
    as (_ & _ & Hend).
  destruct (Hend n Hstop Hfuel) as [Hr Hl]. split; [done|]. split; [done|].
  unfold pipe_thread_func. destruct pipe as [p|]; [|done].
  destruct (malloc frame_size st) as [b0 st1]. case_decide; [done|].
  destruct (malloc frame_size st1) as [b1 st2]. case_decide; [done|].
  destruct (fill_frame p b0 0 st2) as [t rest st3|st3]; [|done].
  destruct (t <? frame_size); [done|].
  apply pipe_loop_waiting.
Qed.

Lemma pipe_thread_func_stop_bound_witness :
  let st := set_stop (Some 2%nat) (set_active true boot) in
  let r := pipe_thread_func 5 (Some [Bytes 1 [2; 3]]) st in
  how r <> OutOfFuel /\ (length (handed r) <= 2)%nat /\
  (how r = Waiting -> remaining r = []).
Proof.
  apply (pipe_thread_func_stop_bound 5 2 (Some [Bytes 1 [2; 3]])
           (set_stop (Some 2%nat) (set_active true boot)));
    [|reflexivity|reflexivity|lia].
  split; [cbn; lia|]. intros p _. apply lookup_empty.
Defined.

End WorkerFacts.

Module SessionLife.
Import Color Driver Session Lifecycle Layout.
Import PassFacts PoolFacts SessionFacts FileFacts StreamFacts PoolLife WorkerFacts.

(** [oled_cleanup] touches neither the heap nor the pool. *)
Lemma oled_cleanup_frame (st : driver) :
  let st' := oled_cleanup st in
  heap st' = heap st /\ oled_buffers st' = oled_buffers st /\
  brk st' = brk st /\ fault st' = fault st /\
  display_active st' = false /\ pipe_created st' = false /\
  pipe_path st' = (if pipe_created st then None else pipe_path st) /\
  display_thread st' = (if display_active st then None else display_thread st) /\
  joined st' = (if display_active st then S (joined st) else joined st).
Proof.
  unfold oled_cleanup, stop_display.
  destruct (display_active st) eqn:Ha; simpl_st; rewrite ?Ha;
    destruct (pipe_created st) eqn:Hc; simpl_st; rewrite ?Ha; done.
Qed.

Lemma start_realtime_display_frame (mk sp : bool) (st : driver) :
  let r := start_realtime_display mk sp st in
  heap r.2 = heap st /\ oled_buffers r.2 = oled_buffers st /\
  brk r.2 = brk st /\ fault r.2 = fault st /\ joined r.2 = joined st /\
  (r.1 = 0 \/ r.1 = -1) /\
  (r.1 = 0 <-> display_active st = false /\ sp = true /\
               (pipe_path st = None -> mk = true)) /\
  (r.1 = 0 -> display_active r.2 = true /\ display_thread r.2 = Some PipeWorker) /\
  (r.1 = -1 -> display_active r.2 = display_active st /\
               display_thread r.2 = display_thread st) /\
  (display_active st = false -> pipe_created st = false ->
     pipe_path st = (if pipe_created r.2 then None else pipe_path r.2)).
Proof.
  unfold start_realtime_display.
  destruct (display_active st) eqn:Ha; [cbn [fst snd]; rewrite ?Ha; by intuition|].
  destruct (pipe_path st) as [n|] eqn:Hp; [|destruct mk]; destruct sp; simpl_st;
    rewrite ?Ha, ?Hp; repeat split; try done; try (by left); try (by right);
    try (intros (_ & ? & ?); done); try (intros (_ & _ & H); by specialize (H eq_refl));
    try (by intros _ ->).
Qed.

Lemma init_display_buffers_session st :
  pipe_created (init_display_buffers st).2 = pipe_created st /\
  pipe_path (init_display_buffers st).2 = pipe_path st /\
  joined (init_display_buffers st).2 = joined st /\
  display_thread (init_display_buffers st).2 = display_thread st.
Proof.
  unfold init_display_buffers.
  set (s0 := set_buffer_size _ st).
  assert (pipe_created s0 = pipe_created st /\ pipe_path s0 = pipe_path st /\
          joined s0 = joined st /\ display_thread s0 = display_thread st)
    as (A1 & A2 & A3 & A4) by done.
  clearbody s0.
  destruct (malloc_session (buffer_size s0) s0) as (B1 & B2 & B3 & B4).
  destruct (malloc (buffer_size s0) s0) as [p s1]. cbn [fst snd] in *.
  set (first := if decide ((oled_buffers s0).1 = NULL) then _ else _).
  assert (pipe_created first.2 = pipe_created st /\ pipe_path first.2 = pipe_path st /\
          joined first.2 = joined st /\ display_thread first.2 = display_thread st)
    as (C1 & C2 & C3 & C4).
  { unfold first. case_decide; [|done]. case_decide; cbn [snd]; simpl_st; [by rewrite B1, B2, B3, B4|].
    destruct (memset_session p 0 (buffer_size s1) (set_buffers (p, (oled_buffers s1).2) s1))
      as (-> & -> & -> & ->). simpl_st. by rewrite B1, B2, B3, B4. }
  clearbody first. destruct (first.1 =? -1); [done|].
  case_decide; [|done].
  destruct (malloc_session (buffer_size first.2) first.2) as (D1 & D2 & D3 & D4).
  destruct (malloc (buffer_size first.2) first.2) as [q s2]. cbn [fst snd] in *.
  case_decide; cbn [snd]; simpl_st.
  - destruct (free_session (oled_buffers s2).1 (set_buffers ((oled_buffers s2).1, q) s2))
      as (-> & -> & -> & ->). simpl_st. by rewrite D1, D2, D3, D4.
  - destruct (memset_session q 0 (buffer_size s2) (set_buffers ((oled_buffers s2).1, q) s2))
      as (-> & -> & -> & ->). simpl_st. by rewrite D1, D2, D3, D4.
Qed.

Lemma oled_cleanup_idle (st : driver) :
  display_active st = false -> pipe_created st = false -> oled_cleanup st = st.
Proof. intros Ha Hc. unfold oled_cleanup. rewrite Ha. by rewrite Hc. Qed.

(** The pipe worker leaves the session fields alone, but for the flag. *)
Lemma write_bytes_joined p off l st : joined (write_bytes p off l st) = joined st.
Proof. unfold write_bytes. repeat case_match; done. Qed.

Lemma fill_frame_session pipe buf : forall t st,
  let s' := fill_state (fill_frame pipe buf t st) in
  pipe_created s' = pipe_created st /\ pipe_path s' = pipe_path st /\
  joined s' = joined st /\ display_thread s' = display_thread st.
Proof.
  induction pipe as [|c pipe IH]; intros t st; cbn [fill_frame];
    (destruct (t <? frame_size); [|done]);
    destruct (observe_active_session st) as (O1 & O2 & O3 & O4 & _);
    destruct (observe_active st) as [a s1]; cbn [fst snd] in *;
    (destruct a; [|cbv zeta; cbn [fill_state]; done]).
  - cbv zeta. cbn [fill_state]. done.
  - destruct c as [b l| |]; [|cbv zeta; cbn [fill_state]; done..].
    destruct (_ <=? _).
    + cbv zeta.
      destruct (IH (t + Z.of_nat (length (b :: l))) (write_bytes buf t (b :: l) s1))
        as (-> & -> & -> & ->).
      destruct (write_bytes_session buf t (b :: l) s1) as (_ & _ & -> & -> & -> & _).
      rewrite write_bytes_joined. done.
    + cbv zeta. cbn [fill_state].
      destruct (write_bytes_session buf t (take (Z.to_nat (frame_size - t)) (b :: l)) s1)
        as (_ & _ & -> & -> & -> & _).
      rewrite write_bytes_joined. done.
Qed.

Lemma pipe_cleanup_session fb shown rec pipe st :
  let s' := final (pipe_cleanup fb shown rec pipe st) in
  pipe_created s' = pipe_created st /\ pipe_path s' = pipe_path st /\
  joined s' = joined st /\ display_thread s' = display_thread st.
Proof.
  cbv zeta. unfold pipe_cleanup. cbn [final].
  destruct (free_session fb.2 (free fb.1 st)) as (-> & -> & -> & ->).
  by destruct (free_session fb.1 st) as (-> & -> & -> & ->).
Qed.

Lemma pipe_loop_session fuel fb : forall ab t rec pipe shown st,
  let s' := final (pipe_loop fuel fb ab t rec pipe shown st) in
  pipe_created s' = pipe_created st /\ pipe_path s' = pipe_path st /\
  joined s' = joined st /\ display_thread s' = display_thread st.
Proof.
  induction fuel as [|fuel IH]; intros ab t rec pipe shown st; cbn [pipe_loop]; [done|].
  destruct (observe_active_session st) as (O1 & O2 & O3 & O4 & _).
  destruct (observe_active st) as [a s1]; cbn [fst snd] in *.
  destruct a.
  - cbv zeta.
    destruct (display_camera_frame_frame (sel fb ab) frame_size s1)
      as (_ & D1 & D2 & D3 & _ & D4 & _).
    cbv zeta in D1, D2, D3, D4.
    set (s2 := display_camera_frame (sel fb ab) frame_size s1) in *.
    pose proof (fill_frame_session pipe (sel fb (1 - ab)) 0 s2) as F. cbv zeta in F.
    destruct (fill_frame pipe (sel fb (1 - ab)) 0 s2) as [t' rest s3|s3];
      cbn [fill_state] in F; destruct F as (F1 & F2 & F3 & F4).
    + destruct (t' <? frame_size).
      * destruct (pipe_cleanup_session fb (t :: shown) rec rest s3) as (-> & -> & -> & ->).
        split; [congruence|]. split; [congruence|]. split; congruence.
      * destruct (IH (1 - ab) t' (rec + 1) rest (t :: shown) s3) as (-> & -> & -> & ->).
        split; [congruence|]. split; [congruence|]. split; congruence.
    + cbn [final]. split; [congruence|]. split; [congruence|]. split; congruence.
  - destruct (pipe_cleanup_session fb shown rec pipe s1) as (-> & -> & -> & ->). done.
Qed.

Lemma pipe_thread_func_session fuel pipe st :
  let s' := final (pipe_thread_func fuel pipe st) in
  pipe_created s' = pipe_created st /\ pipe_path s' = pipe_path st /\
  joined s' = joined st /\ display_thread s' = display_thread st.
Proof.
  cbv zeta. unfold pipe_thread_func. destruct pipe as [pipe|]; [|done].
  destruct (malloc_session frame_size st) as (M1 & M2 & M3 & M4).
  destruct (malloc frame_size st) as [b0 s1]. cbn [fst snd] in *.
  case_decide; [cbn [final]; simpl_st; done|].
  destruct (malloc_session frame_size s1) as (N1 & N2 & N3 & N4).
  destruct (malloc frame_size s1) as [b1 s2]. cbn [fst snd] in *.
  case_decide.
  { cbn [final]. simpl_st. destruct (free_session b0 s2) as (-> & -> & -> & ->).
    split; [congruence|]. split; [congruence|]. split; congruence. }
  pose proof (fill_frame_session pipe b0 0 s2) as F. cbv zeta in F.
  destruct (fill_frame pipe b0 0 s2) as [t' rest s3|s3]; cbn [fill_state] in F;
    destruct F as (F1 & F2 & F3 & F4).
  - destruct (t' <? frame_size).
    + cbn [final]. simpl_st.
      destruct (free_session b1 (free b0 s3)) as (-> & -> & -> & ->).
      destruct (free_session b0 s3) as (-> & -> & -> & ->).
      split; [congruence|]. split; [congruence|]. split; congruence.
    + destruct (pipe_loop_session fuel (b0, b1) 0 t' 1 rest [] s3) as (-> & -> & -> & ->).
      split; [congruence|]. split; [congruence|]. split; congruence.
  - cbn [final]. split; [congruence|]. split; [congruence|]. split; congruence.
Qed.

(** The worker beside its caller: the session fields stay, nothing
    faults, and no block of the rest of the program changes. *)
Lemma pipe_worker_at_frame time pipe st :
  wf st -> buffer_size st = 32768 ->
  let s' := pipe_worker_at time pipe st in
  pipe_created s' = pipe_created st /\ pipe_path s' = pipe_path st /\
  joined s' = joined st /\ display_thread s' = display_thread st /\
  fault s' = fault st /\ wf s' /\ buffer_size s' = 32768 /\
  (forall q, (q < brk st)%nat -> heap s' !! q = heap st !! q) /\
  (time = 0%nat -> s' = st).
Proof.
  intros Hwf Hsize. cbv zeta. destruct time as [|fuel]; cbn [pipe_worker_at].
  { repeat split; try done; apply Hwf. }
  destruct (pipe_thread_func_session fuel pipe st) as (-> & -> & -> & ->).
  destruct (pipe_thread_func_guard False fuel pipe st Hwf Hsize ltac:(done))
    as ((G1 & G2 & G3 & _ & _ & G6) & _).
  repeat split; try done; apply G1.
Qed.

(** X11: a whole realtime session.  After a successful [oled_init],
    [start_realtime_display], the pipe worker (if one was created)
    running for any time on any pipe, and [oled_cleanup]: no display
    is active, nothing has faulted and the pipe path is as it was
    found.  The worker is joined exactly when the flag is still set at
    the clean-up; one that ended on its own with the flag cleared is
    never joined and its handle stays.  The two display buffers of
    [oled_init] are still live, with their content, whatever the
    worker did: the shut-down path never releases them. *)
Theorem session_leaves_pool (st : driver) (mk sp : bool) (time : nat)
    (pipe : option (list chunk)) :
  wf st -> oled_buffers st = (NULL, NULL) ->
  display_active st = false -> pipe_created st = false ->
  (oled_init true st).1 = 0 ->
  let st1 := (oled_init true st).2 in
  let r := start_realtime_display mk sp st1 in
  let st2 := if r.1 =? 0 then pipe_worker_at time pipe r.2 else r.2 in
  let st3 := oled_cleanup st2 in
  display_active st3 = false /\ pipe_created st3 = false /\
  pipe_path st3 = pipe_path st /\ fault st3 = fault st /\
  (r.1 <> 0 -> display_active st2 = false) /\
  (r.1 = 0 -> time = 0%nat -> display_active st2 = true) /\
  joined st3 = (if display_active st2 then S (joined st) else joined st) /\
  display_thread st3 =
    (if display_active st2 then None
     else if r.1 =? 0 then Some PipeWorker else display_thread st) /\
  heap st3 !! brk st = Some black /\ heap st3 !! S (brk st) = Some black /\
  oled_cleanup st3 = st3.
Proof.
  intros Hwf Hbuf Ha Hc Hok. cbv zeta.
  assert (let s := (oled_init true st).2 in
          heap s = <[S (brk st) := black]> (<[brk st := black]> (heap st)) /\
          display_active s = false /\ pipe_created s = false /\
          pipe_path s = pipe_path st /\ joined s = joined st /\
          display_thread s = display_thread st /\
          wf s /\ buffer_size s = 32768 /\ fault s = fault st /\
          brk s = S (S (brk st))) as Hinit.
  { cbv zeta. revert Hok. unfold oled_init. cbn [negb].
    destruct (init_display_buffers_cases st Hwf Hbuf)
      as (Hsz & Hfl & Hwf1 & _ & _ & Hact & Hcase). cbv zeta in *.
    destruct (init_display_buffers_session st) as (Hpc & Hpp & Hj & Ht).
    destruct (init_display_buffers st) as [r0 s]. cbn [fst snd] in *.
    destruct Hcase as [(-> & Hb & Hh & Hk)|(-> & _)]; cbn [Z.eqb negb fst snd]; [|done].
    intros _. repeat split; try congruence; apply Hwf1. }
  cbv zeta in Hinit.
  destruct Hinit as (Hh1 & Ha1 & Hc1 & Hp1 & Hj1 & Ht1 & Hwf1 & Hs1 & Hf1 & Hk1).
  set (st1 := (oled_init true st).2) in *. clearbody st1.
  destruct (start_realtime_display_frame mk sp st1)
    as (Hh2 & _ & Hk2 & Hf2 & Hj2 & Hres & _ & Hok2 & Hfail2 & Hpath2).
  cbv zeta in *.
  assert (wf (start_realtime_display mk sp st1).2 /\
          buffer_size (start_realtime_display mk sp st1).2 = 32768) as [Hwf2 Hs2].
  { unfold start_realtime_display. destruct (display_active st1); [done|].
    destruct (pipe_path st1); [|destruct mk; [|done]]; by destruct sp. }
  destruct (start_realtime_display mk sp st1) as [r s2]. cbn [fst snd] in *.
  specialize (Hpath2 Ha1 Hc1).
  destruct (pipe_worker_at_frame time pipe s2 Hwf2 Hs2)
    as (W1 & W2 & W3 & W4 & W5 & _ & _ & W8 & W9). cbv zeta in *.
  set (st2 := if r =? 0 then pipe_worker_at time pipe s2 else s2).
  assert (pipe_created st2 = pipe_created s2 /\ pipe_path st2 = pipe_path s2 /\
          joined st2 = joined s2 /\ display_thread st2 = display_thread s2 /\
          fault st2 = fault s2 /\
          (forall q, (q < brk s2)%nat -> heap st2 !! q = heap s2 !! q))
    as (V1 & V2 & V3 & V4 & V5 & V6) by (subst st2; by destruct (r =? 0)).
  destruct (oled_cleanup_frame st2) as (Hh3 & _ & _ & Hf3 & Ha3 & Hc3 & Hp3 & Ht3 & Hj3).
  destruct (oled_cleanup_frame (oled_cleanup st2)) as (_ & _ & _ & _ & Ha4 & Hc4 & _).
  cbv zeta in *.
  split; [done|]. split; [done|].
  split; [rewrite Hp3, V1, V2, <- Hp1; symmetry; exact Hpath2|].
  split; [congruence|].
  split.
  { intros Hr. subst st2. destruct (Z.eqb_spec r 0); [done|].
    destruct Hres as [->| ->]; [done|]. destruct (Hfail2 eq_refl) as [-> _]. done. }
  split.
  { intros -> ->. subst st2. cbn [Z.eqb]. rewrite (W9 eq_refl).
    by destruct (Hok2 eq_refl). }
  split; [rewrite Hj3, V3, Hj2, Hj1; done|].
  split.
  { rewrite Ht3, V4. destruct (display_active st2) eqn:E; [done|].
    destruct Hres as [->| ->]; cbn [Z.eqb].
    - by destruct (Hok2 eq_refl).
    - destruct (Hfail2 eq_refl) as [_ ->]. done. }
  split; [rewrite Hh3, V6, Hh2, Hh1 by lia; rewrite lookup_insert_ne by lia;
          apply lookup_insert_eq|].
  split; [rewrite Hh3, V6, Hh2, Hh1 by lia; apply lookup_insert_eq|].
  by apply oled_cleanup_idle.
Qed.

Lemma session_leaves_pool_witness :
  let st1 := (oled_init true boot).2 in
  let r := start_realtime_display true true st1 in
  let st2 := if r.1 =? 0 then pipe_worker_at 1 (Some [Eof]) r.2 else r.2 in
  let st3 := oled_cleanup st2 in
  joined st3 = (if display_active st2 then S (joined boot) else joined boot) /\
  display_thread st3 =
    (if display_active st2 then None
     else if r.1 =? 0 then Some PipeWorker else display_thread boot) /\
  heap st3 !! brk boot = Some black /\ heap st3 !! S (brk boot) = Some black.
Proof.
  cbv zeta.
  destruct (session_leaves_pool boot true true 1 (Some [Eof]) wf_boot eq_refl eq_refl
              eq_refl) as (_ & _ & _ & _ & _ & _ & Hj & Ht & Hb0 & Hb1 & _).
  - unfold oled_init. cbn [negb].
    by rewrite (init_display_buffers_granted boot eq_refl eq_refl ltac:(cbn; lia)).
  - split; [exact Hj|]. split; [exact Ht|]. split; [exact Hb0|exact Hb1].
Defined.

(** X12: [play_latest_video] is never refused because a display is
    running.  With a file name recorded it first stops and joins the
    running worker, whichever it is, and then the file worker runs
    exactly when the file can be opened and the thread created; with
    no file name recorded it does nothing. *)
Theorem play_latest_video_restarts (name : list Z) (file_exists spawn_ok : bool)
    (st : driver) :
  let st' := play_latest_video name file_exists spawn_ok st in
  (name = [] -> st' = st) /\
  (name <> [] ->
     display_active st' = file_exists && spawn_ok /\
     display_thread st' =
       (if file_exists && spawn_ok then Some FileWorker
        else if display_active st then None else display_thread st) /\
     joined st' = (if display_active st then S (joined st) else joined st) /\
     heap st' = heap st /\ oled_buffers st' = oled_buffers st).
Proof.
  cbv zeta. unfold play_latest_video. split.
  - by intros ->.
  - intros Hname. destruct name as [|c name]; [done|]. cbn [length Nat.ltb Nat.leb].
    unfold is_display_active, stop_display, start_video_display.
    destruct (display_active st) eqn:Ha; cbn [Z.eqb negb]; simpl_st; rewrite ?Ha;
      destruct file_exists, spawn_ok; cbn [negb andb snd]; simpl_st; done.
Qed.

Lemma play_latest_video_restarts_witness :
  let st := (start_realtime_display true true boot).2 in
  let st' := play_latest_video [118; 46; 121] true true st in
  display_active st' = true && true /\
  display_thread st' =
    (if true && true then Some FileWorker
     else if display_active st then None else display_thread st) /\
  joined st' = (if display_active st then S (joined st) else joined st) /\
  heap st' = heap st /\ oled_buffers st' = oled_buffers st.
Proof.
  apply (play_latest_video_restarts [118; 46; 121] true true
           (start_realtime_display true true boot).2).
  done.
Defined.




End SessionLife.

Module ApiFacts.
Import Color Driver Session Lifecycle Layout Safety Api.
Import PassFacts PoolFacts SessionFacts FileFacts StreamFacts PoolLife FrameLife WorkerFacts.

Lemma sane_boot : sane boot.
Proof.
  split; [apply wf_boot|]. split; [reflexivity|]. split; [done|].
  unfold steady. cbn. repeat split; auto; done.
Qed.

(** A step that leaves the memory alone. *)
Lemma sane_session (st st' : driver) :
  sane st ->
  heap st' = heap st -> brk st' = brk st -> oled_buffers st' = oled_buffers st ->
  current_buffer st' = current_buffer st -> buffer_size st' = buffer_size st ->
  fault st' = fault st ->
  (display_active st' = true -> is_Some (display_thread st')) ->
  (pipe_created st' = true -> is_Some (pipe_path st')) ->
  sane st'.
Proof.
  intros ([H0 Hfresh] & Hsize & Hf & S1 & S2 & S3 & S4 & S5 & S6) Hh Hk Hob Hcb Hbs Hfl Ha Hp.
  split; [split; [lia|intros p Hq; rewrite Hh; apply Hfresh; lia]|].
  split; [congruence|]. split; [congruence|].
  unfold steady. rewrite Hob, Hcb, Hh. done.
Qed.

Lemma sane_start_video_display fe sp st :
  sane st -> sane (start_video_display fe sp st).2.
Proof.
  intros Hs. pose proof Hs as (_ & _ & _ & _ & _ & _ & _ & S5 & S6).
  unfold start_video_display.
  destruct (display_active st) eqn:Ha; [done|]. destruct fe; [|done]. cbn [negb].
  destruct sp; cbn [snd]; apply (sane_session st); simpl_st; try done; eauto.
Qed.

Lemma sane_start_realtime_display mk sp st :
  sane st -> sane (start_realtime_display mk sp st).2.
Proof.
  intros Hs. pose proof Hs as (_ & _ & _ & _ & _ & _ & _ & S5 & S6).
  unfold start_realtime_display.
  destruct (display_active st) eqn:Ha; [done|].
  destruct (pipe_path st) as [n|] eqn:Hp; [|destruct mk; [|done]];
    destruct sp; cbn [snd]; apply (sane_session st); simpl_st; try done;
    rewrite ?Hp; eauto.
Qed.

Lemma sane_stop_display st : sane st -> sane (stop_display st).
Proof.
  intros Hs. pose proof Hs as (_ & _ & _ & _ & _ & _ & _ & S5 & S6).
  unfold stop_display. destruct (display_active st) eqn:Ha; [|done].
  apply (sane_session st); simpl_st; done.
Qed.

Lemma sane_oled_cleanup st : sane st -> sane (oled_cleanup st).
Proof.
  intros Hs. unfold oled_cleanup.
  assert (sane (if display_active st then stop_display st else st)) as Hs1
    by (destruct (display_active st); [by apply sane_stop_display|done]).
  set (st1 := if display_active st then _ else _) in *. clearbody st1.
  pose proof Hs1 as (_ & _ & _ & _ & _ & _ & _ & S5 & S6).
  destruct (pipe_created st1) eqn:Hc; [|done].
  apply (sane_session st1); simpl_st; done.
Qed.

Lemma sane_signal_handler signum k st : sane st -> sane (signal_handler signum k st).2.
Proof.
  intros Hs. unfold signal_handler. destruct (signum =? SIGINT); [|done]. cbn [snd].
  destruct (negb _); [by apply sane_stop_display|done].
Qed.

Lemma sane_play_latest_video name fe sp st :
  sane st -> sane (play_latest_video name fe sp st).
Proof.
  intros Hs. unfold play_latest_video. destruct (_ <? _)%nat; [|done].
  apply sane_start_video_display. destruct (negb _); [by apply sane_stop_display|done].
Qed.

Lemma sane_env st :
  sane st ->
  (forall plan, sane (set_plan plan st)) /\ (forall n, sane (set_stop n st)) /\
  (forall m, sane (set_umask m st)).
Proof.
  intros Hs. pose proof Hs as (_ & _ & _ & _ & _ & _ & _ & S5 & S6).
  split; [|split]; intros x; apply (sane_session st); simpl_st; done.
Qed.

(** The same for a step that rearranges memory and pool. *)
Lemma sane_pool (st st' : driver) :
  sane st ->
  wf st' -> buffer_size st' = 32768 -> fault st' = false ->
  ((oled_buffers st').1 = NULL \/ is_Some (heap st' !! (oled_buffers st').1)) ->
  ((oled_buffers st').2 = NULL \/ is_Some (heap st' !! (oled_buffers st').2)) ->
  ((oled_buffers st').1 = NULL \/ (oled_buffers st').1 <> (oled_buffers st').2) ->
  current_buffer st' = current_buffer st ->
  display_active st' = display_active st -> display_thread st' = display_thread st ->
  pipe_created st' = pipe_created st -> pipe_path st' = pipe_path st ->
  sane st'.
Proof.
  intros (_ & _ & _ & _ & _ & _ & S4 & S5 & S6) Hwf Hsize Hf P1 P2 P3 Hc Ha Ht Hpc Hpp.
  split; [done|]. split; [done|]. split; [done|].
  unfold steady. rewrite Hc, Ha, Ht, Hpc, Hpp. done.
Qed.

Lemma sane_init_display_buffers st : sane st -> sane (init_display_buffers st).2.
Proof.
  intros Hs. pose proof Hs as ([Hpos Hfresh] & Hsize & Hf & S1 & S2 & S3 & _).
  unfold init_display_buffers. rewrite size_eq.
  destruct (oled_buffers st) as [b0 b1] eqn:Hbuf. cbn [fst snd] in S1, S2, S3.
  simpl_st. rewrite Hbuf. cbn [fst snd].
  set (st0 := set_buffer_size 32768 st).
  assert (heap st !! brk st = None) as Hbrk by (apply Hfresh; lia).
  assert (b1 = NULL \/ b1 <> brk st) as Hb1.
  { destruct S2 as [?|[x Hx]]; [by left|right]. intros ->. congruence. }
  destruct (decide (b0 = NULL)) as [->|Hb0].
  - destruct (malloc_cases 32768 st0) as [(E1 & plan & Ep & E2)|(E1 & E2 & _)];
      destruct (malloc 32768 st0) as [p st1]; cbn [fst snd] in E1, E2; subst p st1.
    + rewrite decide_True by done. cbn [fst snd Z.eqb]. subst st0.
      apply (sane_pool st); simpl_st; try done; rewrite ?Hbuf; cbn [fst snd]; auto.
    + subst st0. simpl_st. rewrite decide_False by (unfold NULL; lia). rewrite Hbuf.
      cbn [fst snd].
      rewrite memset_fresh; [|lia|simpl_st; apply lookup_insert_eq].
      cbn [fst snd Z.eqb]. simpl_st. destruct (decide (b1 = NULL)) as [->|Hnb1].
      * match goal with |- context [malloc 32768 ?s] => set (st2 := s) end.
        destruct (malloc_cases 32768 st2) as [(E1 & plan & Ep & E2)|(E1 & E2 & _)];
          destruct (malloc 32768 st2) as [q st3]; cbn [fst snd] in E1, E2; subst q st3.
        -- subst st2. simpl_st. rewrite decide_True by done. simpl_st. cbn [fst snd].
           erewrite free_releases; [|unfold NULL; lia|simpl_st; apply lookup_insert_eq].
           apply (sane_pool st); simpl_st; try done; auto.
           split; simpl_st; [lia|]. intros p Hp.
           rewrite lookup_delete_ne, !lookup_insert_ne by lia. apply Hfresh. lia.
        -- subst st2. simpl_st. rewrite decide_False by (unfold NULL; lia).
           cbn [fst snd].
           rewrite memset_fresh; [|lia|simpl_st; apply lookup_insert_eq].
           apply (sane_pool st); simpl_st; try done.
           ++ split; simpl_st; [lia|]. intros p Hp.
              rewrite !lookup_insert_ne by lia. apply Hfresh. lia.
           ++ right. rewrite lookup_insert_ne by lia. rewrite lookup_insert_ne by lia.
              by rewrite lookup_insert_eq.
           ++ right. by rewrite lookup_insert_eq.
           ++ right. lia.
      * destruct Hb1 as [?|Hb1]; [done|]. destruct S2 as [?|S2]; [done|].
        apply (sane_pool st); simpl_st; try done.
        -- split; simpl_st; [lia|]. intros p Hp.
           rewrite !lookup_insert_ne by lia. apply Hfresh. lia.
        -- right. by rewrite lookup_insert_eq.
        -- right. by rewrite !lookup_insert_ne by done.
        -- right. congruence.
  - destruct S1 as [?|[x0 Hx0]]; [done|]. destruct S3 as [?|S3]; [done|].
    assert (b0 <> brk st) as Hb0' by (intros ->; congruence).
    cbn [fst snd Z.eqb]. subst st0. simpl_st. rewrite Hbuf. cbn [fst snd].
    destruct (decide (b1 = NULL)) as [->|Hnb1].
    + match goal with |- context [malloc 32768 ?s] => set (st2 := s) end.
      destruct (malloc_cases 32768 st2) as [(E1 & plan & Ep & E2)|(E1 & E2 & _)];
        destruct (malloc 32768 st2) as [q st3]; cbn [fst snd] in E1, E2; subst q st3.
      * subst st2. simpl_st. rewrite decide_True by done. simpl_st. rewrite Hbuf.
        cbn [fst snd].
        erewrite free_releases; [|done|simpl_st; exact Hx0].
        apply (sane_pool st); simpl_st; try done; auto.
        split; simpl_st; [lia|]. intros p Hp.
        destruct (decide (p = b0)) as [->|Hpb]; [apply lookup_delete_eq|].
        rewrite lookup_delete_ne by done. by apply Hfresh.
      * subst st2. simpl_st. rewrite decide_False by (unfold NULL; lia).
        rewrite Hbuf. cbn [fst snd].
        rewrite memset_fresh; [|lia|simpl_st; apply lookup_insert_eq].
        apply (sane_pool st); simpl_st; try done.
        -- split; simpl_st; [lia|]. intros p Hp.
           rewrite !lookup_insert_ne by lia. apply Hfresh. lia.
        -- right. rewrite !lookup_insert_ne by done. by rewrite Hx0.
        -- right. by rewrite lookup_insert_eq.
        -- by right.
    + apply (sane_pool st); simpl_st; try done; rewrite Hbuf; cbn [fst snd]; auto.
Qed.

Lemma sane_oled_init dev_ok st : sane st -> sane (oled_init dev_ok st).2.
Proof.
  intros Hs. unfold oled_init. destruct dev_ok; [|done]. cbn [negb].
  pose proof (sane_init_display_buffers st Hs) as Hi.
  destruct (init_display_buffers st) as [r s]. by destruct (negb _).
Qed.

Lemma sane_free_display_buffers st : sane st -> sane (free_display_buffers st).
Proof.
  intros Hs. pose proof Hs as ([Hpos Hfresh] & Hsize & Hf & S1 & S2 & S3 & _).
  unfold free_display_buffers.
  destruct (oled_buffers st) as [b0 b1] eqn:Hbuf. cbn [fst snd] in *.
  destruct (decide (b0 = NULL)) as [->|Hb0].
  - rewrite Hbuf. cbn [fst snd]. destruct (decide (b1 = NULL)) as [->|Hb1]; [done|].
    destruct S2 as [?|[x1 Hx1]]; [done|]. rewrite (free_releases _ _ _ Hb1 Hx1).
    apply (sane_pool st); simpl_st; try done; auto.
    split; simpl_st; [lia|]. intros p Hp.
    destruct (decide (p = b1)) as [->|Hpb]; [apply lookup_delete_eq|].
    rewrite lookup_delete_ne by done. by apply Hfresh.
  - destruct S1 as [?|[x0 Hx0]]; [done|]. destruct S3 as [?|S3]; [done|].
    rewrite (free_releases _ _ _ Hb0 Hx0). simpl_st.
    destruct (decide (b1 = NULL)) as [->|Hb1].
    + apply (sane_pool st); simpl_st; try done; auto.
      split; simpl_st; [lia|]. intros p Hp.
      destruct (decide (p = b0)) as [->|Hpb]; [apply lookup_delete_eq|].
      rewrite lookup_delete_ne by done. by apply Hfresh.
    + destruct S2 as [?|[x1 Hx1]]; [done|].
      erewrite free_releases; [|done|simpl_st; rewrite lookup_delete_ne by done; exact Hx1].
      apply (sane_pool st); simpl_st; try done; auto.
      split; simpl_st; [lia|]. intros p Hp.
      destruct (decide (p = b1)) as [->|Hpb]; [apply lookup_delete_eq|].
      rewrite lookup_delete_ne by done.
      destruct (decide (p = b0)) as [->|Hpb0]; [apply lookup_delete_eq|].
      rewrite lookup_delete_ne by done. by apply Hfresh.
Qed.

Lemma sane_worker st :
  sane st ->
  (forall fuel file, sane (final (display_thread_func fuel file st))) /\
  (forall fuel pipe, sane (final (pipe_thread_func fuel pipe st))).
Proof.
  intros (Hwf & Hsize & Hf & Hst). split.
  - intros fuel file.
    destruct (display_thread_func_guard True fuel file st Hwf Hsize (fun _ => Hst))
      as [(G1 & G2 & G3 & _ & G5 & _) _].
    split; [done|]. split; [done|]. split; [congruence|by apply G5].
  - intros fuel pipe.
    destruct (pipe_thread_func_guard True fuel pipe st Hwf Hsize (fun _ => Hst))
      as [(G1 & G2 & G3 & _ & G5 & _) _].
    split; [done|]. split; [done|]. split; [congruence|by apply G5].
Qed.

Lemma sane_pipe_worker_at time pipe st : sane st -> sane (pipe_worker_at time pipe st).
Proof.
  intros Hs. destruct time as [|fuel]; [done|]. cbn [pipe_worker_at].
  by apply sane_worker.
Qed.

Lemma sane_capture_video yuv h264 rt ch mk sp pid ex sys pipe seen extra cap st :
  sane st ->
  sane (match capture_video yuv h264 rt ch mk sp pid ex sys pipe seen extra cap st with
        | Some res => res.2
        | None => st
        end).
Proof.
  intros Hs. unfold capture_video.
  destruct yuv; [| |done]; (destruct h264; [| |done]).
  all: destruct rt; [|by destruct (negb _)].
  all: assert (forall n s, sane s -> sane (set_pipe_path (Some n) s)) as Hset
         by (intros n s Hsane; pose proof Hsane as (_ & _ & _ & _ & _ & _ & _ & S5 & S6);
             apply (sane_session s); simpl_st; eauto).
  all: destruct (pipe_path st) as [[[] m]|] eqn:Hp; [| | |destruct mk];
         cbn [node_kind snd]; try done; simpl_st; rewrite ?Hp; cbn [node_kind].
  all: destruct ch.
  all: match goal with
       | |- context [start_realtime_display ?a ?b ?s] =>
           pose proof (sane_start_realtime_display a b s
                         ltac:(first [done|by repeat apply Hset])) as Hst;
           destruct (start_realtime_display a b s) as [r s']; cbn [snd] in Hst
       end.
  all: destruct (negb _); [done|].
  all: destruct (pid =? 0); [destruct ex; [done|by apply sane_pipe_worker_at]|].
  all: destruct (pid <? 0); [by apply sane_pipe_worker_at|].
  all: destruct (display_active _); cbn [snd];
         [by apply sane_stop_display, sane_pipe_worker_at|by apply sane_pipe_worker_at].
Qed.

Lemma sane_step c st : sane st -> sane (step c st).
Proof.
  intros Hs. destruct c; cbn [step].
  - by apply sane_oled_init.
  - by apply sane_init_display_buffers.
  - by apply sane_free_display_buffers.
  - by apply sane_start_video_display.
  - by apply sane_start_realtime_display.
  - by apply sane_stop_display.
  - by apply sane_oled_cleanup.
  - by apply sane_signal_handler.
  - by apply sane_play_latest_video.
  - by apply sane_capture_video.
  - by apply sane_worker.
  - by apply sane_worker.
  - by apply sane_env.
  - by apply sane_env.
  - by apply sane_env.
Qed.

Lemma sane_run calls st : sane st -> sane (run calls st).
Proof.
  revert st. induction calls as [|c calls IH]; intros st Hs; [done|].
  cbn [run fold_left]. apply IH. by apply sane_step.
Qed.

(** X23: whatever sequence of driver calls, whole worker runs,
    allocator answers and stop requests follows the static
    initialisers, no access ever leaves a live block and nothing is
    released twice; each pool pointer is [NULL] or live, and the two
    differ unless the first is [NULL]; the buffer index is 0 or 1; the
    flag is set only with a created thread behind it, so that
    [stop_display] never joins a thread that was not created; and
    [pipe_created] is set only with a node at the pipe path. *)
Theorem run_from_boot_sane (calls : list call) :
  let st := run calls boot in
  fault st = false /\
  buffer_size st = 32768 /\
  ((oled_buffers st).1 = NULL \/ is_Some (heap st !! (oled_buffers st).1)) /\
  ((oled_buffers st).2 = NULL \/ is_Some (heap st !! (oled_buffers st).2)) /\
  ((oled_buffers st).1 = NULL \/ (oled_buffers st).1 <> (oled_buffers st).2) /\
  (current_buffer st = 0 \/ current_buffer st = 1) /\
  (display_active st = true -> is_Some (display_thread st)) /\
  (pipe_created st = true -> is_Some (pipe_path st)).
Proof.
  cbv zeta. destruct (sane_run calls boot sane_boot) as (_ & Hsize & Hf & Hst).
  split; [done|]. split; [done|]. exact Hst.
Qed.

End ApiFacts.

Module ColorLife.
Import Color ColorFacts PassFacts.

Lemma land_248 r : is_byte r -> Z.land r 248 = 8 * (r / 8).
Proof.
  intros Hr.
  assert (forallb (fun n => Z.land (Z.of_nat n) 248 =? 8 * (Z.of_nat n / 8))
            (seq 0 256) = true) as Hall by (vm_compute; reflexivity).
  rewrite forallb_forall in Hall. unfold is_byte in Hr.
  specialize (Hall (Z.to_nat r)). rewrite Z2Nat.id in Hall by lia.
  apply Z.eqb_eq, Hall, in_seq. lia.
Qed.

Lemma land_252 g : is_byte g -> Z.land g 252 = 4 * (g / 4).
Proof.
  intros Hg.
  assert (forallb (fun n => Z.land (Z.of_nat n) 252 =? 4 * (Z.of_nat n / 4))
            (seq 0 256) = true) as Hall by (vm_compute; reflexivity).
  rewrite forallb_forall in Hall. unfold is_byte in Hg.
  specialize (Hall (Z.to_nat g)). rewrite Z2Nat.id in Hall by lia.
  apply Z.eqb_eq, Hall, in_seq. lia.
Qed.

(** Bits that do not overlap add up. *)
Lemma lor_disjoint a b n :
  0 <= n -> 0 <= b < 2 ^ n -> Z.lor (a * 2 ^ n) b = a * 2 ^ n + b.
Proof.
  intros Hn Hb.
  assert (Z.land (a * 2 ^ n) b = 0) as Hland.
  { replace b with (Z.land (Z.ones n) b)
      by (rewrite Z.land_comm, Z.land_ones, Z.mod_small; lia).
    rewrite Z.land_assoc, (Z.land_ones (a * 2 ^ n)) by lia.
    rewrite Z.mod_mul by lia. apply Z.land_0_l. }
  rewrite <- Z.lxor_lor by done. symmetry. by apply Z.add_nocarry_lxor.
Qed.

(** The packed pixel as a sum of its three fields. *)
Lemma rgb565_sum r g b :
  is_byte r -> is_byte g -> is_byte b ->
  rgb565 r g b = (r / 8) * 2048 + (g / 4) * 32 + b / 8.
Proof.
  intros Hr Hg Hb. unfold rgb565. rewrite land_248, land_252 by done.
  rewrite !Z.shiftl_mul_pow2, Z.shiftr_div_pow2 by lia.
  unfold is_byte in *.
  assert (0 <= r / 8 < 32) by (split; [apply Z.div_pos; lia|apply Z.div_lt_upper_bound; lia]).
  assert (0 <= g / 4 < 64) by (split; [apply Z.div_pos; lia|apply Z.div_lt_upper_bound; lia]).
  assert (0 <= b / 8 < 32) by (split; [apply Z.div_pos; lia|apply Z.div_lt_upper_bound; lia]).
  replace (8 * (r / 8) * 2 ^ 8) with ((r / 8) * 2 ^ 11) by (change (2 ^ 11) with (8 * 2 ^ 8); ring).
  replace (4 * (g / 4) * 2 ^ 3) with ((g / 4) * 2 ^ 5) by (change (2 ^ 5) with (4 * 2 ^ 3); ring).
  rewrite (lor_disjoint (r / 8) ((g / 4) * 2 ^ 5) 11) by (change (2 ^ 5) with 32; change (2 ^ 11) with 2048; lia).
  replace (r / 8 * 2 ^ 11 + g / 4 * 2 ^ 5) with ((r / 8 * 64 + g / 4) * 2 ^ 5)
    by (change (2 ^ 11) with (64 * 2 ^ 5); ring).
  rewrite lor_disjoint by (change (2 ^ 3) with 8; change (2 ^ 5) with 32; lia).
  change (2 ^ 5) with 32. change (2 ^ 3) with 8. ring.
Qed.

(** X14: the pixel packing keeps the top five, six and five bits of the
    three channels and nothing else: on bytes, the red, green and blue
    fields of the packed 16-bit value are [r / 8], [g / 4] and [b / 8],
    and the value is determined by them. *)
Theorem pack565_fields (r g b : Z) :
  is_byte r -> is_byte g -> is_byte b ->
  pack565 r g b / 2048 = r / 8 /\
  (pack565 r g b / 32) mod 64 = g / 4 /\
  pack565 r g b mod 32 = b / 8 /\
  pack565 r g b = (r / 8) * 2048 + (g / 4) * 32 + b / 8.
Proof.
  intros Hr Hg Hb. rewrite pack565_rgb565, rgb565_sum by done.
  unfold is_byte in *.
  assert (0 <= r / 8 < 32) by (split; [apply Z.div_pos; lia|apply Z.div_lt_upper_bound; lia]).
  assert (0 <= g / 4 < 64) by (split; [apply Z.div_pos; lia|apply Z.div_lt_upper_bound; lia]).
  assert (0 <= b / 8 < 32) by (split; [apply Z.div_pos; lia|apply Z.div_lt_upper_bound; lia]).
  set (R := r / 8) in *. set (G := g / 4) in *. set (B := b / 8) in *.
  split; [|split; [|split; [|done]]].
  - symmetry. apply (Z.div_unique _ _ _ (G * 32 + B)); lia.
  - replace ((R * 2048 + G * 32 + B) / 32) with (R * 64 + G)
      by (apply (Z.div_unique _ _ _ B); lia).
    symmetry. apply (Z.mod_unique _ _ R); lia.
  - symmetry. apply (Z.mod_unique _ _ (R * 64 + G)); lia.
Qed.

Lemma pack565_fields_witness :
  pack565 200 100 50 / 2048 = 200 / 8 /\
  (pack565 200 100 50 / 32) mod 64 = 100 / 4 /\
  pack565 200 100 50 mod 32 = 50 / 8 /\
  pack565 200 100 50 = (200 / 8) * 2048 + (100 / 4) * 32 + 50 / 8.
Proof. apply (pack565_fields 200 100 50); unfold is_byte; lia. Defined.

Lemma clamp8_mono a b : a <= b -> clamp8 a <= clamp8 b.
Proof. unfold clamp8. lia. Qed.

Lemma shiftr8_mono a b : a <= b -> Z.shiftr a 8 <= Z.shiftr b 8.
Proof. intros H. rewrite !Z.shiftr_div_pow2 by lia. apply Z.div_le_mono; lia. Qed.

(** X15: more luma never darkens a channel, and neutral chroma gives
    grey.  For the same chroma, raising [y] lowers none of the three
    results; with [u = v = 128] the three results are equal, 0 up to
    [y = 16] and 255 from [y = 235] on. *)
Theorem yuv420_to_rgb_monotone (y y' u v : Z) :
  y <= y' ->
  (let '(r, g, b) := yuv420_to_rgb y u v in
   let '(r', g', b') := yuv420_to_rgb y' u v in
   r <= r' /\ g <= g' /\ b <= b') /\
  (let '(r, g, b) := yuv420_to_rgb y 128 128 in
   r = g /\ g = b /\ (y <= 16 -> r = 0) /\ (235 <= y -> r = 255)).
Proof.
  intros Hy. rewrite !yuv420_to_rgb_spec. unfold convert_spec. cbv zeta. split.
  - split; [|split]; apply clamp8_mono, shiftr8_mono; lia.
  - replace (128 - 128) with 0 by lia. rewrite !Z.mul_0_r, !Z.add_0_r, !Z.sub_0_r.
    split; [done|]. split; [done|].
    rewrite Z.shiftr_div_pow2 by lia. change (2 ^ 8) with 256. unfold clamp8.
    split; intros Hb.
    + assert ((298 * (y - 16) + 128) / 256 <= 0); [|lia].
      apply Z.lt_succ_r, Z.div_lt_upper_bound; lia.
    + assert (255 <= (298 * (y - 16) + 128) / 256); [|lia].
      apply Z.div_le_lower_bound; lia.
Qed.

Lemma yuv420_to_rgb_monotone_witness :
  (let '(r, g, b) := yuv420_to_rgb 60 90 200 in
   let '(r', g', b') := yuv420_to_rgb 61 90 200 in
   r <= r' /\ g <= g' /\ b <= b') /\
  (let '(r, g, b) := yuv420_to_rgb 60 128 128 in
   r = g /\ g = b /\ (60 <= 16 -> r = 0) /\ (235 <= 60 -> r = 255)).
Proof. apply (yuv420_to_rgb_monotone 60 61 90 200). lia. Defined.
End ColorLife.

Module TextFacts.
Import Text.

Lemma upto_upto p q l : upto q (upto p l) = upto (fun x => p x || q x) l.
Proof.
  induction l as [|x l IH]; [done|]. cbn [upto].
  destruct (p x); [done|]. cbn [upto orb]. destruct (q x); [done|]. by rewrite IH.
Qed.

Lemma upto_clean p l : Forall (fun x => p x = false) (upto p l).
Proof.
  induction l as [|x l IH]; cbn [upto]; [constructor|].
  destruct (p x) eqn:E; [constructor|by constructor].
Qed.

Lemma upto_all p l : Forall (fun x => p x = false) l -> upto p l = l.
Proof.
  induction 1 as [|x l Hx _ IH]; [done|]. cbn [upto]. by rewrite Hx, IH.
Qed.

Lemma upto_app p l x rest :
  Forall (fun x => p x = false) l -> p x = true -> upto p (l ++ x :: rest) = l.
Proof.
  induction 1 as [|y l Hy _ IH]; intros Hx; cbn [upto app]; [by rewrite Hx|].
  by rewrite Hy, IH.
Qed.

Lemma from_app p l x rest :
  Forall (fun x => p x = false) l -> p x = true -> from p (l ++ x :: rest) = x :: rest.
Proof.
  induction 1 as [|y l Hy _ IH]; intros Hx; cbn [from app]; [by rewrite Hx|].
  by rewrite Hy, IH.
Qed.

Lemma from_all p l : Forall (fun x => p x = false) l -> from p l = [].
Proof. induction 1 as [|x l Hx _ IH]; [done|]. cbn [from]. by rewrite Hx. Qed.

Lemma upto_prefix p l : upto p l `prefix_of` l.
Proof.
  induction l as [|x l IH]; cbn [upto]; [done|].
  destruct (p x); [apply prefix_nil|by apply prefix_cons].
Qed.

Lemma upto_length p l : (length (upto p l) <= length l)%nat.
Proof. apply prefix_length, upto_prefix. Qed.

(** One scan-and-cut of [strip_newline] on a terminated buffer. *)
Lemma cut_spec c : c <> NUL -> forall buf, In NUL buf ->
  exists buf', cut c buf = Some buf' /\ length buf' = length buf /\ In NUL buf' /\
    cstr buf' = upto (is_char c) (cstr buf) /\
    forall i, (length (cstr buf) <= i)%nat -> buf' !! i = buf !! i.
Proof.
  intros Hc. induction buf as [|x rest IH]; intros Hin; [done|].
  unfold cut. cbn [strchr]. unfold cstr, is_char in *.
  destruct (Z.eqb_spec x c) as [->|Hxc].
  { exists (NUL :: rest). split; [done|]. split; [done|]. split; [by left|].
    cbn [upto]. destruct (Z.eqb_spec c NUL); [done|]. cbn [upto].
    rewrite !Z.eqb_refl. split; [done|]. intros [|i] Hi; [cbn in Hi; lia|done]. }
  destruct (Z.eqb_spec x NUL) as [->|Hx0].
  { exists (NUL :: rest). split; [done|]. split; [done|]. split; [by left|]. done. }
  destruct Hin as [?|Hin]; [done|].
  destruct (IH Hin) as (rest' & Hcut & Hlen & Hnul & Hstr & Hkeep).
  unfold cut in Hcut. exists (x :: rest').
  cbn [upto]. destruct (Z.eqb_spec x NUL); [done|]. cbn [upto].
  destruct (Z.eqb_spec x c); [done|].
  split.
  { destruct (strchr rest c); [by injection Hcut as <-|congruence|done]. }
  split; [cbn [length]; lia|]. split; [by right|]. split; [by rewrite Hstr|].
  intros [|i] Hi; [done|]. cbn [length] in Hi. cbn [lookup list_lookup]. apply Hkeep. lia.
Qed.

(** X16: on a buffer that holds a terminated string, [strip_newline]
    stays inside the buffer and leaves the longest prefix of the
    string that has neither a line feed nor a carriage return; the
    buffer keeps its size and its bytes from the old terminator on. *)
Theorem strip_newline_spec (buf : list Z) :
  In NUL buf ->
  exists buf', strip_newline buf = Some buf' /\
    length buf' = length buf /\
    cstr buf' = upto (fun x => is_char LF x || is_char CR x) (cstr buf) /\
    Forall (fun x => x <> LF /\ x <> CR) (cstr buf') /\
    cstr buf' `prefix_of` cstr buf /\
    forall i, (length (cstr buf) <= i)%nat -> buf' !! i = buf !! i.
Proof.
  intros Hin. unfold strip_newline.
  destruct (cut_spec LF ltac:(done) buf Hin) as (b1 & -> & Hl1 & Hin1 & Hs1 & Hk1).
  destruct (cut_spec CR ltac:(done) b1 Hin1) as (b2 & -> & Hl2 & Hin2 & Hs2 & Hk2).
  exists b2. split; [done|]. split; [congruence|].
  assert (cstr b2 = upto (fun x => is_char LF x || is_char CR x) (cstr buf)) as Hs
    by (by rewrite Hs2, Hs1, upto_upto).
  split; [done|]. split; [|split].
  - rewrite Hs. eapply Forall_impl; [apply upto_clean|]. cbn beta.
    intros x Hx. apply orb_false_iff in Hx as [H1 H2]. unfold is_char in *.
    split; intros ->; done.
  - rewrite Hs. apply upto_prefix.
  - intros i Hi. rewrite Hk2, Hk1; [done|done|].
    rewrite Hs1. pose proof (upto_length (is_char LF) (cstr buf)). lia.
Qed.

Lemma strip_newline_spec_witness :
  let buf : list Z := [66; 97; 116; 13; 10; 0; 7] in
  exists buf', strip_newline buf = Some buf' /\
    length buf' = length buf /\
    cstr buf' = upto (fun x => is_char LF x || is_char CR x) (cstr buf) /\
    Forall (fun x => x <> LF /\ x <> CR) (cstr buf') /\
    cstr buf' `prefix_of` cstr buf /\
    forall i, (length (cstr buf) <= i)%nat -> buf' !! i = buf !! i.
Proof. apply (strip_newline_spec [66; 97; 116; 13; 10; 0; 7]). cbn. tauto. Defined.


(** *** [strncpy] into a field *)

Lemma strncpy_length dest src n :
  (n <= length dest)%nat -> length (strncpy dest src n) = length dest.
Proof.
  intros Hn. unfold strncpy.
  rewrite length_app, length_take, length_app, length_replicate, length_drop. lia.
Qed.

Lemma strncpy_rest dest src n i :
  (n <= i)%nat -> strncpy dest src n !! i = dest !! i.
Proof.
  intros Hi. unfold strncpy.
  assert (length (take n (src ++ replicate n NUL)) = n) as Hl
    by (rewrite length_take, length_app, length_replicate; lia).
  rewrite lookup_app_r by lia. rewrite Hl, lookup_drop. f_equal. lia.
Qed.

Lemma strncpy_terminated dest src :
  terminated dest -> terminated (strncpy dest src (MAX_CELL_SIZE - 1)).
Proof.
  intros [Hl Hz]. split.
  - rewrite strncpy_length; [done|]. rewrite Hl. unfold MAX_CELL_SIZE. lia.
  - by rewrite strncpy_rest.
Qed.

Lemma cstr_app_nul l rest :
  Forall (fun x => x <> NUL) l -> cstr (l ++ NUL :: rest) = l.
Proof.
  intros Hl. unfold cstr. apply upto_app; [|done].
  eapply Forall_impl; [done|]. intros x Hx. unfold is_char. by apply Z.eqb_neq.
Qed.

Lemma cstr_clean l : Forall (fun x => x <> NUL) l -> cstr l = l.
Proof.
  intros Hl. unfold cstr. apply upto_all.
  eapply Forall_impl; [done|]. intros x Hx. unfold is_char. by apply Z.eqb_neq.
Qed.

(** The string a field holds after the copy: the token, cut to 99
    bytes. *)
Lemma cstr_strncpy dest src :
  terminated dest -> Forall (fun x => x <> NUL) src ->
  cstr (strncpy dest src (MAX_CELL_SIZE - 1)) = take (MAX_CELL_SIZE - 1) src.
Proof.
  intros [Hl Hz] Hsrc. unfold strncpy, MAX_CELL_SIZE in *.
  change (100 - 1)%nat with 99%nat in *.
  assert (drop 99 dest = [NUL]) as ->.
  { apply list_eq. intros [|i]; rewrite lookup_drop.
    - by rewrite Nat.add_0_r.
    - cbn. apply lookup_ge_None. lia. }
  destruct (Nat.le_gt_cases 99 (length src)) as [Hlong|Hshort].
  - rewrite take_app_le by done. apply cstr_app_nul. by apply Forall_take.
  - rewrite take_app_ge by lia. rewrite (take_ge src) by lia.
    destruct (99 - length src)%nat as [|k] eqn:Hk; [lia|].
    rewrite take_replicate. rewrite Nat.min_l by lia.
    cbn [replicate]. rewrite <- app_assoc. cbn [app]. by apply cstr_app_nul.
Qed.

(** *** [strtok] and the runs between commas *)

Lemma runs_acc s : forall cur, cur <> [] ->
  runs s cur
  = (rev cur ++ upto (is_char COMMA) s) :: runs (drop 1 (from (is_char COMMA) s)) [].
Proof.
  induction s as [|c rest IH]; intros cur Hcur; cbn [runs upto from drop].
  - rewrite app_nil_r. by destruct cur.
  - unfold is_char at 1 3. destruct (c =? COMMA).
    + rewrite app_nil_r. cbn [drop]. by destruct cur.
    + rewrite IH by done. cbn [rev]. by rewrite <- app_assoc.
Qed.

Lemma runs_skip s :
  runs s [] = runs (from (fun x => negb (is_char COMMA x)) s) [].
Proof.
  induction s as [|c rest IH]; [done|]. cbn [runs from]. unfold is_char at 1.
  destruct (c =? COMMA) eqn:E; cbn [negb]; [done|]. cbn [runs]. by rewrite E.
Qed.

Lemma from_head p s x rest : from p s = x :: rest -> p x = true.
Proof.
  induction s as [|c s IH]; [done|]. cbn [from]. destruct (p c) eqn:E; [|done].
  by intros [= <- _].
Qed.

Lemma strtok_runs s :
  (strtok s).1 = head (runs s []) /\ runs (strtok s).2 [] = tail (runs s []).
Proof.
  unfold strtok. rewrite (runs_skip s).
  destruct (from _ s) as [|c rest] eqn:E; [done|].
  apply from_head in E. apply negb_true_iff in E.
  cbn [runs fst snd upto from]. unfold is_char in E. rewrite E.
  unfold is_char at 1 3. rewrite E.
  rewrite runs_acc by done. done.
Qed.

Lemma next_cell_runs (f : list Z) (s : list Z) (all : list (list Z)) (k : nat) :
  runs s [] = drop k all ->
  (next_cell f s).1
    = match all !! k with
      | Some t => strncpy f t (MAX_CELL_SIZE - 1)
      | None => f
      end /\
  runs (next_cell f s).2 [] = drop (S k) all.
Proof.
  intros Hs. destruct (strtok_runs s) as [Ht Hr]. unfold next_cell.
  rewrite Hs in Ht, Hr. rewrite <- (Nat.add_0_r k), <- lookup_drop, <- head_lookup, <- Ht.
  rewrite Nat.add_0_r.
  replace (drop (S k) all) with (tail (drop k all))
    by (by rewrite <- drop_S_tail || (clear; revert k; induction all; intros [|k]; cbn; auto)).
  destruct (strtok s) as [[t|] s']; cbn [fst snd] in *; done.
Qed.

(** [parse_csv] on a file of at least two lines, field by field. *)
Lemma parse_csv_cells (content header rest line rest' : list Z) (data last : CSVData) :
  fgets BUFFER_SIZE content = Some (header, rest) ->
  fgets BUFFER_SIZE rest = Some (line, rest') ->
  exists d, parse_csv (Some content) data last = (0, d, d) /\
    forall i f, cells data !! i = Some f ->
      cells d !! i
      = Some (match runs (cstr line) [] !! i with
              | Some t => strncpy f t (MAX_CELL_SIZE - 1)
              | None => f
              end).
Proof.
  intros H1 H2. unfold parse_csv. rewrite H1, H2.
  set (all := runs (cstr line) []).
  assert (runs (cstr line) [] = drop 0 all) as R0 by done.
  destruct (next_cell_runs (step_ID data) _ all 0 R0) as [E1 R1].
  destruct (next_cell (step_ID data) (cstr line)) as [f1 s1]. cbn [fst snd] in *.
  destruct (next_cell_runs (routeState data) _ all 1 R1) as [E2 R2].
  destruct (next_cell (routeState data) s1) as [f2 s2]. cbn [fst snd] in *.
  destruct (next_cell_runs (street_name data) _ all 2 R2) as [E3 R3].
  destruct (next_cell (street_name data) s2) as [f3 s3]. cbn [fst snd] in *.
  destruct (next_cell_runs (distance data) _ all 3 R3) as [E4 R4].
  destruct (next_cell (distance data) s3) as [f4 s4]. cbn [fst snd] in *.
  destruct (next_cell_runs (maneuverID data) _ all 4 R4) as [E5 R5].
  destruct (next_cell (maneuverID data) s4) as [f5 s5]. cbn [fst snd] in *.
  destruct (next_cell_runs (arrival_time data) _ all 5 R5) as [E6 R6].
  destruct (next_cell (arrival_time data) s5) as [f6 s6]. cbn [fst snd] in *.
  destruct (next_cell_runs (currentTemp data) _ all 6 R6) as [E7 R7].
  destruct (next_cell (currentTemp data) s6) as [f7 s7]. cbn [fst snd] in *.
  destruct (next_cell_runs (currentWeather data) _ all 7 R7) as [E8 R8].
  destruct (next_cell (currentWeather data) s7) as [f8 s8]. cbn [fst snd] in *.
  destruct (next_cell_runs (instructions data) _ all 8 R8) as [E9 R9].
  destruct (next_cell (instructions data) s8) as [f9 s9]. cbn [fst snd] in *.
  eexists. split; [done|]. subst. unfold cells. cbn [step_ID routeState street_name
    distance maneuverID arrival_time currentTemp currentWeather instructions].
  intros i f Hi.
  do 9 (destruct i as [|i]; [cbn in Hi |- *; by injection Hi as <-|]). done.
Qed.


(** *** Lines *)

Lemma read_line_short (l rest : list Z) : forall k,
  Forall (fun x => x <> LF) l -> (length l < k)%nat ->
  read_line k (l ++ LF :: rest) = (l ++ [LF], rest).
Proof.
  induction l as [|c l IH]; intros k Hl Hk.
  - destruct k as [|k]; [cbn in Hk; lia|]. cbn [app read_line]. by rewrite Z.eqb_refl.
  - apply Forall_cons in Hl as [Hc Hl]. destruct k as [|k]; [cbn in Hk; lia|].
    cbn [app read_line]. destruct (Z.eqb_spec c LF); [done|].
    rewrite IH; [done|done|cbn [length] in Hk; lia].
Qed.

Lemma fgets_line (l rest : list Z) :
  Forall (fun x => x <> LF) l -> (length l < BUFFER_SIZE - 1)%nat ->
  fgets BUFFER_SIZE (l ++ LF :: rest) = Some (l ++ [LF], rest).
Proof.
  intros Hl Hk. unfold fgets. rewrite read_line_short by done. by destruct l.
Qed.

Lemma terminated_cells (d : CSVData) f t :
  Forall terminated (cells d) -> f ∈ cells d ->
  terminated (strncpy f t (MAX_CELL_SIZE - 1)).
Proof.
  intros Hall Hf. apply strncpy_terminated. by eapply Forall_forall in Hall.
Qed.

Lemma next_cell_terminated f s : terminated f -> terminated (next_cell f s).1.
Proof.
  intros Hf. unfold next_cell. destruct (strtok s) as [[t|] s']; cbn [fst]; [|done].
  by apply strncpy_terminated.
Qed.

(** X17: the fields stay terminated strings.  If the last byte of
    every field of [*data] and of [last_valid_data] is 0, it still is
    after [parse_csv], whatever the file holds: a token is copied with
    a bound of 99 bytes and the hundredth is never written.  The call
    returns -1 exactly when the file cannot be opened and then leaves
    both structures alone; otherwise it returns 0 with [*data] equal
    to [last_valid_data]; and a file that is empty or ends after its
    header line gives back the data of the last good call. *)
Theorem parse_csv_terminated (file : option (list Z)) (data last : CSVData) :
  Forall terminated (cells data) -> Forall terminated (cells last) ->
  let r := parse_csv file data last in
  Forall terminated (cells r.1.2) /\ Forall terminated (cells r.2) /\
  (file = None -> r = (-1, data, last)) /\
  (file <> None -> r.1.1 = 0 /\ r.1.2 = r.2) /\
  (forall header,
     Forall (fun x => x <> LF) header -> (length header < BUFFER_SIZE - 1)%nat ->
     file = Some [] \/ file = Some (header ++ [LF]) -> r = (0, last, last)).
Proof.
  intros Hd Hl. cbv zeta.
  split; [|split; [|split; [by intros ->|split]]].
  - unfold parse_csv. destruct file as [content|]; [|done].
    destruct (fgets BUFFER_SIZE content) as [[h rest]|]; [|done].
    destruct (fgets BUFFER_SIZE rest) as [[line rest']|]; [|done].
    unfold cells in Hd. repeat (apply Forall_cons in Hd as [? Hd]).
    repeat (match goal with
            | |- context [next_cell ?f ?s] =>
                pose proof (next_cell_terminated f s ltac:(done));
                destruct (next_cell f s); cbn [fst] in *
            end).
    cbn [fst snd]. unfold cells. cbn [step_ID routeState street_name distance maneuverID
      arrival_time currentTemp currentWeather instructions].
    repeat (apply Forall_cons_2; [assumption|]). apply Forall_nil_2.
  - unfold parse_csv. destruct file as [content|]; [|done].
    destruct (fgets BUFFER_SIZE content) as [[h rest]|]; [|done].
    destruct (fgets BUFFER_SIZE rest) as [[line rest']|]; [|done].
    unfold cells in Hd. repeat (apply Forall_cons in Hd as [? Hd]).
    repeat (match goal with
            | |- context [next_cell ?f ?s] =>
                pose proof (next_cell_terminated f s ltac:(done));
                destruct (next_cell f s); cbn [fst] in *
            end).
    cbn [fst snd]. unfold cells. cbn [step_ID routeState street_name distance maneuverID
      arrival_time currentTemp currentWeather instructions].
    repeat (apply Forall_cons_2; [assumption|]). apply Forall_nil_2.
  - intros Hf. unfold parse_csv. destruct file as [content|]; [|done].
    destruct (fgets BUFFER_SIZE content) as [[h rest]|]; [|done].
    destruct (fgets BUFFER_SIZE rest) as [[line rest']|]; [|done].
    repeat (match goal with |- context [next_cell ?f ?s] => destruct (next_cell f s) end).
    done.
  - intros header Hh Hlen [-> | ->]; [done|]. unfold parse_csv.
    by rewrite fgets_line by done.
Qed.

Lemma parse_csv_terminated_witness :
  let r := parse_csv (Some [105; 100; 10]) last_valid_data0 last_valid_data0 in
  Forall terminated (cells r.1.2) /\ Forall terminated (cells r.2) /\
  r = (0, last_valid_data0, last_valid_data0).
Proof.
  cbv zeta.
  assert (Forall terminated (cells last_valid_data0)) as Hok.
  { unfold cells, last_valid_data0. cbn [step_ID routeState street_name distance maneuverID
      arrival_time currentTemp currentWeather instructions].
    repeat (apply Forall_cons_2; [split; reflexivity|]). apply Forall_nil_2. }
  destruct (parse_csv_terminated (Some [105; 100; 10]) last_valid_data0 last_valid_data0
              Hok Hok) as (H1 & H2 & _ & _ & H5).
  split; [done|]. split; [done|].
  apply (H5 [105; 100]); [repeat constructor; done|unfold BUFFER_SIZE; cbn [length]; lia|by right].
Defined.

(** X18: what [parse_csv] makes of the second line of the file.  The
    fields take, in the order of the structure, the non-empty runs of
    bytes between the commas of the line, each cut to 99 bytes; the
    line feed that ends the line belongs to the last run; an empty
    column is therefore skipped, so that the later columns move one
    field up, and the fields for which no run is left keep what they
    held. *)
Theorem parse_csv_fields (header line more : list Z) (data last : CSVData) :
  Forall (fun x => x <> LF) header -> (length header < BUFFER_SIZE - 1)%nat ->
  Forall (fun x => x <> LF /\ x <> NUL) line -> (length line < BUFFER_SIZE - 1)%nat ->
  exists d,
    parse_csv (Some (header ++ LF :: line ++ LF :: more)) data last = (0, d, d) /\
    forall i f, cells data !! i = Some f ->
      cells d !! i
      = Some (match runs (line ++ [LF]) [] !! i with
              | Some t => strncpy f t (MAX_CELL_SIZE - 1)
              | None => f
              end).
Proof.
  intros Hh Hhl Hline Hll.
  assert (Forall (fun x => x <> LF) line) as Hlf
    by (eapply Forall_impl; [done|]; by intros x [? ?]).
  destruct (parse_csv_cells (header ++ LF :: line ++ LF :: more) (header ++ [LF])
              (line ++ LF :: more) (line ++ [LF]) more data last)
    as (d & Hd & Hcells); [by apply fgets_line..|].
  exists d. split; [done|].
  rewrite cstr_clean in Hcells; [done|].
  apply Forall_app. split; [|by repeat constructor].
  eapply Forall_impl; [exact Hline|]. by intros x [? ?].
Qed.

Lemma parse_csv_fields_witness :
  exists d,
    parse_csv (Some ([105; 100] ++ LF :: [55; 44; 44; 78] ++ LF :: []))
      last_valid_data0 last_valid_data0 = (0, d, d) /\
    forall i f, cells last_valid_data0 !! i = Some f ->
      cells d !! i
      = Some (match runs ([55; 44; 44; 78] ++ [LF]) [] !! i with
              | Some t => strncpy f t (MAX_CELL_SIZE - 1)
              | None => f
              end).
Proof.
  apply (parse_csv_fields [105; 100] [55; 44; 44; 78] [] last_valid_data0 last_valid_data0).
  - repeat constructor; done.
  - unfold BUFFER_SIZE. cbn [length]. lia.
  - repeat constructor; done.
  - unfold BUFFER_SIZE. cbn [length]. lia.
Defined.


(** *** A well-formed row *)

Lemma runs_clean (f : list Z) : forall cur,
  Forall (fun x => x <> COMMA) f -> cur <> [] \/ f <> [] ->
  runs f cur = [rev cur ++ f].
Proof.
  induction f as [|c f IH]; intros cur Hf Hne; cbn [runs].
  - rewrite app_nil_r. destruct cur; [by destruct Hne|done].
  - apply Forall_cons in Hf as [Hc Hf]. destruct (Z.eqb_spec c COMMA); [done|].
    rewrite IH; [|done|by left]. cbn [rev]. by rewrite <- app_assoc.
Qed.

Lemma runs_app (f s : list Z) : forall cur,
  Forall (fun x => x <> COMMA) f -> cur <> [] \/ f <> [] ->
  runs (f ++ COMMA :: s) cur = (rev cur ++ f) :: runs s [].
Proof.
  induction f as [|c f IH]; intros cur Hf Hne; cbn [runs app].
  - rewrite app_nil_r, Z.eqb_refl. destruct cur; [by destruct Hne|done].
  - apply Forall_cons in Hf as [Hc Hf]. destruct (Z.eqb_spec c COMMA); [done|].
    rewrite IH; [|done|by left]. cbn [rev]. by rewrite <- app_assoc.
Qed.

Lemma runs_join (fields : list (list Z)) :
  Forall (fun f => f <> [] /\ Forall (fun x => x <> COMMA) f) fields ->
  runs (join fields) [] = fields.
Proof.
  induction 1 as [|f fields [Hne Hf] Hrest IH]; [done|].
  destruct fields as [|g fields].
  - cbn [join]. rewrite runs_clean; [done|done|by right].
  - change (join (f :: g :: fields)) with (f ++ COMMA :: join (g :: fields)).
    rewrite runs_app; [|done|by right]. by rewrite IH.
Qed.

Lemma join_snoc (front : list (list Z)) (l x : list Z) :
  join (front ++ [l]) ++ x = join (front ++ [l ++ x]).
Proof.
  induction front as [|f front IH]; [done|].
  destruct front as [|g front].
  - cbn [app join]. by rewrite <- app_assoc.
  - change (join ((f :: g :: front) ++ [l]))
      with (f ++ COMMA :: join ((g :: front) ++ [l])).
    change (join ((f :: g :: front) ++ [l ++ x]))
      with (f ++ COMMA :: join ((g :: front) ++ [l ++ x])).
    rewrite <- IH. by rewrite <- app_assoc.
Qed.

Lemma join_length (m : nat) (fields : list (list Z)) :
  Forall (fun f => (length f <= m)%nat) fields ->
  (length (join fields) <= length fields * S m)%nat.
Proof.
  induction 1 as [|f fields Hf Hrest IH]; [done|].
  destruct fields as [|g fields].
  - cbn [join length]. lia.
  - change (join (f :: g :: fields)) with (f ++ COMMA :: join (g :: fields)).
    rewrite length_app. cbn [length] in *. lia.
Qed.

Lemma join_clean (P : Z -> Prop) (fields : list (list Z)) :
  P COMMA -> Forall (Forall P) fields -> Forall P (join fields).
Proof.
  intros Hc. induction 1 as [|f fields Hf Hrest IH]; [constructor|].
  destruct fields as [|g fields]; [done|].
  change (join (f :: g :: fields)) with (f ++ COMMA :: join (g :: fields)).
  apply Forall_app. split; [done|]. by constructor.
Qed.

(** X19: a well-formed file is read column by column, except that the
    line feed stays in the last field.  For a header line and a second
    line of nine columns separated by commas, the first eight fields
    come to hold exactly the first eight columns, and [instructions]
    holds the ninth followed by the line feed. *)
Theorem parse_csv_row (header : list Z) (front : list (list Z)) (lastf more : list Z)
    (data last : CSVData) :
  Forall (fun x => x <> LF) header -> (length header < BUFFER_SIZE - 1)%nat ->
  length front = 8%nat -> Forall column front -> column lastf ->
  Forall terminated (cells data) ->
  exists d,
    parse_csv (Some (header ++ LF :: join (front ++ [lastf]) ++ LF :: more)) data last
      = (0, d, d) /\
    cstr <$> cells d = front ++ [lastf ++ [LF]] /\
    Forall terminated (cells d).
Proof.
  intros Hh Hhl Hn Hfront Hlast Hdata.
  assert (Forall column (front ++ [lastf])) as Hall
    by (apply Forall_app; split; [done|by constructor]).
  assert (Forall (fun x => x <> LF /\ x <> NUL) (join (front ++ [lastf]))) as Hline.
  { apply (join_clean (fun x => x <> LF /\ x <> NUL)); [done|].
    eapply Forall_impl; [exact Hall|]. intros f (_ & _ & Hf).
    eapply Forall_impl; [exact Hf|]. by intros x (_ & ? & ?). }
  assert (length (join (front ++ [lastf])) < BUFFER_SIZE - 1)%nat as Hll.
  { pose proof (join_length 98 (front ++ [lastf])) as Hj.
    rewrite length_app, Hn in Hj. cbn [length Nat.add] in Hj.
    unfold BUFFER_SIZE. enough (length (join (front ++ [lastf])) <= 9 * 99)%nat by lia.
    apply Hj. eapply Forall_impl; [exact Hall|]. by intros f (_ & ? & _). }
  destruct (parse_csv_cells
              (header ++ LF :: join (front ++ [lastf]) ++ LF :: more) (header ++ [LF])
              (join (front ++ [lastf]) ++ LF :: more) (join (front ++ [lastf]) ++ [LF])
              more data last) as (d & Hd & Hcells).
  { by apply fgets_line. }
  { apply fgets_line; [|done]. eapply Forall_impl; [exact Hline|]. by intros x [? ?]. }
  exists d. split; [done|].
  rewrite cstr_clean in Hcells.
  2:{ apply Forall_app. split; [|by repeat constructor].
      eapply Forall_impl; [exact Hline|]. by intros x [? ?]. }
  rewrite join_snoc, runs_join in Hcells.
  2:{ apply Forall_app. split.
      - eapply Forall_impl; [exact Hfront|]. intros f (? & _ & Hf). split; [done|].
        eapply Forall_impl; [exact Hf|]. by intros x (? & _).
      - constructor; [|constructor]. destruct Hlast as (? & _ & Hf).
        split; [by destruct lastf|]. apply Forall_app. split; [|by repeat constructor].
        eapply Forall_impl; [exact Hf|]. by intros x (? & _). }
  set (cols := front ++ [lastf ++ [LF]]) in *.
  assert (length cols = 9%nat) as Hcols
    by (unfold cols; rewrite length_app, Hn; done).
  assert (Forall (fun f => (length f <= 99)%nat /\ Forall (fun x => x <> NUL) f) cols)
    as Hgood.
  { apply Forall_app. split.
    - eapply Forall_impl; [exact Hfront|]. intros f (_ & ? & Hf). split; [lia|].
      eapply Forall_impl; [exact Hf|]. by intros x (_ & _ & ?).
    - constructor; [|constructor]. destruct Hlast as (_ & ? & Hf). split.
      + rewrite length_app. cbn [length]. lia.
      + apply Forall_app. split; [|by repeat constructor].
        eapply Forall_impl; [exact Hf|]. by intros x (_ & _ & ?). }
  assert (forall i f, cells data !! i = Some f ->
            exists t, cols !! i = Some t /\
                      cells d !! i = Some (strncpy f t (MAX_CELL_SIZE - 1)) /\
                      terminated f /\ (length t <= 99)%nat /\
                      Forall (fun x => x <> NUL) t) as Hcell.
  { intros i f Hi. pose proof (lookup_lt_Some _ _ _ Hi) as Hlt. cbn [cells length] in Hlt.
    destruct (lookup_lt_is_Some_2 cols i ltac:(lia)) as [t Ht].
    exists t. rewrite (Hcells i f Hi), Ht. split; [done|]. split; [done|].
    split; [by eapply Forall_lookup_1 in Hdata|].
    by eapply Forall_lookup_1 in Hgood. }
  clearbody cols. split.
  - apply list_eq. intros i. rewrite list_lookup_fmap.
    destruct (cells data !! i) as [f|] eqn:Hi.
    + destruct (Hcell i f Hi) as (t & Ht & Hdi & Hf & Hlen & Hnul).
      rewrite Hdi, Ht. cbn [fmap option_fmap option_map]. f_equal.
      rewrite cstr_strncpy by done. apply take_ge. unfold MAX_CELL_SIZE. lia.
    + apply lookup_ge_None in Hi. cbn [cells length] in Hi.
      rewrite (proj2 (lookup_ge_None (cells d) i)) by (cbn [cells length]; lia).
      symmetry. apply lookup_ge_None. lia.
  - apply Forall_lookup. intros i g Hg.
    pose proof (lookup_lt_Some _ _ _ Hg) as Hlt. cbn [cells length] in Hlt.
    destruct (lookup_lt_is_Some_2 (cells data) i ltac:(cbn [cells length]; lia)) as [f Hi].
    destruct (Hcell i f Hi) as (t & Ht & Hdi & Hf & _). rewrite Hdi in Hg.
    injection Hg as <-. by apply strncpy_terminated.
Qed.

Lemma parse_csv_row_witness :
  exists d,
    parse_csv (Some ([105; 100] ++ LF :: join (replicate 8 [49] ++ [[57]]) ++ LF :: []))
      last_valid_data0 last_valid_data0 = (0, d, d) /\
    cstr <$> cells d = replicate 8 [49] ++ [[57] ++ [LF]] /\
    Forall terminated (cells d).
Proof.
  assert (forall c, c <> COMMA -> c <> LF -> c <> NUL -> column [c]) as Hcol.
  { intros c ? ? ?. split; [done|]. split; [cbn [length]; lia|]. by repeat constructor. }
  apply (parse_csv_row [105; 100] (replicate 8 [49]) [57] []
           last_valid_data0 last_valid_data0).
  - repeat constructor; done.
  - unfold BUFFER_SIZE. cbn [length]. lia.
  - reflexivity.
  - apply Forall_replicate. by apply Hcol.
  - by apply Hcol.
  - unfold cells, last_valid_data0. cbn [step_ID routeState street_name distance maneuverID
      arrival_time currentTemp currentWeather instructions].
    repeat (apply Forall_cons_2; [split; reflexivity|]). apply Forall_nil_2.
Defined.

End TextFacts.

Module PictureFacts.
Import String Picture.
Local Open Scope string_scope.

(** X20: [displayImage] never writes past its 50-byte path buffer.
    Whatever the input, the path it builds fits with its terminator
    and starts with [./pic/]; a picture is drawn exactly for the eight
    codes [0] to [6] and [-1], at a position inside the 128 by 128
    display, and any other input draws nothing. *)
Theorem displayImage_safe (input : String.string) :
  displayImage input <> Overflow /\
  (displayImage input = NoImage <-> input ∉ codes) /\
  (forall path x y, displayImage input = Image path x y ->
     (String.length path < 50)%nat /\
     String.prefix "./pic/" path = true /\
     0 <= x < OLED_WIDTH /\ 0 <= y < OLED_HEIGHT).
Proof.
  assert (forall name x y code,
    (String.length name <=? 43)%nat = true ->
    0 <= x < 128 -> 0 <= y < 128 -> code ∈ codes ->
    draw name x y <> Overflow /\
    (draw name x y = NoImage <-> code ∉ codes) /\
    (forall path x' y', draw name x y = Image path x' y' ->
       (String.length path < 50)%nat /\
       String.prefix "./pic/" path = true /\
       0 <= x' < OLED_WIDTH /\ 0 <= y' < OLED_HEIGHT)) as Hdraw.
  { intros name x y code Hlen Hx Hy Hcode. apply Nat.leb_le in Hlen.
    unfold draw, strcat. cbn [String.length Nat.add].
    destruct (Nat.leb_spec (S (S (S (S (S (S (String.length name + 1))))))) 50); [|lia].
    split; [done|]. split; [done|].
    intros path x' y' [= <- <- <-]. simpl. change (String.append "" name) with name.
    repeat (destruct (Ascii.ascii_dec _ _); [|done]).
    split; [lia|]. split; [by destruct name|]. unfold OLED_WIDTH, OLED_HEIGHT.
    unfold DISPLAY_WIDTH, DISPLAY_HEIGHT. lia. }
  unfold displayImage.
  repeat (match goal with
          | |- context [String.eqb input ?s] =>
              destruct (String.eqb_spec input s) as [->|?]
          end;
          [apply Hdraw; [reflexivity|lia|lia|unfold codes; apply list_elem_of_In; cbn [In]; tauto]|]).
  split; [done|]. split; [|done]. split; [|done]. intros _ Hin. unfold codes in Hin.
  repeat (apply elem_of_cons in Hin as [?|Hin]; [done|]). by apply elem_of_nil in Hin.
Qed.

End PictureFacts.

Module ButtonLife.
Import Button PassFacts ButtonFacts.

Lemma hold_loop_held (pin : nat -> Z) : forall fuel k check2,
  (forall i, pin i = 1) -> hold_loop fuel pin k 1 check2 = None.
Proof.
  induction fuel as [|fuel IH]; intros k check2 Hall; [done|].
  cbn [hold_loop Z.eqb Pos.eqb]. rewrite Hall. by apply IH.
Qed.

(** X21: press, hold, release.  When the pin reads 1 on the first [m]
    reads, [m] at least 2, and something else on the next, [Button_Lock]
    returns 1 after exactly [m + 1] reads, provided it is given the
    [m - 1] iterations of its polling loop; no read is of an unassigned
    variable, and the pin is not released with [lgGpioFree] on this
    path.  A pin that reads 1 once and then not yields no value: the
    run reaches the end of the function. *)
Theorem Button_Lock_press (indet : Z) (fuel : nat) (pin : nat -> Z) (m : nat) :
  (forall i, (i < m)%nat -> pin i = 1) -> pin m <> 1 ->
  (2 <= m -> m - 1 <= fuel ->
     Button_Lock indet fuel pin = LockRun (Some (Return 1)) false false (S m))%nat /\
  (m = 1%nat ->
     Button_Lock indet fuel pin = LockRun (Some FellOffEnd) false true 2).
Proof.
  intros Hall Hm. split.
  - intros Hm2 Hfuel. unfold Button_Lock. rewrite (Hall 0%nat) by lia.
    cbn [Z.eqb Pos.eqb]. rewrite (Hall 1%nat) by lia.
    rewrite (hold_loop_release pin m (m - 2) 2 fuel 0); [|lia| |done|lia].
    + done.
    + intros i Hi. apply Hall. lia.
  - intros ->. unfold Button_Lock. rewrite (Hall 0%nat) by lia.
    cbn [Z.eqb Pos.eqb].
    assert (hold_loop fuel pin 2 (pin 1%nat) 0 = Some (pin 1%nat, 0, 2%nat)) as ->.
    { destruct fuel; cbn [hold_loop]; by destruct (Z.eqb_spec (pin 1%nat) 1). }
    done.
Qed.

Lemma Button_Lock_press_witness :
  Button_Lock 7 10 (fun k => if (k <? 4)%nat then 1 else 0)
    = LockRun (Some (Return 1)) false false 5.
Proof.
  refine (proj1 (Button_Lock_press 7 10 (fun k => if (k <? 4)%nat then 1 else 0) 4 _ _) _ _).
  - intros i Hi. destruct (Nat.ltb_spec i 4); [done|lia].
  - done.
  - lia.
  - cbn. lia.
Defined.

(** X22: while the button is held, [Button_Lock] does not return: on
    a pin that always reads 1 the polling loop is still running after
    any number of iterations, one read per iteration. *)
Theorem Button_Lock_held (indet : Z) (fuel : nat) (pin : nat -> Z) :
  (forall i, pin i = 1) ->
  Button_Lock indet fuel pin = LockRun None false false (2 + fuel).
Proof.
  intros Hall. unfold Button_Lock. rewrite (Hall 0%nat). cbn [Z.eqb Pos.eqb].
  rewrite (Hall 1%nat). by rewrite hold_loop_held.
Qed.

Lemma Button_Lock_held_witness :
  Button_Lock 7 10 (fun _ => 1) = LockRun None false false (2 + 10).
Proof. by apply (Button_Lock_held 7 10 (fun _ => 1)). Defined.
End ButtonLife.

Module NameFacts.
Import Text Names TextFacts String.StringSyntax.
Local Open Scope string_scope.

Ltac div10 n :=
  pose proof (Z.div_mod n 10 ltac:(lia));
  pose proof (Z.mod_pos_bound n 10 ltac:(lia)).

Lemma digits_from_small f n acc :
  0 <= n < 10 -> digits_from (S f) n acc = (48 + n) :: acc.
Proof.
  intros Hn. cbn [digits_from]. destruct (Z.ltb_spec n 10); [|lia].
  by rewrite Z.mod_small.
Qed.

Lemma digits_from_step f n acc :
  10 <= n -> digits_from (S f) n acc = digits_from f (n / 10) ((48 + n mod 10) :: acc).
Proof. intros Hn. cbn [digits_from]. destruct (Z.ltb_spec n 10); [lia|done]. Qed.

Lemma fuel_log2 k n :
  (0 <= k) -> 2 ^ k <= n -> exists f, Z.to_nat (Z.log2 n) = (Z.to_nat k + f)%nat.
Proof.
  intros Hk Hn. assert (k <= Z.log2 n).
  { rewrite <- (Z.log2_pow2 k Hk). by apply Z.log2_le_mono. }
  exists (Z.to_nat (Z.log2 n - k)). lia.
Qed.

Lemma digits_1 n : 0 <= n < 10 -> digits n = [48 + n].
Proof. intros Hn. unfold digits. by apply digits_from_small. Qed.

Lemma digits_2 n : 10 <= n < 100 -> digits n = [48 + n / 10; 48 + n mod 10].
Proof.
  intros Hn. unfold digits. destruct (fuel_log2 3 n) as [f ->]; [lia|cbn; lia|].
  change (Z.to_nat 3 + f)%nat with (S (S (S f))). div10 n.
  rewrite digits_from_step by lia. apply digits_from_small. lia.
Qed.

Lemma digits_3 n :
  100 <= n < 1000 -> digits n = [48 + n / 10 / 10; 48 + (n / 10) mod 10; 48 + n mod 10].
Proof.
  intros Hn. unfold digits. destruct (fuel_log2 6 n) as [f ->]; [lia|cbn; lia|].
  change (Z.to_nat 6 + f)%nat with (S (S (S (S (S (S f)))))). div10 n. div10 (n / 10).
  rewrite !digits_from_step by lia. apply digits_from_small. lia.
Qed.

Lemma digits_4 n :
  1000 <= n < 10000 ->
  digits n = [48 + n / 10 / 10 / 10; 48 + (n / 10 / 10) mod 10; 48 + (n / 10) mod 10;
              48 + n mod 10].
Proof.
  intros Hn. unfold digits. destruct (fuel_log2 9 n) as [f ->]; [lia|cbn; lia|].
  change (Z.to_nat 9 + f)%nat with (S (S (S (S (S (S (S (S (S f))))))))).
  div10 n. div10 (n / 10). div10 (n / 10 / 10).
  rewrite !digits_from_step by lia. apply digits_from_small. lia.
Qed.

(** [%02d] and [%04d] on numbers that fit the width. *)
Lemma fmt_0d_2 n : 0 <= n < 100 -> fmt_0d 2 n = [48 + n / 10; 48 + n mod 10].
Proof.
  intros Hn. unfold fmt_0d. destruct (Z.ltb_spec n 0); [lia|]. div10 n.
  destruct (Z_lt_le_dec n 10).
  - rewrite digits_1 by lia. cbn. f_equal; [f_equal; lia|f_equal; lia].
  - by rewrite digits_2 by lia.
Qed.

Lemma fmt_0d_4 n :
  0 <= n < 10000 ->
  fmt_0d 4 n = [48 + n / 10 / 10 / 10; 48 + (n / 10 / 10) mod 10; 48 + (n / 10) mod 10;
                48 + n mod 10].
Proof.
  intros Hn. unfold fmt_0d. destruct (Z.ltb_spec n 0); [lia|].
  div10 n. div10 (n / 10). div10 (n / 10 / 10).
  destruct (Z_lt_le_dec n 10); [|destruct (Z_lt_le_dec n 100); [|destruct (Z_lt_le_dec n 1000)]].
  - rewrite digits_1 by lia. cbn. repeat (f_equal; try lia).
  - rewrite digits_2 by lia. cbn. repeat (f_equal; try lia).
  - rewrite digits_3 by lia. cbn. repeat (f_equal; try lia).
  - by rewrite digits_4 by lia.
Qed.

(** The fuel of [digits] is enough for every number: the digits read
    back as the number. *)
Lemma digits_from_number f : forall n acc,
  0 <= n < 2 ^ Z.of_nat f ->
  fold_left (fun a c => 10 * a + (c - 48)) (digits_from f n acc) 0 =
  fold_left (fun a c => 10 * a + (c - 48)) acc n.
Proof.
  induction f as [|f IH]; intros n acc Hn.
  { change (2 ^ Z.of_nat 0) with 1 in Hn. by replace n with 0 by lia. }
  cbn [digits_from]. div10 n. destruct (Z.ltb_spec n 10).
  - cbn [fold_left]. f_equal. lia.
  - rewrite IH.
    + cbn [fold_left]. f_equal. lia.
    + rewrite Nat2Z.inj_succ, Z.pow_succ_r in Hn by lia. lia.
Qed.

Lemma digits_number n : 0 <= n -> number (digits n) = n.
Proof.
  intros Hn. unfold number, digits. rewrite digits_from_number; [done|].
  split; [done|]. destruct (Z.eq_dec n 0) as [->|Hn0]; [done|].
  rewrite Nat2Z.inj_succ, Z2Nat.id by apply Z.log2_nonneg.
  apply Z.log2_spec. lia.
Qed.

Lemma clean_check l :
  forallb (fun x => negb (x =? NUL)) l = true -> Forall (fun x => x <> NUL) l.
Proof.
  intros H. apply Forall_forall. intros x Hx. apply list_elem_of_In in Hx.
  apply (proj1 (forallb_forall _ l) H) in Hx. apply negb_true_iff in Hx.
  by apply Z.eqb_neq.
Qed.

Lemma digits_from_clean f : forall n acc,
  Forall (fun x => x <> NUL) acc -> Forall (fun x => x <> NUL) (digits_from f n acc).
Proof.
  induction f as [|f IH]; intros n acc Hacc; [done|]. cbn [digits_from].
  assert (Forall (fun x => x <> NUL) ((48 + n mod 10) :: acc)) as Hacc'.
  { apply Forall_cons_2; [|done]. pose proof (Z.mod_pos_bound n 10). unfold NUL. lia. }
  destruct (n <? 10); [done|]. by apply IH.
Qed.

Lemma fmt_0d_clean w n : Forall (fun x => x <> NUL) (fmt_0d w n).
Proof.
  assert (forall k, Forall (fun x => x <> NUL) (replicate k 48)) as Hrep.
  { intros k. apply Forall_forall. intros x Hx. apply elem_of_replicate in Hx as [-> _]. done. }
  unfold fmt_0d. destruct (n <? 0).
  - apply Forall_cons_2; [done|]. apply Forall_app. split; [apply Hrep|].
    apply digits_from_clean, Forall_nil_2.
  - apply Forall_app. split; [apply Hrep|]. apply digits_from_clean, Forall_nil_2.
Qed.

Lemma cstr_no_nul l : Forall (fun x => x <> NUL) (cstr l).
Proof.
  eapply Forall_impl; [apply upto_clean|]. intros x Hx. unfold is_char in Hx.
  by apply Z.eqb_neq.
Qed.

Lemma name_text_clean f t : Forall (fun x => x <> NUL) (name_text f t).
Proof.
  unfold name_text.
  repeat (apply Forall_app; split);
    try apply fmt_0d_clean; try apply cstr_no_nul; by apply clean_check.
Qed.

(** The text of a name for a valid time. *)
Lemma name_text_shape f t :
  valid t ->
  let m := tm_mon t + 1 in
  let y := tm_year t + 1900 in
  name_text f t =
    (DIR_OUTPUT ++ chars "/video_") ++
    [48 + m / 10; 48 + m mod 10; 48 + tm_mday t / 10; 48 + tm_mday t mod 10;
     48 + y / 10 / 10 / 10; 48 + (y / 10 / 10) mod 10; 48 + (y / 10) mod 10; 48 + y mod 10;
     95;
     48 + tm_hour t / 10; 48 + tm_hour t mod 10; 48 + tm_min t / 10; 48 + tm_min t mod 10;
     48 + tm_sec t / 10; 48 + tm_sec t mod 10;
     46] ++ cstr f.
Proof.
  intros (Hs & Hmi & Hh & Hd & Hmo & Hy). cbv zeta. unfold name_text.
  rewrite !fmt_0d_2, fmt_0d_4 by lia. by rewrite <- !app_assoc.
Qed.

Lemma name_text_length f t :
  valid t -> length (name_text f t) = (38 + length (cstr f))%nat.
Proof. intros Hv. rewrite (name_text_shape f t Hv). by rewrite !length_app. Qed.

(** [snprintf]: the length of the buffer stays, the bytes from [size]
    on stay, and the buffer holds the text cut to [size - 1] bytes. *)
Lemma snprintf_length buf size text :
  (size <= length buf)%nat -> length (snprintf buf size text) = length buf.
Proof.
  intros Hs. destruct size as [|k]; [done|]. cbn [snprintf].
  rewrite length_app, length_drop, length_app, length_take. cbn [length]. lia.
Qed.

Lemma snprintf_rest buf size text i :
  (size <= length buf)%nat -> (size <= i)%nat -> snprintf buf size text !! i = buf !! i.
Proof.
  intros Hs Hi. destruct size as [|k]; [done|]. cbn [snprintf].
  assert (length (take k text ++ [NUL]) <= S k)%nat as Hl
    by (rewrite length_app, length_take; cbn [length]; lia).
  rewrite lookup_app_r by lia. rewrite lookup_drop. f_equal. lia.
Qed.

Lemma snprintf_cstr buf k text :
  Forall (fun x => x <> NUL) text -> cstr (snprintf buf (S k) text) = take k text.
Proof.
  intros Ht. cbn [snprintf]. rewrite <- app_assoc. cbn [app].
  apply cstr_app_nul. by apply Forall_take.
Qed.

(** The name that [filename_gen] leaves in a buffer that has room for
    it. *)
Lemma filename_gen_fits buf size f t :
  valid t -> (38 + length (cstr f) < size)%nat -> (size <= length buf)%nat ->
  exists out, filename_gen (Some buf) size f (Now t) = Some out /\
    length out = length buf /\ cstr out = name_text f t.
Proof.
  intros Hv Hfit Hs. unfold filename_gen.
  destruct size as [|k]; [lia|]. cbn [Nat.ltb Nat.leb].
  eexists. split; [done|]. split; [by apply snprintf_length|].
  rewrite snprintf_cstr by apply name_text_clean.
  apply take_ge. rewrite name_text_length by done. lia.
Qed.

Lemma number_2 n : 0 <= n -> number [48 + n / 10; 48 + n mod 10] = n.
Proof. intros Hn. unfold number. cbn [fold_left]. div10 n. lia. Qed.

Lemma number_4 n :
  0 <= n ->
  number [48 + n / 10 / 10 / 10; 48 + (n / 10 / 10) mod 10; 48 + (n / 10) mod 10;
          48 + n mod 10] = n.
Proof.
  intros Hn. unfold number. cbn [fold_left]. div10 n. div10 (n / 10). div10 (n / 10 / 10).
  lia.
Qed.

Lemma prefix_22 : length (DIR_OUTPUT ++ chars "/video_") = 22%nat.
Proof. reflexivity. Qed.

(** X24: for a valid broken-down time and a buffer with room, the
    buffer holds after [filename_gen] a string of 38 bytes and the
    format: the directory and [/video_], then month, day and year in
    two, two and four digits, an underscore, hour, minute and second in
    two digits each, a dot and the format; each number is read back
    from its place. *)
Theorem filename_gen_layout buf size f t :
  valid t -> (38 + length (cstr f) < size)%nat -> (size <= length buf)%nat ->
  exists out, filename_gen (Some buf) size f (Now t) = Some out /\
    length out = length buf /\
    let name := cstr out in
    length name = (38 + length (cstr f))%nat /\
    take 22 name = DIR_OUTPUT ++ chars "/video_" /\
    number (take 2 (drop 22 name)) = tm_mon t + 1 /\
    number (take 2 (drop 24 name)) = tm_mday t /\
    number (take 4 (drop 26 name)) = tm_year t + 1900 /\
    name !! 30%nat = Some 95 /\
    number (take 2 (drop 31 name)) = tm_hour t /\
    number (take 2 (drop 33 name)) = tm_min t /\
    number (take 2 (drop 35 name)) = tm_sec t /\
    drop 37 name = 46 :: cstr f.
Proof.
  intros Hv Hfit Hs.
  destruct (filename_gen_fits buf size f t Hv Hfit Hs) as (out & E & Hl & Hc).
  exists out. split; [done|]. split; [done|]. cbv zeta. rewrite Hc.
  split; [by apply name_text_length|].
  pose proof Hv as (Hse & Hmi & Hh & Hd & Hmo & Hy).
  rewrite (name_text_shape f t Hv). cbv zeta.
  split; [by rewrite take_app_length' by apply prefix_22|].
  rewrite lookup_app_r by (rewrite prefix_22; lia).
  set (P := DIR_OUTPUT ++ chars "/video_").
  rewrite (drop_app_ge P _ 22), (drop_app_ge P _ 24), (drop_app_ge P _ 26),
    (drop_app_ge P _ 31), (drop_app_ge P _ 33), (drop_app_ge P _ 35),
    (drop_app_ge P _ 37) by (subst P; rewrite prefix_22; lia).
  subst P. rewrite prefix_22. cbn [Nat.sub drop take app lookup list_lookup].
  rewrite !number_2, number_4 by lia. done.
Qed.

Lemma filename_gen_layout_witness :
  exists out,
    filename_gen (Some (replicate 256 7)) 256 (chars "h264") (Now (Tm 7 5 14 30 9 126))
      = Some out /\
    number (take 4 (drop 26 (cstr out))) = 2026.
Proof.
  destruct (filename_gen_layout (replicate 256 7) 256 (chars "h264") (Tm 7 5 14 30 9 126))
    as (out & E & _ & _ & _ & _ & _ & Hy & _).
  - unfold valid. cbn. lia.
  - apply Nat.ltb_lt. reflexivity.
  - rewrite length_replicate. lia.
  - exists out. split; [exact E|exact Hy].
Defined.



(** X26: [filename_gen] on a buffer of at least [size] bytes never
    writes from byte [size] on; with a clock that works and a size of
    one or more it leaves a terminated string, the name cut to
    [size - 1] bytes; with a size of 0, or when [time] or [localtime]
    fails, it returns without a write, so that the caller goes on with
    what the buffer held before. *)
Theorem filename_gen_bounded buf size f c :
  (size <= length buf)%nat ->
  exists out, filename_gen (Some buf) size f c = Some out /\
    length out = length buf /\
    (forall i, (size <= i)%nat -> out !! i = buf !! i) /\
    (size = 0%nat -> out = buf) /\
    match c with
    | Now t => (1 <= size)%nat -> cstr out = take (size - 1) (name_text f t)
    | _ => out = buf
    end.
Proof.
  intros Hs. unfold filename_gen. destruct size as [|k].
  { exists buf. cbn [Nat.ltb Nat.leb]. repeat split; try done. destruct c; [done..|lia]. }
  cbn [Nat.ltb Nat.leb]. destruct c as [| |t]; [by exists buf..|].
  eexists. split; [done|]. split; [by apply snprintf_length|].
  split; [intros i Hi; by apply snprintf_rest|]. split; [done|]. intros _.
  rewrite snprintf_cstr by apply name_text_clean. by rewrite Nat.sub_1_r.
Qed.

Lemma filename_gen_bounded_witness :
  exists out,
    filename_gen (Some (replicate 40 7)) 30 (chars "yuv420") (Now (Tm 7 5 14 30 9 126))
      = Some out /\
    length (cstr out) = 29%nat /\ out !! 30%nat = Some 7.
Proof.
  destruct (filename_gen_bounded (replicate 40 7) 30 (chars "yuv420")
              (Now (Tm 7 5 14 30 9 126)))
    as (out & E & _ & Hrest & _ & Hc).
  - rewrite length_replicate. lia.
  - exists out. split; [exact E|]. split.
    + rewrite Hc by lia. reflexivity.
    + rewrite Hrest by lia. reflexivity.
Defined.

(** X27: the copy that [main_two] keeps of a name for the playback,
    in its array of 256 bytes: the array stays 256 bytes long, its last
    byte is a terminator, and the string it holds is the name cut to
    255 bytes. *)
Theorem keep_name_spec (current_yuv_file yuv_filename : list Z) :
  length current_yuv_file = MAX_FILENAME_LENGTH ->
  let kept := keep_name current_yuv_file yuv_filename in
  length kept = MAX_FILENAME_LENGTH /\
  kept !! (MAX_FILENAME_LENGTH - 1)%nat = Some NUL /\
  cstr kept = take (MAX_FILENAME_LENGTH - 1) (cstr yuv_filename).
Proof.
  unfold MAX_FILENAME_LENGTH. change (256 - 1)%nat with 255%nat.
  intros Hl. cbv zeta. unfold keep_name, MAX_FILENAME_LENGTH.
  change (256 - 1)%nat with 255%nat.
  assert (length (strncpy current_yuv_file (cstr yuv_filename) 255) = 256%nat) as Hlen
    by (rewrite strncpy_length; lia).
  split; [by rewrite length_insert|].
  split; [apply list_lookup_insert_eq; lia|].
  unfold strncpy. set (s := cstr yuv_filename).
  assert (Forall (fun x => x <> NUL) s) as Hclean by apply cstr_no_nul.
  set (A := take 255 (s ++ replicate 255 NUL)).
  assert (length A = 255%nat) as HA
    by (subst A; rewrite length_take, length_app, length_replicate; lia).
  rewrite insert_app_r_alt by lia. rewrite HA, Nat.sub_diag.
  destruct (drop 255 current_yuv_file) as [|x rest] eqn:Hd.
  { apply (f_equal length) in Hd. rewrite length_drop in Hd. cbn in Hd. lia. }
  cbn [insert list_insert]. subst A. destruct (Nat.le_gt_cases 255 (length s)) as [Hge|Hlt].
  - rewrite take_app_le by done. apply cstr_app_nul. by apply Forall_take.
  - rewrite take_app_ge by lia. rewrite (take_ge s) by lia.
    destruct (255 - length s)%nat as [|k] eqn:Hk; [lia|].
    rewrite take_replicate. replace (S k `min` 255)%nat with (S k) by lia.
    cbn [replicate]. rewrite <- app_assoc. cbn [app]. by apply cstr_app_nul.
Qed.

Lemma keep_name_spec_witness :
  cstr (keep_name (replicate 256 7) (chars "captured_videos/video_10302026_140507.yuv420"
                                       ++ [0; 1; 2]))
    = chars "captured_videos/video_10302026_140507.yuv420".
Proof.
  destruct (keep_name_spec (replicate 256 7)
              (chars "captured_videos/video_10302026_140507.yuv420" ++ [0; 1; 2]))
    as (_ & _ & Hc).
  - apply length_replicate.
  - rewrite Hc. reflexivity.
Defined.

End NameFacts.
